(** * A browser simulator with a censorship panel: model and properties

    The program is a React application (src/App.tsx) over a small service
    layer (src/services/geminiService.ts) and the types of types.ts.  This
    file embeds the state of the [App] component, its handlers and the
    service functions, and proves the properties of the navigation, cache and
    status life cycle.  Of components/Browser.tsx it embeds the address bar,
    the resolution of links and the choice of what the viewport shows.

    How the React code is read:

    - [useState] values ([siteCache], [tabs], [activeTabId], ...) are the
      fields of [AppState].
    - A handler is a closure of one render: inside it, [tabs], [siteCache]
      and [activeTabId] denote the values of that render, also after an
      [await] and inside a [setTimeout] callback.  A handler therefore takes
      the state of its render as an argument (its snapshot).
    - A handler changes the state only through the setters.  [setX(v)]
      replaces the value; [setX(prev => ...)] transforms the value current
      when the update is processed.  Updates are processed in the order in
      which they were issued.  A handler therefore returns the list of
      updates it issues ([Effect]), split into those issued before the
      handler first suspends ([sync]) and those issued by its [await]
      continuations and timer callbacks ([deferred]).
    - Values that come from outside the program are arguments: the reply of
      the generative service ([AiResult]), the clock ([Date.now()]), the
      identifier drawn by [generateId], the draw of [Math.random()].
    - The platform functions [new URL(u).hostname], [String.prototype.trim]
      and [JSON.parse] are parameters of the development.  [JSON.parse]
      returns a JavaScript value of any shape, and the service layer passes
      it on as it is.
    - [siteCache], an object used as a dictionary from URLs to records, is a
      finite map with string keys.  The text of the prompts, the markup
      and the copy of the cache kept in local storage are left out: they
      feed the service or the screen, not the state. *)

From Stdlib Require Import ZArith Ascii String.
From stdpp Require Import gmap strings list fin_maps.

Local Open Scope Z_scope.
Local Open Scope string_scope.

(** ** JavaScript values

    The values that [JSON.parse] returns and that the object literals of
    plain data build.  The service layer returns the result of [JSON.parse]
    unchecked, whatever its TypeScript annotation says, so what holds such a
    result holds a [JsValue].  A number is given by the text that
    [String(x)] returns for it (and "-0" for negative zero); an object by its
    own properties, in order and with distinct keys. *)

#[local] Unset Elimination Schemes.
Inductive JsValue : Type :=
  | js_undefined
  | js_null
  | js_boolean (b : bool)
  | js_number (repr : string)
  | js_string (s : string)
  | js_array (items : list JsValue)
  | js_object (properties : list (string * JsValue)).
#[local] Set Elimination Schemes.

Fixpoint JsValue_eq_dec (x y : JsValue) {struct x} : {x = y} + {x <> y}.
Proof.
  refine (
    match x, y with
    | js_undefined, js_undefined => left eq_refl
    | js_null, js_null => left eq_refl
    | js_boolean a, js_boolean b => cast_if (decide (a = b))
    | js_number a, js_number b => cast_if (decide (a = b))
    | js_string a, js_string b => cast_if (decide (a = b))
    | js_array a, js_array b => cast_if (List.list_eq_dec JsValue_eq_dec a b)
    | js_object a, js_object b =>
        cast_if (List.list_eq_dec
                   (fun p q : string * JsValue =>
                      match p, q with
                      | (k, v), (k', v') =>
                          match decide (k = k') with
                          | left Hk =>
                              match JsValue_eq_dec v v' with
                              | left Hv => left _
                              | right Hv => right _
                              end
                          | right Hk => right _
                          end
                      end) a b)
    | _, _ => right _
    end); congruence.
Defined.

#[global] Instance JsValue_eq : EqDecision JsValue := JsValue_eq_dec.

(** [v[key]] for a [key] that neither [Object.prototype] nor
    [Array.prototype] nor the wrappers of the primitive values define, on a
    [v] other than null and undefined: an own property, or undefined. *)
Definition get (key : string) (v : JsValue) : JsValue :=
  match v with
  | js_object properties =>
      match List.find (fun p => bool_decide (p.1 = key)) properties with
      | Some p => p.2
      | None => js_undefined
      end
  | _ => js_undefined
  end.

(** The truth test of [if (v)]. *)
Definition is_truthy (v : JsValue) : bool :=
  match v with
  | js_undefined | js_null => false
  | js_boolean b => b
  | js_number repr =>
      negb (bool_decide (repr = "0") || bool_decide (repr = "-0")
            || bool_decide (repr = "NaN"))
  | js_string s => match s with EmptyString => false | _ => true end
  | js_array _ | js_object _ => true
  end.

(** ** types.ts *)

Inductive SiteStatus : Type :=
  | NORMAL | SLOWED | BLOCKED | CONTENT_REMOVED | UNDER_APPEAL.

#[global] Instance SiteStatus_eq_dec : EqDecision SiteStatus.
Proof. solve_decision. Defined.

Inductive Role : Type := user | model.

#[global] Instance Role_eq_dec : EqDecision Role.
Proof. solve_decision. Defined.

(** [text] is declared a string; the entry of the owner holds the [reply]
    property of the service's answer, whatever that is. *)
Record ChatMessage : Type := mkChatMessage {
  role : Role;
  text : JsValue;
  timestamp : Z
}.

#[global] Instance ChatMessage_eq_dec : EqDecision ChatMessage.
Proof. solve_decision. Defined.

Module SearchResult.
Record t : Type := mk {
  title : string;
  url : string;
  snippet : string
}.
End SearchResult.

Inductive Verdict : Type := UPHOLD | OVERTURN.

Record CourtVerdict : Type := mkCourtVerdict {
  verdict : Verdict;
  reasoning : string;
  judgeName : string
}.

(** The values of the object literals of these types. *)
Definition SearchResult_value (r : SearchResult.t) : JsValue :=
  js_object [("title", js_string (SearchResult.title r));
             ("url", js_string (SearchResult.url r));
             ("snippet", js_string (SearchResult.snippet r))].

Definition SearchResults_value (results : list SearchResult.t) : JsValue :=
  js_array (map SearchResult_value results).

Definition Verdict_value (v : Verdict) : JsValue :=
  js_string (match v with UPHOLD => "UPHOLD" | OVERTURN => "OVERTURN" end).

Definition CourtVerdict_value (c : CourtVerdict) : JsValue :=
  js_object [("verdict", Verdict_value (verdict c));
             ("reasoning", js_string (reasoning c));
             ("judgeName", js_string (judgeName c))].

Module BrowserTab.
Record t : Type := mk {
  id : string;
  url : string;
  title : string;
  isLoading : bool;
  history : list string;
  historyIndex : Z;
  content : option string;
  status : SiteStatus;
  chatHistory : list ChatMessage;
  error : option string
}.

(** One property of an object literal of type [Partial<BrowserTab>].  The
    handlers never assign [id]. *)
Inductive prop : Type :=
  | Url (v : string)
  | Title (v : string)
  | IsLoading (v : bool)
  | History (v : list string)
  | HistoryIndex (v : Z)
  | Content (v : option string)
  | Status (v : SiteStatus)
  | ChatHistory (v : list ChatMessage)
  | Error (v : option string).

Definition assign (tab : t) (p : prop) : t :=
  match p with
  | Url v => mk (id tab) v (title tab) (isLoading tab) (history tab)
               (historyIndex tab) (content tab) (status tab) (chatHistory tab) (error tab)
  | Title v => mk (id tab) (url tab) v (isLoading tab) (history tab)
               (historyIndex tab) (content tab) (status tab) (chatHistory tab) (error tab)
  | IsLoading v => mk (id tab) (url tab) (title tab) v (history tab)
               (historyIndex tab) (content tab) (status tab) (chatHistory tab) (error tab)
  | History v => mk (id tab) (url tab) (title tab) (isLoading tab) v
               (historyIndex tab) (content tab) (status tab) (chatHistory tab) (error tab)
  | HistoryIndex v => mk (id tab) (url tab) (title tab) (isLoading tab) (history tab)
               v (content tab) (status tab) (chatHistory tab) (error tab)
  | Content v => mk (id tab) (url tab) (title tab) (isLoading tab) (history tab)
               (historyIndex tab) v (status tab) (chatHistory tab) (error tab)
  | Status v => mk (id tab) (url tab) (title tab) (isLoading tab) (history tab)
               (historyIndex tab) (content tab) v (chatHistory tab) (error tab)
  | ChatHistory v => mk (id tab) (url tab) (title tab) (isLoading tab) (history tab)
               (historyIndex tab) (content tab) (status tab) v (error tab)
  | Error v => mk (id tab) (url tab) (title tab) (isLoading tab) (history tab)
               (historyIndex tab) (content tab) (status tab) (chatHistory tab) v
  end.

(** [{ ...tab, ...updates }]: the properties of [updates] are copied over
    [tab] in the order of the literal. *)
Definition merge (tab : t) (updates : list prop) : t :=
  fold_left assign updates tab.
End BrowserTab.

(** ** The cache of App.tsx *)

Module CachedSiteData.
Record t : Type := mk {
  url : string;
  title : string;
  content : option string;
  status : SiteStatus;
  chatHistory : list ChatMessage;
  lastVisited : Z
}.

(** One property of an object literal of type [Partial<CachedSiteData>]. *)
Inductive prop : Type :=
  | Url (v : string)
  | Title (v : string)
  | Content (v : option string)
  | Status (v : SiteStatus)
  | ChatHistory (v : list ChatMessage)
  | LastVisited (v : Z).

Definition assign (r : t) (p : prop) : t :=
  match p with
  | Url v => mk v (title r) (content r) (status r) (chatHistory r) (lastVisited r)
  | Title v => mk (url r) v (content r) (status r) (chatHistory r) (lastVisited r)
  | Content v => mk (url r) (title r) v (status r) (chatHistory r) (lastVisited r)
  | Status v => mk (url r) (title r) (content r) v (chatHistory r) (lastVisited r)
  | ChatHistory v => mk (url r) (title r) (content r) (status r) v (lastVisited r)
  | LastVisited v => mk (url r) (title r) (content r) (status r) (chatHistory r) v
  end.

Definition merge (r : t) (data : list prop) : t :=
  fold_left assign data r.

(** The value a literal gives to a field: that of its last occurrence. *)
Definition given_url (data : list prop) : option string :=
  fold_left (fun acc p => match p with Url v => Some v | _ => acc end) data None.
Definition given_title (data : list prop) : option string :=
  fold_left (fun acc p => match p with Title v => Some v | _ => acc end) data None.
Definition given_content (data : list prop) : option (option string) :=
  fold_left (fun acc p => match p with Content v => Some v | _ => acc end) data None.
Definition given_status (data : list prop) : option SiteStatus :=
  fold_left (fun acc p => match p with Status v => Some v | _ => acc end) data None.
Definition given_chatHistory (data : list prop) : option (list ChatMessage) :=
  fold_left (fun acc p => match p with ChatHistory v => Some v | _ => acc end) data None.
End CachedSiteData.

#[global] Instance BrowserTab_eq_dec : EqDecision BrowserTab.t.
Proof. solve_decision. Defined.

#[global] Instance CachedSiteData_eq_dec : EqDecision CachedSiteData.t.
Proof. solve_decision. Defined.

(** The one double quote of the HTML literals. *)
Definition dq : string := String "034"%char EmptyString.

Definition home_url : string := "about:home".
Definition home_title : string := "Новая вкладка".

(** ** Platform functions

    [hostname u] is [new URL(u).hostname], [None] when the constructor throws
    a TypeError.  [JSON_parse] is [JSON.parse], [None] when it throws a
    SyntaxError; it returns null, a boolean, a number, a string, an array or
    an object, and never undefined. *)

Class Platform : Type := {
  hostname : string -> option string;
  trim : string -> string;
  JSON_parse : string -> option JsValue
}.

(** The type [chatWithSiteOwner] declares for its result, and the value of
    an object literal of it. *)
Record ChatReply : Type := mkChatReply {
  reply : string;
  agreedToRemove : bool
}.

Definition ChatReply_value (c : ChatReply) : JsValue :=
  js_object [("reply", js_string (reply c));
             ("agreedToRemove", js_boolean (agreedToRemove c))].

(** ** services/geminiService.ts *)

(** What [await ai.models.generateContent(...)] produces: the promise is
    rejected ([message] is [error.message] when the reason is an [Error]),
    or it is fulfilled with a response whose [text] may be undefined. *)
Inductive AiResult : Type :=
  | AiRejected (message : option string)
  | AiResponse (text : option string).

Definition is_letter (c : ascii) : bool :=
  let n := nat_of_ascii c in
  ((97 <=? n)%nat && (n <=? 122)%nat) || ((65 <=? n)%nat && (n <=? 90)%nat).

Fixpoint letters_prefix (s : string) : nat :=
  match s with
  | String c r => if is_letter c then S (letters_prefix r) else O
  | EmptyString => O
  end.

Fixpoint string_drop (n : nat) (s : string) : string :=
  match n, s with
  | S k, String _ r => string_drop k r
  | _, _ => s
  end.

(** The length of the match of [/```[a-z]*\n/i] at the head of [s], if any:
    three backquotes, the longest run of letters, a line feed. *)
Definition fence_open_match (s : string) : option nat :=
  match s with
  | String "`" (String "`" (String "`" r)) =>
      let k := letters_prefix r in
      match string_drop k r with
      | String "010" _ => Some (S (S (S (S k))))
      | _ => None
      end
  | _ => None
  end.

(** The length of the match of [/```/] at the head of [s], if any. *)
Definition fence_match (s : string) : option nat :=
  match s with
  | String "`" (String "`" (String "`" _)) => Some 3%nat
  | _ => None
  end.

(** [s.replace(re, '')] for a global [re] given by its matches at the head of
    a string: scan from the left, drop each match, resume after it.  [skip]
    counts the characters of the current match still to drop. *)
Fixpoint remove_matches (m : string -> option nat) (skip : nat) (s : string) : string :=
  match s with
  | EmptyString => EmptyString
  | String c r =>
      match skip with
      | S k => remove_matches m k r
      | O =>
          match m s with
          | Some (S k) => remove_matches m k r
          | _ => String c (remove_matches m O r)
          end
      end
  end.

Definition is_empty (s : string) : bool :=
  match s with EmptyString => true | _ => false end.

Definition cleanResponse `{Platform} (text : option string) : string :=
  match text with
  | None => ""
  | Some t =>
      if is_empty t then ""
      else trim (remove_matches fence_match O (remove_matches fence_open_match O t))
  end.

Definition search_fallback : list SearchResult.t :=
  [ SearchResult.mk "Twitch" "https://www.twitch.tv/" "Платформа для прямых трансляций.";
    SearchResult.mk "Steam" "https://store.steampowered.com/" "Добро пожаловать в Steam.";
    SearchResult.mk "Epic Games Store" "https://store.epicgames.com/"
      "Загружайте и играйте в игры для ПК.";
    SearchResult.mk "Roblox" "https://www.roblox.com/"
      "Игровая онлайн-платформа и система создания игр.";
    SearchResult.mk "Архив WikiLeaks" "https://leaks.org/docs"
      "Архив засекреченных документов." ].

(** [searchWeb(query)]; the query only enters the request sent to the
    service, whose reply is [r].  [JSON.parse(text) as SearchResult[]] is a
    type assertion, not a check: what the text parses to is returned as it
    is. *)
Definition searchWeb `{Platform} (query : string) (r : AiResult) : JsValue :=
  match r with
  | AiRejected _ => SearchResults_value search_fallback
  | AiResponse t =>
      let text := cleanResponse t in
      if is_empty text then js_array []
      else match JSON_parse text with
           | Some parsed => parsed
           | None => SearchResults_value search_fallback
           end
  end.

(** The two template literals that [generatePageContent] returns. *)
Definition page_of (body : string) : string :=
  "<div class=" ++ dq ++ "min-h-[150vh] bg-white text-gray-900 font-sans" ++ dq ++ ">"
    ++ body ++ "</div>".

Definition error_page_of (message : string) : string :=
  "<div class=" ++ dq ++ "p-8" ++ dq ++ ">Ошибка генерации контента: " ++ message
    ++ "</div>".

(** [generatePageContent(url, title, isCensored)]; the three arguments only
    enter the prompt sent to the service, whose reply is [r].  The whole body
    is inside [try], and the [catch] returns a string: the function never
    fails. *)
Definition generatePageContent `{Platform}
    (url title : string) (isCensored : bool) (r : AiResult) : string :=
  match r with
  | AiResponse t =>
      let text := cleanResponse t in
      page_of (if is_empty text then "Failed to load content." else text)
  | AiRejected message => error_page_of (default "Unknown error" message)
  end.

Definition chat_fallback : ChatReply :=
  mkChatReply "Ошибка соединения..." false.

(** [chatWithSiteOwner(url, history, newMessage)] returns
    [JSON.parse(text)] as it is. *)
Definition chatWithSiteOwner `{Platform}
    (url : string) (history : list ChatMessage) (newMessage : string)
    (r : AiResult) : JsValue :=
  match r with
  | AiRejected _ => ChatReply_value chat_fallback
  | AiResponse t =>
      match JSON_parse (cleanResponse t) with
      | Some parsed => parsed
      | None => ChatReply_value chat_fallback
      end
  end.

Definition court_fallback : CourtVerdict :=
  mkCourtVerdict UPHOLD
    "В связи с технической ошибкой системы правосудия, решение оставлено в силе автоматически."
    "Система Авто-Суд".

(** [judgeCourtCase(siteTitle, siteContent, chatHistory)] returns
    [JSON.parse(text)] as it is. *)
Definition judgeCourtCase `{Platform}
    (siteTitle siteContent : string) (chatHistory : list ChatMessage)
    (r : AiResult) : JsValue :=
  match r with
  | AiRejected _ => CourtVerdict_value court_fallback
  | AiResponse t =>
      match JSON_parse (cleanResponse t) with
      | Some parsed => parsed
      | None => CourtVerdict_value court_fallback
      end
  end.

(** ** The state of the App component *)

Record AppState : Type := mkAppState {
  siteCache : gmap string CachedSiteData.t;
  tabs : list BrowserTab.t;
  activeTabId : string;
  isSearching : bool;
  searchResults : JsValue;
  isChatOpen : bool;
  isChatTyping : bool;
  isCourtOpen : bool;
  currentVerdict : JsValue;
  isCourtLoading : bool
}.

(** A call of a function of the service layer. *)
Inductive Call : Type :=
  | call_generatePageContent (url title : string) (isCensored : bool)
  | call_chatWithSiteOwner (url : string) (history : list ChatMessage) (newMessage : string)
  | call_searchWeb (query : string)
  | call_judgeCourtCase (siteTitle siteContent : string) (chatHistory : list ChatMessage).

(** What a handler does to the world, in the words of the source:
    [updateCache] and [updateTab] are the two helpers built on
    [setSiteCache(prev => ...)] and [setTabs(prev => ...)]; [after ms e] is
    the callback of [setTimeout(() => e, ms)]; [fault] is the point where a
    handler fails (an uncaught TypeError, or undefined where the types
    declare a string). *)
Inductive Effect : Type :=
  | updateCache (url : string) (data : list CachedSiteData.prop) (now : Z)
  | updateTab (id : string) (updates : list BrowserTab.prop)
  | setTabs (v : list BrowserTab.t)
  | setActiveTabId (v : string)
  | setIsSearching (v : bool)
  | setSearchResults (v : JsValue)
  | setIsChatOpen (v : bool)
  | setIsChatTyping (v : bool)
  | setIsCourtOpen (v : bool)
  | setCurrentVerdict (v : JsValue)
  | setIsCourtLoading (v : bool)
  | invoke (c : Call)
  | alert (message : string)
  | after (ms : Z) (e : Effect)
  | fault.

Record Run : Type := mkRun {
  sync : list Effect;
  deferred : list Effect
}.

Definition nothing : Run := mkRun [] [].
Definition failing : Run := mkRun [fault] [].

Definition then_run (es : list Effect) (r : Run) : Run :=
  mkRun (es ++ sync r) (deferred r).

(** The effects of a run in the order in which they happen when no other
    event comes in between. *)
Definition effects (r : Run) : list Effect := sync r ++ deferred r.

(** [updateCache]'s updater: [now] is what [Date.now()] returns when React
    runs it.  [prev[url] || {...}] builds the default record only when there
    is none, and [new URL(url)] may throw there.  (The literal sets
    [lastVisited] too, which the final spread overwrites.) *)
Definition default_site `{Platform} (url : string) (now : Z) : option CachedSiteData.t :=
  match hostname url with
  | Some h => Some (CachedSiteData.mk url h None NORMAL [] now)
  | None => None
  end.

(** [prev[url] || { url, title: hostname, content: null, status: NORMAL,
    chatHistory: [], lastVisited }]. *)
Definition existing_or_default `{Platform}
    (url : string) (now : Z) (prev : gmap string CachedSiteData.t)
    : option CachedSiteData.t :=
  match prev !! url with
  | Some r => Some r
  | None => default_site url now
  end.

Definition updateCache_updater `{Platform}
    (url : string) (data : list CachedSiteData.prop) (now : Z)
    (prev : gmap string CachedSiteData.t) : option (gmap string CachedSiteData.t) :=
  match existing_or_default url now prev with
  | Some existing =>
      Some (<[url := CachedSiteData.merge existing
                       (data ++ [CachedSiteData.LastVisited now])]> prev)
  | None => None
  end.

(** [updateTab]'s updater: [prev.map(tab => tab.id === id ? {...} : tab)]. *)
Definition updateTab_updater (id : string) (updates : list BrowserTab.prop)
    (prev : list BrowserTab.t) : list BrowserTab.t :=
  map (fun tab => if decide (BrowserTab.id tab = id)
                  then BrowserTab.merge tab updates else tab) prev.

Definition with_siteCache (s : AppState) (v : gmap string CachedSiteData.t) : AppState :=
  mkAppState v (tabs s) (activeTabId s) (isSearching s) (searchResults s)
    (isChatOpen s) (isChatTyping s) (isCourtOpen s) (currentVerdict s) (isCourtLoading s).

Definition with_tabs (s : AppState) (v : list BrowserTab.t) : AppState :=
  mkAppState (siteCache s) v (activeTabId s) (isSearching s) (searchResults s)
    (isChatOpen s) (isChatTyping s) (isCourtOpen s) (currentVerdict s) (isCourtLoading s).

Definition with_activeTabId (s : AppState) (v : string) : AppState :=
  mkAppState (siteCache s) (tabs s) v (isSearching s) (searchResults s)
    (isChatOpen s) (isChatTyping s) (isCourtOpen s) (currentVerdict s) (isCourtLoading s).

Fixpoint perform `{Platform} (e : Effect) (s : AppState) : option AppState :=
  match e with
  | updateCache url data now =>
      match updateCache_updater url data now (siteCache s) with
      | Some c => Some (with_siteCache s c)
      | None => None
      end
  | updateTab id updates => Some (with_tabs s (updateTab_updater id updates (tabs s)))
  | setTabs v => Some (with_tabs s v)
  | setActiveTabId v => Some (with_activeTabId s v)
  | setIsSearching v =>
      Some (mkAppState (siteCache s) (tabs s) (activeTabId s) v (searchResults s)
              (isChatOpen s) (isChatTyping s) (isCourtOpen s) (currentVerdict s)
              (isCourtLoading s))
  | setSearchResults v =>
      Some (mkAppState (siteCache s) (tabs s) (activeTabId s) (isSearching s) v
              (isChatOpen s) (isChatTyping s) (isCourtOpen s) (currentVerdict s)
              (isCourtLoading s))
  | setIsChatOpen v =>
      Some (mkAppState (siteCache s) (tabs s) (activeTabId s) (isSearching s)
              (searchResults s) v (isChatTyping s) (isCourtOpen s) (currentVerdict s)
              (isCourtLoading s))
  | setIsChatTyping v =>
      Some (mkAppState (siteCache s) (tabs s) (activeTabId s) (isSearching s)
              (searchResults s) (isChatOpen s) v (isCourtOpen s) (currentVerdict s)
              (isCourtLoading s))
  | setIsCourtOpen v =>
      Some (mkAppState (siteCache s) (tabs s) (activeTabId s) (isSearching s)
              (searchResults s) (isChatOpen s) (isChatTyping s) v (currentVerdict s)
              (isCourtLoading s))
  | setCurrentVerdict v =>
      Some (mkAppState (siteCache s) (tabs s) (activeTabId s) (isSearching s)
              (searchResults s) (isChatOpen s) (isChatTyping s) (isCourtOpen s) v
              (isCourtLoading s))
  | setIsCourtLoading v =>
      Some (mkAppState (siteCache s) (tabs s) (activeTabId s) (isSearching s)
              (searchResults s) (isChatOpen s) (isChatTyping s) (isCourtOpen s)
              (currentVerdict s) v)
  | invoke _ => Some s
  | alert _ => Some s
  | after _ e' => perform e' s
  | fault => None
  end.

Fixpoint perform_all `{Platform} (es : list Effect) (s : AppState) : option AppState :=
  match es with
  | [] => Some s
  | e :: es' =>
      match perform e s with
      | Some s' => perform_all es' s'
      | None => None
      end
  end.

(** The state once every effect of the run has taken place. *)
Definition settle `{Platform} (r : Run) (s : AppState) : option AppState :=
  perform_all (effects r) s.

(** The calls of the service layer a run makes. *)
Fixpoint calls (es : list Effect) : list Call :=
  match es with
  | [] => []
  | invoke c :: es' => c :: calls es'
  | _ :: es' => calls es'
  end.

(** ** Helpers of App.tsx *)

(** The tab literal of the initial [useState] and of [handleNewTab]; [id] is
    what [generateId()] returned. *)
Definition new_tab (id : string) : BrowserTab.t :=
  BrowserTab.mk id home_url home_title false [home_url] 0 None NORMAL [] None.

(** [tabs.find(t => t.id === id)]. *)
Definition find_tab (id : string) (ts : list BrowserTab.t) : option BrowserTab.t :=
  List.find (fun t => bool_decide (BrowserTab.id t = id)) ts.

Definition getActiveTab (s : AppState) : option BrowserTab.t :=
  find_tab (activeTabId s) (tabs s).

Definition updateActiveTab (s : AppState) (updates : list BrowserTab.prop) : Effect :=
  updateTab (activeTabId s) updates.

(** [l.slice(0, e)] and [l[i]] for integers [e] and [i]. *)
Definition slice0 {A : Type} (l : list A) (e : Z) : list A :=
  take (Z.to_nat (if (e <? 0)%Z then Z.of_nat (length l) + e else e)) l.

Definition js_index {A : Type} (l : list A) (i : Z) : option A :=
  if (i <? 0)%Z then None else l !! Z.to_nat i.

(** [cachedSite ? cachedSite.status : fallback]. *)
Definition status_or (fallback : SiteStatus) (c : option CachedSiteData.t) : SiteStatus :=
  match c with
  | Some r => CachedSiteData.status r
  | None => fallback
  end.

(** A cached [content] that passes [cachedSite && cachedSite.content]: a
    non-empty string. *)
Definition cached_content (c : option CachedSiteData.t) : option (CachedSiteData.t * string) :=
  match c with
  | Some r =>
      match CachedSiteData.content r with
      | Some html => if is_empty html then None else Some (r, html)
      | None => None
      end
  | None => None
  end.

(** ** Handlers of App.tsx

    Each handler takes the state [s] of the render that created it. *)

Import BrowserTab(Url, Title, IsLoading, History, HistoryIndex, Content, Status,
                  ChatHistory, Error).

Definition handleNewTab (s : AppState) (newId : string) : Run :=
  let newTab := new_tab newId in
  mkRun [setTabs (tabs s ++ [newTab]); setActiveTabId (BrowserTab.id newTab)] [].

(** [tabs.filter(t => t.id !== id)]. *)
Definition others (id : string) (ts : list BrowserTab.t) : list BrowserTab.t :=
  List.filter (fun t => negb (bool_decide (BrowserTab.id t = id))) ts.

Definition handleCloseTab (s : AppState) (id : string) : Run :=
  if decide (length (tabs s) = 1%nat) then nothing
  else
    let newTabs := others id (tabs s) in
    mkRun
      (setTabs newTabs ::
       (if decide (activeTabId s = id) then
          match last newTabs with
          | Some t => [setActiveTabId (BrowserTab.id t)]
          | None => [fault]
          end
        else []))
      [].

(** [newTabId || activeTabId]: the empty string counts as absent. *)
Definition target_of (s : AppState) (newTabId : option string) : string :=
  match newTabId with
  | Some i => if is_empty i then activeTabId s else i
  | None => activeTabId s
  end.

Definition handleNavigate `{Platform}
    (s : AppState) (url : string) (newTabId : option string)
    (ai : AiResult) (now : Z) : Run :=
  let targetTabId := target_of s newTabId in
  match find_tab targetTabId (tabs s) with
  | None => nothing
  | Some targetTab =>
      let pushed :=
        slice0 (BrowserTab.history targetTab) (BrowserTab.historyIndex targetTab + 1) in
      if decide (url = home_url) then
        mkRun
          [updateTab targetTabId
             [Url home_url; Title home_title; Content None; Error None;
              History (pushed ++ [home_url]);
              HistoryIndex (BrowserTab.historyIndex targetTab + 1)]]
          []
      else
        let cachedSite := siteCache s !! url in
        let currentStatus := status_or NORMAL cachedSite in
        let first :=
          [updateTab targetTabId
             [Url url;
              Title (match cachedSite with Some c => CachedSiteData.title c | None => url end);
              IsLoading true; Error None; Status currentStatus;
              ChatHistory (match cachedSite with
                           | Some c => CachedSiteData.chatHistory c
                           | None => []
                           end);
              History (pushed ++ [url]);
              HistoryIndex (BrowserTab.historyIndex targetTab + 1)];
           setIsChatOpen false] in
        let isSlowed := bool_decide (currentStatus = SLOWED) in
        if decide (currentStatus = BLOCKED) then
          mkRun first
            [after 800 (updateTab targetTabId
                          [IsLoading false; Error (Some "ERR_CONNECTION_RESET")])]
        else
          match cached_content cachedSite with
          | Some (c, html) =>
              mkRun first
                [after (if isSlowed then 5000 else 300)
                   (updateTab targetTabId
                      [IsLoading false; Content (Some html);
                       Title (CachedSiteData.title c)])]
          | None =>
              let delay := if isSlowed then 15000 else 1000 in
              match hostname url with
              | None =>
                  mkRun first
                    [after 1000 (updateTab targetTabId
                                   [IsLoading false;
                                    Error (Some "ERR_CONNECTION_TIMED_OUT")])]
              | Some title =>
                  let isCensored := bool_decide (currentStatus = CONTENT_REMOVED) in
                  let html := generatePageContent url title isCensored ai in
                  mkRun
                    (first ++ [invoke (call_generatePageContent url title isCensored)])
                    [updateCache url
                       [CachedSiteData.Content (Some html); CachedSiteData.Title title;
                        CachedSiteData.Status NORMAL] now;
                     after delay (updateTab targetTabId
                                    [IsLoading false; Content (Some html); Title title])]
              end
          end
  end.

Definition reloadContentForUrl `{Platform}
    (s : AppState) (url tabId : string) (ai : AiResult) (now : Z) : Run :=
  match find_tab tabId (tabs s) with
  | None => nothing
  | Some tab =>
      let cachedSite := siteCache s !! url in
      let currentStatus := status_or (BrowserTab.status tab) cachedSite in
      let first := updateTab tabId [IsLoading true; Error None; Status currentStatus] in
      if decide (currentStatus = BLOCKED) then
        mkRun [first]
          [after 500 (updateTab tabId [IsLoading false; Error (Some "ERR_CONNECTION_RESET")])]
      else
        match cached_content cachedSite with
        | Some (c, html) =>
            mkRun [first]
              [after (if bool_decide (currentStatus = SLOWED) then 5000 else 200)
                 (updateTab tabId
                    [IsLoading false; Content (Some html); Title (CachedSiteData.title c)])]
        | None =>
            match hostname url with
            | None =>
                mkRun [first; updateTab tabId [IsLoading false; Error (Some "ERR_LOAD")]] []
            | Some h =>
                let isCensored := bool_decide (currentStatus = CONTENT_REMOVED) in
                let html := generatePageContent url h isCensored ai in
                mkRun
                  [first; invoke (call_generatePageContent url h isCensored)]
                  [updateCache url [CachedSiteData.Content (Some html)] now;
                   after (if bool_decide (currentStatus = SLOWED) then 15000 else 1000)
                     (updateTab tabId [IsLoading false; Content (Some html); Title h])]
            end
        end
  end.

Definition reloadTab `{Platform} (s : AppState) (ai : AiResult) (now : Z) : Run :=
  match getActiveTab s with
  | None => failing
  | Some tab =>
      if decide (BrowserTab.url tab = home_url) then nothing
      else
        let cachedSite := siteCache s !! BrowserTab.url tab in
        let currentStatus := status_or (BrowserTab.status tab) cachedSite in
        let first := updateActiveTab s [IsLoading true; Error None; Status currentStatus] in
        let isSlowed := bool_decide (currentStatus = SLOWED) in
        if decide (currentStatus = BLOCKED) then
          mkRun [first]
            [after 800 (updateActiveTab s
                          [IsLoading false; Error (Some "ERR_CONNECTION_RESET")])]
        else
          match cached_content cachedSite with
          | Some (c, html) =>
              mkRun [first]
                [after (if isSlowed then 5000 else 500)
                   (updateActiveTab s [IsLoading false; Content (Some html)])]
          | None =>
              match hostname (BrowserTab.url tab) with
              | None =>
                  mkRun [first; updateActiveTab s [IsLoading false; Error (Some "ERR_FAILED")]]
                    []
              | Some h =>
                  let isCensored := bool_decide (currentStatus = CONTENT_REMOVED) in
                  let html := generatePageContent (BrowserTab.url tab) h isCensored ai in
                  mkRun
                    [first; invoke (call_generatePageContent (BrowserTab.url tab) h isCensored)]
                    [updateCache (BrowserTab.url tab) [CachedSiteData.Content (Some html)] now;
                     after (if isSlowed then 15000 else 1000)
                       (updateActiveTab s [IsLoading false; Content (Some html)])]
              end
          end
  end.

(** The part shared by [handleBack] and [handleForward] once the new index is
    known: [tab.history[newIndex]] is undefined outside the array. *)
Definition move_to `{Platform}
    (s : AppState) (tab : BrowserTab.t) (newIndex : Z) (ai : AiResult) (now : Z) : Run :=
  match js_index (BrowserTab.history tab) newIndex with
  | None => failing
  | Some target =>
      let first := updateActiveTab s [HistoryIndex newIndex; Url target] in
      if decide (target = home_url) then
        mkRun [first; updateActiveTab s [Content None; Error None; Title home_title]] []
      else
        then_run [first] (reloadContentForUrl s target (BrowserTab.id tab) ai now)
  end.

Definition handleBack `{Platform} (s : AppState) (ai : AiResult) (now : Z) : Run :=
  match getActiveTab s with
  | None => failing
  | Some tab =>
      if (0 <? BrowserTab.historyIndex tab)%Z
      then move_to s tab (BrowserTab.historyIndex tab - 1) ai now
      else nothing
  end.

Definition handleForward `{Platform} (s : AppState) (ai : AiResult) (now : Z) : Run :=
  match getActiveTab s with
  | None => failing
  | Some tab =>
      if (BrowserTab.historyIndex tab <? Z.of_nat (length (BrowserTab.history tab)) - 1)%Z
      then move_to s tab (BrowserTab.historyIndex tab + 1) ai now
      else nothing
  end.

(** The three actions of the panel and the court's decision share one shape:
    write the status to the cache and to the active tab, then
    [reloadContentForUrl(active.url, active.id)], all in the handler's own
    render. *)
Definition set_status_and_reload `{Platform}
    (s : AppState) (active : BrowserTab.t) (newStatus : SiteStatus)
    (between : list Effect) (last : list Effect)
    (ai : AiResult) (now now' : Z) : Run :=
  let r := reloadContentForUrl s (BrowserTab.url active) (BrowserTab.id active) ai now' in
  mkRun
    ([updateCache (BrowserTab.url active) [CachedSiteData.Status newStatus] now;
      updateActiveTab s [Status newStatus]] ++ between ++ sync r ++ last)
    (deferred r).

Definition appeal_message : string :=
  "Владелец сайта подал экстренную апелляцию в Верховный Цифровой Суд!".

(** [willAppeal] is the outcome of [Math.random() < 0.4]. *)
Definition handleBlock `{Platform}
    (s : AppState) (willAppeal : bool) (ai : AiResult) (now now' : Z) : Run :=
  match getActiveTab s with
  | None => failing
  | Some active =>
      if decide (BrowserTab.url active = home_url) then nothing
      else
        let newStatus := if willAppeal then UNDER_APPEAL else BLOCKED in
        set_status_and_reload s active newStatus []
          (if willAppeal then [alert appeal_message] else []) ai now now'
  end.

Definition handleSlow `{Platform} (s : AppState) (ai : AiResult) (now now' : Z) : Run :=
  match getActiveTab s with
  | None => failing
  | Some active =>
      if decide (BrowserTab.url active = home_url) then nothing
      else set_status_and_reload s active SLOWED [] [] ai now now'
  end.

Definition handleUnrestrict `{Platform} (s : AppState) (ai : AiResult) (now now' : Z) : Run :=
  match getActiveTab s with
  | None => failing
  | Some active =>
      if decide (BrowserTab.url active = home_url) then nothing
      else set_status_and_reload s active NORMAL [] [] ai now now'
  end.

Definition handleCourtClose `{Platform}
    (s : AppState) (finalVerdict : Verdict) (ai : AiResult) (now now' : Z) : Run :=
  match getActiveTab s with
  | None => failing
  | Some active =>
      let newStatus :=
        match finalVerdict with UPHOLD => BLOCKED | OVERTURN => NORMAL end in
      set_status_and_reload s active newStatus [setIsCourtOpen false] [] ai now now'
  end.

(** The clock readings of one chat exchange: the two message timestamps and
    the three cache writes. *)
Record ChatClock : Type := mkChatClock {
  sent_at : Z;
  sent_saved_at : Z;
  replied_at : Z;
  reply_saved_at : Z;
  reload_saved_at : Z
}.

Definition chat_newHistory (tab : BrowserTab.t) (msg : string) (k : ChatClock)
    : list ChatMessage :=
  BrowserTab.chatHistory tab ++ [mkChatMessage user (js_string msg) (sent_at k)].

Definition chat_finalHistory (tab : BrowserTab.t) (msg : string) (k : ChatClock)
    (replied : JsValue) : list ChatMessage :=
  chat_newHistory tab msg k ++ [mkChatMessage model replied (replied_at k)].

(** [const { reply, agreedToRemove } = res]: the values of the two
    properties; a TypeError when [res] is null or undefined. *)
Definition destructure_reply (res : JsValue) : option (JsValue * JsValue) :=
  match res with
  | js_undefined | js_null => None
  | _ => Some (get "reply" res, get "agreedToRemove" res)
  end.

(** [handleChatSendMessage] up to and including the updates that process the
    reply, that is, before the final [reloadContentForUrl].  When the
    destructuring throws, the handler stops there: the typing indicator
    stays on. *)
Definition chat_exchange `{Platform}
    (s : AppState) (tab : BrowserTab.t) (msg : string) (chat : AiResult)
    (k : ChatClock) : Run :=
  let newHistory := chat_newHistory tab msg k in
  let sent :=
    [updateActiveTab s [ChatHistory newHistory];
     updateCache (BrowserTab.url tab) [CachedSiteData.ChatHistory newHistory]
       (sent_saved_at k);
     setIsChatTyping true;
     invoke (call_chatWithSiteOwner (BrowserTab.url tab) newHistory msg)] in
  match destructure_reply (chatWithSiteOwner (BrowserTab.url tab) newHistory msg chat) with
  | None => mkRun sent [fault]
  | Some (replied, agreed) =>
      let finalHistory := chat_finalHistory tab msg k replied in
      let statusUpdates :=
        CachedSiteData.ChatHistory finalHistory ::
        (if is_truthy agreed
         then [CachedSiteData.Status CONTENT_REMOVED; CachedSiteData.Content None]
         else []) in
      mkRun sent
        [setIsChatTyping false;
         updateCache (BrowserTab.url tab) statusUpdates (reply_saved_at k);
         updateActiveTab s
           (ChatHistory finalHistory ::
            (if is_truthy agreed then [Status CONTENT_REMOVED] else []))]
  end.

Definition handleChatSendMessage `{Platform}
    (s : AppState) (msg : string) (chat gen : AiResult) (k : ChatClock) : Run :=
  match getActiveTab s with
  | None => failing
  | Some tab =>
      if decide (BrowserTab.url tab = home_url) then nothing
      else
        let x := chat_exchange s tab msg chat k in
        let res :=
          chatWithSiteOwner (BrowserTab.url tab) (chat_newHistory tab msg k) msg chat in
        let r :=
          match destructure_reply res with
          | Some (_, agreed) =>
              if is_truthy agreed
              then reloadContentForUrl s (BrowserTab.url tab) (BrowserTab.id tab) gen
                     (reload_saved_at k)
              else nothing
          | None => nothing
          end in
        mkRun (sync x) (deferred x ++ effects r)
  end.

(** [handleSearch]: on a tab that is not the home page it first awaits
    [handleNavigate('about:home')], whose home branch makes no call and reads
    no clock, so that the rest runs after the handler has suspended. *)
Definition handleSearch `{Platform} (s : AppState) (query : string) (r : AiResult) : Run :=
  match getActiveTab s with
  | None => mkRun [setIsSearching true; fault] []
  | Some active =>
      let data := searchWeb query r in
      let finish := [setSearchResults data; setIsSearching false] in
      if decide (BrowserTab.url active = home_url) then
        mkRun [setIsSearching true; setSearchResults (js_array []);
               invoke (call_searchWeb query)]
          finish
      else
        let home := handleNavigate s home_url None (AiRejected None) 0 in
        mkRun (setIsSearching true :: sync home)
          (deferred home
           ++ [setSearchResults (js_array []); invoke (call_searchWeb query)] ++ finish)
  end.

Definition handleOpenCourt `{Platform} (s : AppState) (r : AiResult) : Run :=
  match getActiveTab s with
  | None => failing
  | Some active =>
      if decide (BrowserTab.status active = UNDER_APPEAL) then
        let siteContent :=
          match BrowserTab.content active with
          | Some c => if is_empty c then "Empty content" else c
          | None => "Empty content"
          end in
        let v :=
          judgeCourtCase (BrowserTab.title active) siteContent
            (BrowserTab.chatHistory active) r in
        mkRun
          [setIsCourtOpen true; setIsCourtLoading true; setCurrentVerdict js_null;
           invoke (call_judgeCourtCase (BrowserTab.title active) siteContent
                     (BrowserTab.chatHistory active))]
          [setCurrentVerdict v; setIsCourtLoading false]
      else nothing
  end.

(** ** Events *)

Inductive Event : Type :=
  | NewTab (newId : string)
  | CloseTab (id : string)
  | SwitchTab (id : string)
  | Navigate (url : string) (newTabId : option string) (ai : AiResult) (now : Z)
  | Reload (ai : AiResult) (now : Z)
  | Back (ai : AiResult) (now : Z)
  | Forward (ai : AiResult) (now : Z)
  | Search (query : string) (r : AiResult)
  | OpenCourt (r : AiResult)
  | Block (willAppeal : bool) (ai : AiResult) (now now' : Z)
  | Slow (ai : AiResult) (now now' : Z)
  | Unrestrict (ai : AiResult) (now now' : Z)
  | CourtClose (finalVerdict : Verdict) (ai : AiResult) (now now' : Z)
  | ChatSendMessage (msg : string) (chat gen : AiResult) (k : ChatClock).

Definition handle `{Platform} (ev : Event) (s : AppState) : Run :=
  match ev with
  | NewTab newId => handleNewTab s newId
  | CloseTab id => handleCloseTab s id
  | SwitchTab id => mkRun [setActiveTabId id] []
  | Navigate url newTabId ai now => handleNavigate s url newTabId ai now
  | Reload ai now => reloadTab s ai now
  | Back ai now => handleBack s ai now
  | Forward ai now => handleForward s ai now
  | Search query r => handleSearch s query r
  | OpenCourt r => handleOpenCourt s r
  | Block willAppeal ai now now' => handleBlock s willAppeal ai now now'
  | Slow ai now now' => handleSlow s ai now now'
  | Unrestrict ai now now' => handleUnrestrict s ai now now'
  | CourtClose v ai now now' => handleCourtClose s v ai now now'
  | ChatSendMessage msg chat gen k => handleChatSendMessage s msg chat gen k
  end.

(** One event handled to completion: the handler of the current render runs,
    and all its effects take place before the next event. *)
Definition step `{Platform} (ev : Event) (s : AppState) : option AppState :=
  settle (handle ev s) s.

Fixpoint steps `{Platform} (evs : list Event) (s : AppState) : option AppState :=
  match evs with
  | [] => Some s
  | ev :: evs' =>
      match step ev s with
      | Some s' => steps evs' s'
      | None => None
      end
  end.

(** Events and effects interleaved.  Between two events, any of the deferred
    effects issued so far may take place or stay pending; the handler of an
    event reads the state as it is at that moment.  ([pending] forgets the
    order in which the effects of one handler were issued: every order is
    allowed, which covers the real ones.) *)
Record World : Type := mkWorld {
  state : AppState;
  pending : list Effect
}.

Inductive world_step `{Platform} (offered : Event -> Prop) : World -> World -> Prop :=
  | event_handled ev s p s1 :
      offered ev ->
      perform_all (sync (handle ev s)) s = Some s1 ->
      world_step offered (mkWorld s p) (mkWorld s1 (p ++ deferred (handle ev s)))
  | effect_lands s p1 e p2 s1 :
      perform e s = Some s1 ->
      world_step offered (mkWorld s (p1 ++ e :: p2)) (mkWorld s1 (p1 ++ p2)).

(** The state of the first render: one home tab, and the cache read from
    local storage. *)
Definition initial (id : string) (cache : gmap string CachedSiteData.t) : AppState :=
  mkAppState cache [new_tab id] id false (js_array []) false false false js_null false.

(** [updateCache] has a block body without [return]: whatever the cache,
    a call evaluates to undefined, and the caller gets no record. *)
Definition updateCache_result `{Platform}
    (url : string) (data : list CachedSiteData.prop) (now : Z)
    (prev : gmap string CachedSiteData.t) : option CachedSiteData.t :=
  None.

(** ** Invariants *)

Definition history_ok (t : BrowserTab.t) : Prop :=
  0 <= BrowserTab.historyIndex t < Z.of_nat (length (BrowserTab.history t)).

Definition tab_ids (s : AppState) : list string := map BrowserTab.id (tabs s).

(** The identifiers of the open tabs are distinct and [activeTabId] is one of
    them. *)
Definition tabs_ok (s : AppState) : Prop :=
  NoDup (tab_ids s) /\ activeTabId s ∈ tab_ids s.

Definition well_formed (s : AppState) : Prop :=
  tabs_ok s /\ Forall history_ok (tabs s).

(** What the invariants look at: the active identifier and, for each tab, its
    identifier, history and history index. *)
Definition sk (t : BrowserTab.t) : string * list string * Z :=
  (BrowserTab.id t, BrowserTab.history t, BrowserTab.historyIndex t).

Definition skeleton (s : AppState) : string * list (string * list string * Z) :=
  (activeTabId s, map sk (tabs s)).

Definition keeps_history (p : BrowserTab.prop) : bool :=
  match p with
  | History _ | HistoryIndex _ => false
  | _ => true
  end.

(** Effects that cannot fail and leave the skeleton alone: tab updates that
    assign neither [history] nor [historyIndex], cache updates for a URL that
    parses, and the setters of the other state variables. *)
Fixpoint neutral `{Platform} (e : Effect) : bool :=
  match e with
  | updateCache url _ _ => match hostname url with Some _ => true | None => false end
  | updateTab _ updates => forallb keeps_history updates
  | setTabs _ | setActiveTabId _ | fault => false
  | after _ e' => neutral e'
  | _ => true
  end.

(** Effects that, if they succeed, leave the skeleton alone. *)
Fixpoint harmless (e : Effect) : bool :=
  match e with
  | updateTab _ updates => forallb keeps_history updates
  | setTabs _ | setActiveTabId _ => false
  | after _ e' => harmless e'
  | _ => true
  end.

(** The events the invariants are stated for: the identifier drawn for a new
    tab is that of no open tab, and only an open tab is switched to. *)
Definition allowed (ev : Event) (s : AppState) : Prop :=
  match ev with
  | NewTab newId => newId ∉ tab_ids s
  | SwitchTab id => id ∈ tab_ids s
  | _ => True
  end.

Fixpoint all_allowed `{Platform} (evs : list Event) (s : AppState) : Prop :=
  match evs with
  | [] => True
  | ev :: evs' => allowed ev s /\ forall s', step ev s = Some s' -> all_allowed evs' s'
  end.

(** A world whose state is well formed and whose pending effects are all
    neutral. *)
Definition calm `{Platform} (w : World) : Prop :=
  well_formed (state w) /\ forallb neutral (pending w) = true.

Definition is_navigation (ev : Event) : Prop :=
  match ev with
  | Navigate _ _ _ _ | Back _ _ | Forward _ _ => True
  | _ => False
  end.

Definition is_tab_event (ev : Event) : Prop :=
  match ev with
  | NewTab _ | CloseTab _ => True
  | _ => False
  end.

(** The identifiers [generateId] returned during a sequence of events. *)
Fixpoint new_ids (evs : list Event) : list string :=
  match evs with
  | [] => []
  | NewTab newId :: evs' => newId :: new_ids evs'
  | _ :: evs' => new_ids evs'
  end.

(** ** Examples: a platform and some states

    A platform that answers as a browser does on the inputs used in the
    examples below. *)

Definition url_a : string := "https://a.com/".
Definition url_b : string := "https://b.org/".

Definition six_results : list SearchResult.t :=
  [ SearchResult.mk "1" "https://s1.example/" "one";
    SearchResult.mk "2" "https://s2.example/" "two";
    SearchResult.mk "3" "https://s3.example/" "three";
    SearchResult.mk "4" "https://s4.example/" "four";
    SearchResult.mk "5" "https://s5.example/" "five";
    SearchResult.mk "6" "https://s6.example/" "six" ].

(** The JSON text of [six_results]. *)
Definition json_string (s : string) : string := dq ++ s ++ dq.

Definition json_result (r : SearchResult.t) : string :=
  "{" ++ json_string "title" ++ ":" ++ json_string (SearchResult.title r) ++ ","
      ++ json_string "url" ++ ":" ++ json_string (SearchResult.url r) ++ ","
      ++ json_string "snippet" ++ ":" ++ json_string (SearchResult.snippet r) ++ "}".

Definition six_results_json : string :=
  "[" ++ String.concat "," (map json_result six_results) ++ "]".

Definition agree_json : string :=
  "{" ++ json_string "reply" ++ ":" ++ json_string "OK" ++ ","
      ++ json_string "agreedToRemove" ++ ":true}".

Definition example_platform : Platform := {|
  hostname u :=
    if decide (u = url_a) then Some "a.com"
    else if decide (u = url_b) then Some "b.org"
    else None;
  trim s := s;
  JSON_parse s :=
    if decide (s = six_results_json) then Some (SearchResults_value six_results)
    else if decide (s = agree_json) then Some (ChatReply_value (mkChatReply "OK" true))
    else if decide (s = "null") then Some js_null
    else None
|}.

(** A reply wrapped in a Markdown code fence. *)
Definition lf : string := String "010" EmptyString.
Definition fenced_reply : string := "```json" ++ lf ++ "[1]" ++ lf ++ "```".

Definition page_a : string := "<p>A</p>".

Definition site_a (st : SiteStatus) (content : option string) : CachedSiteData.t :=
  CachedSiteData.mk url_a "a.com" content st [] 5.

(** A tab that shows [url_a] with the cached page. *)
Definition tab_on_a (st : SiteStatus) : BrowserTab.t :=
  BrowserTab.mk "t0" url_a "a.com" false [home_url; url_a] 1 (Some page_a) st [] None.

(** One home tab, and one record for [url_a]. *)
Definition home_with_site (r : CachedSiteData.t) : AppState :=
  initial "t0" {[ url_a := r ]}.

(** One tab that shows [url_a], whose record has status [st] and the cached
    page. *)
Definition viewing_a (st : SiteStatus) : AppState :=
  mkAppState {[ url_a := site_a st (Some page_a) ]} [tab_on_a st] "t0"
    false (js_array []) false false false js_null false.

Definition clock0 : ChatClock := mkChatClock 10 11 12 13 14.
Definition clock1 : ChatClock := mkChatClock 20 21 22 23 24.

(** Visit [url_a], exchange one message there, visit [url_b], go back. *)
Definition visit_chat_leave_return : list Event :=
  [ Navigate url_a None (AiResponse (Some "A")) 1;
    ChatSendMessage "first" (AiRejected None) (AiRejected None) clock0;
    Navigate url_b None (AiResponse (Some "B")) 2;
    Back (AiRejected None) 3 ].

(** What that sequence leaves: the record of [url_a] holds the first
    exchange, and the tab shows [url_a] with the empty transcript that it
    took from the record of [url_b]. *)
Definition first_exchange : list ChatMessage :=
  [ mkChatMessage user (js_string "first") 10;
    mkChatMessage model (js_string (reply chat_fallback)) 12 ].

Definition second_exchange : list ChatMessage :=
  [ mkChatMessage user (js_string "second") 20;
    mkChatMessage model (js_string (reply chat_fallback)) 22 ].

Definition site_a_after_chat : CachedSiteData.t :=
  CachedSiteData.mk url_a "a.com" (Some (page_of "A")) NORMAL first_exchange 13.

Definition tab_back_on_a : BrowserTab.t :=
  BrowserTab.mk "t0" url_a "a.com" false [home_url; url_a; url_b] 1
    (Some (page_of "A")) NORMAL [] None.

Definition back_on_a : AppState :=
  mkAppState
    {[ url_a := site_a_after_chat;
       url_b := CachedSiteData.mk url_b "b.org" (Some (page_of "B")) NORMAL [] 2 ]}
    [tab_back_on_a] "t0" false (js_array []) false false false js_null false.

Definition browse_back_and_forth : list Event :=
  [ Navigate url_a None (AiResponse (Some "A")) 1;
    Navigate url_b None (AiResponse None) 2;
    Back (AiRejected None) 3;
    Back (AiRejected None) 4;
    Back (AiRejected None) 5;
    Forward (AiRejected None) 6;
    Navigate "not a url" None (AiRejected None) 7;
    Forward (AiRejected None) 8 ].

(** Visit [url_a] and have the owner agree to remove the content. *)
Definition visit_and_agree : list Event :=
  [ Navigate url_a None (AiResponse (Some "A")) 1;
    ChatSendMessage "remove it" (AiResponse (Some agree_json)) (AiRejected None) clock0 ].

(** Visit [url_a], block it with an appeal, and visit it again. *)
Definition visit_and_appeal : list Event :=
  [ Navigate url_a None (AiResponse (Some "A")) 1;
    Block true (AiRejected None) 2 3;
    Navigate url_a None (AiRejected None) 4 ].

(** What the examples observe: the status of a record and whether it has
    content, and the status, error and content of the active tab. *)
Definition record_view (url : string) (s : AppState) : option (SiteStatus * option string) :=
  (fun r => (CachedSiteData.status r, CachedSiteData.content r)) <$> siteCache s !! url.

Definition tab_view (s : AppState) : option (SiteStatus * option string * option string) :=
  (fun t => (BrowserTab.status t, BrowserTab.error t, BrowserTab.content t))
    <$> getActiveTab s.

Definition open_and_close : list Event :=
  [ NewTab "t1"; CloseTab "t0"; CloseTab "t1"; NewTab "t2"; CloseTab "t2"; CloseTab "zz" ].

(** ** components/Browser.tsx

    The address bar, the links of a rendered page and the viewport.  The
    component reads the active tab from its props and calls back into the
    handlers of [App]. *)

(** [s.includes(x)]; [x.startsWith(p)] is [String.prefix p x]. *)
Fixpoint includes (x s : string) : bool :=
  String.prefix x s ||
  match s with
  | String _ r => includes x r
  | EmptyString => false
  end.

(** What a key press in the address bar asks of [App]. *)
Inductive AddressBarAction : Type :=
  | no_action
  | onSearch (query : string)
  | onNavigate (url : string).

Definition handleKeyDown `{Platform} (key addressBarInput : string) : AddressBarAction :=
  if decide (key = "Enter") then
    let url := trim addressBarInput in
    if is_empty url then no_action
    else if negb (includes "." url) || includes " " url then onSearch url
    else onNavigate (if String.prefix "http" url then url else "https://" ++ url)
  else no_action.

(** [href.replace(/^\//, '')]. *)
Definition strip_leading_slash (href : string) : string :=
  match href with
  | String "/" r => r
  | _ => href
  end.

(** [resolveUrl(href)] on a tab that shows [currentUrl].  [URL_href href base]
    is [new URL(href, base).href], [None] when the constructor throws. *)
Definition resolveUrl (URL_href : string -> string -> option string)
    (currentUrl href : string) : option string :=
  if is_empty href || bool_decide (href = "#")
     || bool_decide (href = "javascript:void(0)") || String.prefix "javascript:" href
  then None
  else if String.prefix "http" href then Some href
  else
    let base := if String.prefix "http" currentUrl then currentUrl
                else "https://example.com" in
    match URL_href href base with
    | Some resolved => Some resolved
    | None => Some ("https://example.com/" ++ strip_leading_slash href)
    end.

(** [tabs.find(t => t.id === activeTabId) || tabs[0]]: the tab the component
    renders; without one it renders the text "No Tabs Open". *)
Definition activeTab (s : AppState) : option BrowserTab.t :=
  match find_tab (activeTabId s) (tabs s) with
  | Some t => Some t
  | None => head (tabs s)
  end.

(** What the viewport renders for the active tab: the home page, the error
    page (with the legal notice when the tab's status is BLOCKED), the
    loading state (with the throttling notice when the status is SLOWED), the
    page, or none of them. *)
Inductive Viewport : Type :=
  | HomePage
  | ErrorPage (code : string) (legalNotice : bool)
  | LoadingPage (throttlingNotice : bool)
  | RenderedContent (html : string)
  | EmptyViewport.

(** A string that passes a truth test: defined and not empty. *)
Definition truthy (v : option string) : option string :=
  match v with
  | Some x => if is_empty x then None else Some x
  | None => None
  end.

Definition viewport (activeTab : BrowserTab.t) : Viewport :=
  if decide (BrowserTab.url activeTab = home_url) then HomePage
  else
    match truthy (BrowserTab.error activeTab), truthy (BrowserTab.content activeTab),
          BrowserTab.isLoading activeTab with
    | Some code, _, _ =>
        ErrorPage code (bool_decide (BrowserTab.status activeTab = BLOCKED))
    | None, None, true =>
        LoadingPage (bool_decide (BrowserTab.status activeTab = SLOWED))
    | None, Some html, false => RenderedContent html
    | None, _, _ => EmptyViewport
    end.

(** ** What a run writes *)

(** The tab an effect leaves in place of [t], for effects that go through
    [updateTab]. *)
Fixpoint tab_effect (e : Effect) (t : BrowserTab.t) : BrowserTab.t :=
  match e with
  | updateTab id updates =>
      if decide (BrowserTab.id t = id) then BrowserTab.merge t updates else t
  | after _ e' => tab_effect e' t
  | _ => t
  end.

Definition tab_effects (es : list Effect) (t : BrowserTab.t) : BrowserTab.t :=
  fold_left (fun t e => tab_effect e t) es t.

(** Effects that change tabs only through [updateTab], and only the tab
    [id]. *)
Fixpoint updates_only (id : string) (e : Effect) : bool :=
  match e with
  | updateTab j _ => bool_decide (j = id)
  | setTabs _ => false
  | after _ e' => updates_only id e'
  | _ => true
  end.

(** The value of [isLoading] an object literal leaves, and the one an effect
    leaves on the tab [id]. *)
Definition loading_given (updates : list BrowserTab.prop) (b : bool) : bool :=
  fold_left (fun acc p => match p with IsLoading v => v | _ => acc end) updates b.

Fixpoint loading_after (id : string) (b : bool) (e : Effect) : bool :=
  match e with
  | updateTab j updates => if decide (id = j) then loading_given updates b else b
  | after _ e' => loading_after id b e'
  | _ => b
  end.

(** Effects whose cache updates assign only properties that pass [ok], which
    is given the URL of the record. *)
Fixpoint cache_writes (ok : string -> CachedSiteData.prop -> bool) (e : Effect) : bool :=
  match e with
  | updateCache url data now => forallb (ok url) (data ++ [CachedSiteData.LastVisited now])
  | after _ e' => cache_writes ok e'
  | _ => true
  end.

Definition keeps_url (url : string) (p : CachedSiteData.prop) : bool :=
  match p with
  | CachedSiteData.Url _ => false
  | _ => true
  end.

Definition keeps_transcript (url : string) (p : CachedSiteData.prop) : bool :=
  match p with
  | CachedSiteData.ChatHistory _ => false
  | _ => true
  end.

Definition keeps_status (url : string) (p : CachedSiteData.prop) : bool :=
  match p with
  | CachedSiteData.Status _ => false
  | _ => true
  end.

(** Content is assigned only to records that have no usable content in the
    cache [c]. *)
Definition keeps_cached_content (c : gmap string CachedSiteData.t)
    (url : string) (p : CachedSiteData.prop) : bool :=
  match p with
  | CachedSiteData.Content _ =>
      match cached_content (c !! url) with
      | Some _ => false
      | None => true
      end
  | _ => true
  end.

(** Every record is stored under its own URL. *)
Definition keyed (c : gmap string CachedSiteData.t) : Prop :=
  forall url r, c !! url = Some r -> CachedSiteData.url r = url.

(** The tab an event touches, if it goes through [updateTab]. *)
Definition touched (ev : Event) (s : AppState) : string :=
  match ev with
  | Navigate _ newTabId _ _ => target_of s newTabId
  | _ => activeTabId s
  end.

Definition is_chat (ev : Event) : Prop :=
  match ev with
  | ChatSendMessage _ _ _ _ => True
  | _ => False
  end.

(** The events that only look at pages: they neither go through the panel,
    the court or the chat, nor open a URL. *)
Definition is_viewing (ev : Event) : Prop :=
  match ev with
  | NewTab _ | CloseTab _ | SwitchTab _ | Reload _ _ | Back _ _ | Forward _ _
  | Search _ _ | OpenCourt _ => True
  | _ => False
  end.

Definition not_loading (t : BrowserTab.t) : Prop := BrowserTab.isLoading t = false.

(** * Properties *)

Section Properties.
Context `{Platform}.

(** ** Object spread *)

Ltac by_last_property data :=
  induction data as [|p data IH] using rev_ind;
  [ reflexivity
  | unfold CachedSiteData.merge, CachedSiteData.given_url, CachedSiteData.given_title,
      CachedSiteData.given_content, CachedSiteData.given_status,
      CachedSiteData.given_chatHistory in *;
    rewrite !fold_left_app; simpl; destruct p; simpl; auto ].

Lemma site_merge_url r data :
  CachedSiteData.url (CachedSiteData.merge r data)
  = default (CachedSiteData.url r) (CachedSiteData.given_url data).
Proof. by_last_property data. Qed.

Lemma site_merge_title r data :
  CachedSiteData.title (CachedSiteData.merge r data)
  = default (CachedSiteData.title r) (CachedSiteData.given_title data).
Proof. by_last_property data. Qed.

Lemma site_merge_content r data :
  CachedSiteData.content (CachedSiteData.merge r data)
  = default (CachedSiteData.content r) (CachedSiteData.given_content data).
Proof. by_last_property data. Qed.

Lemma site_merge_status r data :
  CachedSiteData.status (CachedSiteData.merge r data)
  = default (CachedSiteData.status r) (CachedSiteData.given_status data).
Proof. by_last_property data. Qed.

Lemma site_merge_chatHistory r data :
  CachedSiteData.chatHistory (CachedSiteData.merge r data)
  = default (CachedSiteData.chatHistory r) (CachedSiteData.given_chatHistory data).
Proof. by_last_property data. Qed.

Lemma site_merge_snoc r data p :
  CachedSiteData.merge r (data ++ [p])
  = CachedSiteData.assign (CachedSiteData.merge r data) p.
Proof. unfold CachedSiteData.merge. by rewrite fold_left_app. Qed.

Lemma updateCache_updater_eq url data now prev :
  updateCache_updater url data now prev
  = (fun e => <[url := CachedSiteData.assign (CachedSiteData.merge e data)
                         (CachedSiteData.LastVisited now)]> prev)
    <$> existing_or_default url now prev.
Proof.
  unfold updateCache_updater.
  destruct (existing_or_default url now prev); simpl; [by rewrite site_merge_snoc | done].
Qed.

(** C8 (as amended).  An upsert starts from the record stored under the URL,
    or, when there is none and the URL parses, from the default record
    (status NORMAL, empty transcript, no content).  It stores under the URL
    that record with each field named by the partial data overwritten, every
    other field kept, and [lastVisited] set to the current time; the records
    of the other URLs are untouched.  The call itself returns nothing. *)
Theorem updateCache_field_merge
    (url : string) (data : list CachedSiteData.prop) (now : Z)
    (prev : gmap string CachedSiteData.t) (base : CachedSiteData.t) :
  existing_or_default url now prev = Some base ->
  (prev !! url = None ->
     CachedSiteData.status base = NORMAL /\ CachedSiteData.chatHistory base = []
     /\ CachedSiteData.content base = None /\ CachedSiteData.url base = url) /\
  (forall r, prev !! url = Some r -> base = r) /\
  exists next merged,
    updateCache_updater url data now prev = Some next /\
    next !! url = Some merged /\
    CachedSiteData.url merged
      = default (CachedSiteData.url base) (CachedSiteData.given_url data) /\
    CachedSiteData.title merged
      = default (CachedSiteData.title base) (CachedSiteData.given_title data) /\
    CachedSiteData.content merged
      = default (CachedSiteData.content base) (CachedSiteData.given_content data) /\
    CachedSiteData.status merged
      = default (CachedSiteData.status base) (CachedSiteData.given_status data) /\
    CachedSiteData.chatHistory merged
      = default (CachedSiteData.chatHistory base) (CachedSiteData.given_chatHistory data) /\
    CachedSiteData.lastVisited merged = now /\
    (forall other, other <> url -> next !! other = prev !! other) /\
    updateCache_result url data now prev = None.
Proof.
  intros Hbase. split; [|split].
  - intros Hnone. unfold existing_or_default, default_site in Hbase.
    rewrite Hnone in Hbase. destruct (hostname url); [|done].
    by injection Hbase as <-.
  - intros r Hr. unfold existing_or_default in Hbase. rewrite Hr in Hbase. congruence.
  - rewrite updateCache_updater_eq, Hbase. simpl.
    eexists _, _. split; [reflexivity|]. split; [apply lookup_insert_eq|].
    simpl. rewrite site_merge_url, site_merge_title, site_merge_content,
      site_merge_status, site_merge_chatHistory.
    repeat split; try done. intros other Hne. by apply lookup_insert_ne.
Qed.

(** ** Tabs and effects *)

Lemma tab_merge_id tab updates :
  BrowserTab.id (BrowserTab.merge tab updates) = BrowserTab.id tab.
Proof.
  unfold BrowserTab.merge. revert tab.
  induction updates as [|p updates IH]; intros tab; simpl; [done|].
  rewrite IH. by destruct p.
Qed.

Lemma find_tab_updateTab i j updates ts :
  find_tab i (updateTab_updater j updates ts)
  = if decide (i = j)
    then (fun t => BrowserTab.merge t updates) <$> find_tab i ts
    else find_tab i ts.
Proof.
  unfold find_tab, updateTab_updater.
  induction ts as [|t ts IH]; simpl; [by destruct (decide (i = j))|].
  destruct (decide (BrowserTab.id t = j)) as [Hj|Hj]; rewrite ?tab_merge_id;
    destruct (decide (i = j)) as [Hij|Hij]; subst;
    repeat case_bool_decide; simpl; try congruence.
  all: rewrite IH; by destruct (decide _).
Qed.

Lemma find_tab_updateTab_eq i updates ts :
  find_tab i (updateTab_updater i updates ts)
  = (fun t => BrowserTab.merge t updates) <$> find_tab i ts.
Proof. rewrite find_tab_updateTab. by destruct (decide (i = i)). Qed.

Lemma find_tab_id i ts tab : find_tab i ts = Some tab -> BrowserTab.id tab = i.
Proof.
  unfold find_tab. intros Hf. apply find_some in Hf as [_ Hb].
  by apply bool_decide_eq_true in Hb.
Qed.

Lemma find_tab_In i ts tab : find_tab i ts = Some tab -> In tab ts.
Proof. unfold find_tab. intros Hf. by apply find_some in Hf as [? _]. Qed.

Lemma perform_all_app es1 es2 s :
  perform_all (es1 ++ es2) s
  = match perform_all es1 s with
    | Some s' => perform_all es2 s'
    | None => None
    end.
Proof.
  revert s. induction es1 as [|e es1 IH]; intros s; simpl; [done|].
  destruct (perform e s); [apply IH | done].
Qed.

Lemma settle_followed a b c s :
  settle (mkRun a (b ++ c)) s
  = match settle (mkRun a b) s with
    | Some s' => perform_all c s'
    | None => None
    end.
Proof. unfold settle, effects. simpl. rewrite app_assoc. apply perform_all_app. Qed.

Lemma run_eta r : mkRun (sync r) (deferred r) = r.
Proof. by destruct r. Qed.

(** ** Navigation to a blocked site *)

(** C2.  A navigation of an existing tab to a URL other than the home page
    whose cached record has status BLOCKED ends, once its effects have taken
    place, with the tab showing ERR_CONNECTION_RESET and not loading; the run
    contains no call of the service layer and does not depend on what the
    content service would have answered. *)
Theorem navigate_blocked_resets_connection
    (s : AppState) (url : string) (newTabId : option string)
    (ai : AiResult) (now : Z) (site : CachedSiteData.t) (tab : BrowserTab.t) :
  url <> home_url ->
  siteCache s !! url = Some site ->
  CachedSiteData.status site = BLOCKED ->
  find_tab (target_of s newTabId) (tabs s) = Some tab ->
  exists s' tab',
    settle (handleNavigate s url newTabId ai now) s = Some s' /\
    find_tab (target_of s newTabId) (tabs s') = Some tab' /\
    BrowserTab.url tab' = url /\
    BrowserTab.error tab' = Some "ERR_CONNECTION_RESET" /\
    BrowserTab.isLoading tab' = false /\
    BrowserTab.status tab' = BLOCKED /\
    siteCache s' = siteCache s /\
    calls (effects (handleNavigate s url newTabId ai now)) = [] /\
    forall ai' now',
      handleNavigate s url newTabId ai' now' = handleNavigate s url newTabId ai now.
Proof.
  intros Hhome Hsite Hblocked Htab.
  assert (Hrun : forall ai0 now0,
    handleNavigate s url newTabId ai0 now0
    = mkRun
        [updateTab (target_of s newTabId)
           [Url url; Title (CachedSiteData.title site); IsLoading true; Error None;
            Status BLOCKED; ChatHistory (CachedSiteData.chatHistory site);
            History (slice0 (BrowserTab.history tab) (BrowserTab.historyIndex tab + 1)
                     ++ [url]);
            HistoryIndex (BrowserTab.historyIndex tab + 1)];
         setIsChatOpen false]
        [after 800 (updateTab (target_of s newTabId)
                      [IsLoading false; Error (Some "ERR_CONNECTION_RESET")])]).
  { intros ai0 now0. unfold handleNavigate. rewrite Htab.
    destruct (decide (url = home_url)); [done|].
    rewrite Hsite. simpl. rewrite Hblocked. by destruct (decide (BLOCKED = BLOCKED)). }
  rewrite !Hrun. unfold settle, effects. simpl.
  eexists _, _. split; [reflexivity|]. simpl.
  rewrite !find_tab_updateTab_eq, Htab. simpl.
  repeat split; try reflexivity. apply Hrun.
Qed.
(** ** Navigation that generates content *)

(** What [handleNavigate] does when it reaches content generation: the record
    is absent or has no usable content, its status is not BLOCKED, and the
    URL parses. *)
Lemma handleNavigate_generation
    (s : AppState) (url : string) (newTabId : option string)
    (ai : AiResult) (now : Z) (tab : BrowserTab.t) (title : string) :
  url <> home_url ->
  find_tab (target_of s newTabId) (tabs s) = Some tab ->
  status_or NORMAL (siteCache s !! url) <> BLOCKED ->
  cached_content (siteCache s !! url) = None ->
  hostname url = Some title ->
  let isCensored :=
    bool_decide (status_or NORMAL (siteCache s !! url) = CONTENT_REMOVED) in
  let html := generatePageContent url title isCensored ai in
  exists s' site' tab',
    settle (handleNavigate s url newTabId ai now) s = Some s' /\
    siteCache s' !! url = Some site' /\
    CachedSiteData.content site' = Some html /\
    CachedSiteData.title site' = title /\
    CachedSiteData.status site' = NORMAL /\
    find_tab (target_of s newTabId) (tabs s') = Some tab' /\
    BrowserTab.content tab' = Some html /\
    BrowserTab.isLoading tab' = false /\
    BrowserTab.error tab' = None /\
    calls (effects (handleNavigate s url newTabId ai now))
      = [call_generatePageContent url title isCensored].
Proof.
  intros Hhome Htab Hnb Hnc Hhost isCensored html.
  unfold handleNavigate. rewrite Htab.
  destruct (decide (url = home_url)); [done|].
  unfold status_or in *.
  set (c := siteCache s !! url) in *.
  destruct (decide (_ = BLOCKED)) as [Hb|_]; [by destruct c|].
  rewrite Hnc, Hhost. unfold settle, effects. simpl.
  rewrite updateCache_updater_eq.
  assert (Hex : existing_or_default url now (siteCache s)
                = Some (default (CachedSiteData.mk url title None NORMAL [] now) c)).
  { unfold existing_or_default, default_site. fold c. destruct c; simpl; [done|].
    by rewrite Hhost. }
  rewrite Hex. simpl.
  eexists _, _, _. split; [reflexivity|]. simpl.
  rewrite lookup_insert_eq, !find_tab_updateTab_eq, Htab. simpl.
  repeat split; reflexivity.
Qed.

Lemma existing_or_default_present url now prev site :
  prev !! url = Some site -> existing_or_default url now prev = Some site.
Proof. unfold existing_or_default. by intros ->. Qed.

(** The sibling of [handleNavigate]: when [reloadContentForUrl] generates
    content for a record that exists, it stores the content and leaves the
    status of the record as it is. *)
Lemma reloadContentForUrl_generation_keeps_status
    (s : AppState) (url tabId : string) (ai : AiResult) (now : Z)
    (tab : BrowserTab.t) (site : CachedSiteData.t) (h : string) :
  find_tab tabId (tabs s) = Some tab ->
  siteCache s !! url = Some site ->
  CachedSiteData.status site <> BLOCKED ->
  cached_content (Some site) = None ->
  hostname url = Some h ->
  let html :=
    generatePageContent url h
      (bool_decide (CachedSiteData.status site = CONTENT_REMOVED)) ai in
  exists s' site',
    settle (reloadContentForUrl s url tabId ai now) s = Some s' /\
    siteCache s' !! url = Some site' /\
    CachedSiteData.content site' = Some html /\
    CachedSiteData.status site' = CachedSiteData.status site.
Proof.
  intros Htab Hsite Hnb Hnc Hhost html.
  unfold reloadContentForUrl. rewrite Htab, Hsite.
  destruct (decide (_ = BLOCKED)); [done|].
  rewrite Hnc, Hhost. unfold settle, effects. simpl.
  rewrite updateCache_updater_eq, (existing_or_default_present _ _ _ site) by done.
  simpl. eexists _, _. split; [reflexivity|]. simpl.
  rewrite lookup_insert_eq. by repeat split.
Qed.

(** C1 (what the code does).  When a navigation reaches content generation
    for a record whose status is CONTENT_REMOVED, the record ends with the
    generated content and with status NORMAL: [handleNavigate] writes
    [status: NORMAL] whatever the status was. *)
Theorem navigate_generation_overwrites_content_removed
    (s : AppState) (url : string) (newTabId : option string)
    (ai : AiResult) (now : Z) (tab : BrowserTab.t) (site : CachedSiteData.t)
    (title : string) :
  url <> home_url ->
  find_tab (target_of s newTabId) (tabs s) = Some tab ->
  siteCache s !! url = Some site ->
  CachedSiteData.status site = CONTENT_REMOVED ->
  CachedSiteData.content site = None ->
  hostname url = Some title ->
  exists s' site',
    settle (handleNavigate s url newTabId ai now) s = Some s' /\
    siteCache s' !! url = Some site' /\
    CachedSiteData.content site' = Some (generatePageContent url title true ai) /\
    CachedSiteData.status site' = NORMAL.
Proof.
  intros Hhome Htab Hsite Hst Hcontent Hhost.
  destruct (handleNavigate_generation s url newTabId ai now tab title)
    as (s' & site' & tab' & Hs & Hl & Hc & _ & Hstatus & _); try done.
  - rewrite Hsite. simpl. by rewrite Hst.
  - rewrite Hsite. simpl. by rewrite Hcontent.
  - exists s', site'. rewrite Hsite in Hc. simpl in Hc. rewrite Hst in Hc.
    by rewrite bool_decide_eq_true_2 in Hc.
Qed.

(** C7 (what the code does).  When the service rejects the request made by
    [generatePageContent], that function returns a page of error text, and
    [handleNavigate] treats it as generated content: the error text is
    written to the record of the URL with status NORMAL, and the tab shows
    it with no error set. *)
Theorem navigate_rejected_generation_is_cached
    (s : AppState) (url : string) (newTabId : option string)
    (message : option string) (now : Z) (tab : BrowserTab.t) (title : string) :
  url <> home_url ->
  find_tab (target_of s newTabId) (tabs s) = Some tab ->
  status_or NORMAL (siteCache s !! url) <> BLOCKED ->
  cached_content (siteCache s !! url) = None ->
  hostname url = Some title ->
  let page := error_page_of (default "Unknown error" message) in
  exists s' site' tab',
    settle (handleNavigate s url newTabId (AiRejected message) now) s = Some s' /\
    siteCache s' !! url = Some site' /\
    CachedSiteData.content site' = Some page /\
    CachedSiteData.status site' = NORMAL /\
    find_tab (target_of s newTabId) (tabs s') = Some tab' /\
    BrowserTab.content tab' = Some page /\
    BrowserTab.error tab' = None /\
    BrowserTab.isLoading tab' = false.
Proof.
  intros Hhome Htab Hnb Hnc Hhost page.
  destruct (handleNavigate_generation s url newTabId (AiRejected message) now tab title)
    as (s' & site' & tab' & Hs & Hl & Hc & _ & Hstatus & Hf & Hct & Hload & Herr & _);
    try done.
  exists s', site', tab'. by repeat split.
Qed.

(** The [catch] of [handleNavigate] is reached when the URL does not parse:
    then the tab gets ERR_CONNECTION_TIMED_OUT and the cache is untouched. *)
Lemma navigate_unparsable_url
    (s : AppState) (url : string) (newTabId : option string)
    (ai : AiResult) (now : Z) (tab : BrowserTab.t) :
  url <> home_url ->
  find_tab (target_of s newTabId) (tabs s) = Some tab ->
  status_or NORMAL (siteCache s !! url) <> BLOCKED ->
  cached_content (siteCache s !! url) = None ->
  hostname url = None ->
  exists s' tab',
    settle (handleNavigate s url newTabId ai now) s = Some s' /\
    siteCache s' = siteCache s /\
    find_tab (target_of s newTabId) (tabs s') = Some tab' /\
    BrowserTab.error tab' = Some "ERR_CONNECTION_TIMED_OUT" /\
    BrowserTab.isLoading tab' = false /\
    calls (effects (handleNavigate s url newTabId ai now)) = [].
Proof.
  intros Hhome Htab Hnb Hnc Hhost.
  unfold handleNavigate. rewrite Htab.
  destruct (decide (url = home_url)); [done|].
  unfold status_or in *.
  set (c := siteCache s !! url) in *.
  destruct (decide (_ = BLOCKED)) as [Hb|_]; [by destruct c|].
  rewrite Hnc, Hhost. unfold settle, effects. simpl.
  eexists _, _. split; [reflexivity|]. simpl.
  rewrite !find_tab_updateTab_eq, Htab. simpl.
  by repeat split.
Qed.

(** ** Status changes followed by a reload

    [handleBlock] and [handleCourtClose] write the new status and then call
    [reloadContentForUrl] of the same render, which still reads the cache and
    the tabs as they were before the write. *)

Ltac reload_on_snapshot Hactive Hsite Hnb Hcached :=
  unfold set_status_and_reload, reloadContentForUrl, updateActiveTab;
  rewrite (find_tab_id _ _ _ Hactive), Hactive, Hsite;
  destruct (decide (_ = BLOCKED)); [done|];
  rewrite Hcached; unfold settle, effects; simpl;
  rewrite updateCache_updater_eq, (existing_or_default_present _ _ _ _ Hsite);
  simpl; eexists _, _, _; split; [reflexivity|]; simpl;
  rewrite lookup_insert_eq, !find_tab_updateTab_eq.

(** C3 (what the code does).  Blocking the active tab of a site whose record
    is not BLOCKED and has cached content stores the drawn status in the
    record, but the tab ends with the status the record had before, with no
    error and showing the cached content: the reload runs on the snapshot in
    which the site is not blocked yet, and its first update puts the old
    status back on the tab. *)
Theorem block_reloads_under_old_status
    (s : AppState) (willAppeal : bool) (ai : AiResult) (now now' : Z)
    (active : BrowserTab.t) (site : CachedSiteData.t) (html : string) :
  getActiveTab s = Some active ->
  BrowserTab.url active <> home_url ->
  siteCache s !! BrowserTab.url active = Some site ->
  CachedSiteData.status site <> BLOCKED ->
  cached_content (Some site) = Some (site, html) ->
  exists s' site' tab',
    settle (handleBlock s willAppeal ai now now') s = Some s' /\
    siteCache s' !! BrowserTab.url active = Some site' /\
    CachedSiteData.status site' = (if willAppeal then UNDER_APPEAL else BLOCKED) /\
    getActiveTab s' = Some tab' /\
    BrowserTab.status tab' = CachedSiteData.status site /\
    BrowserTab.error tab' = None /\
    BrowserTab.content tab' = Some html /\
    BrowserTab.isLoading tab' = false.
Proof.
  intros Hactive Hhome Hsite Hnb Hcached.
  unfold handleBlock. rewrite Hactive.
  destruct (decide (_ = home_url)); [done|].
  unfold getActiveTab in *.
  destruct willAppeal.
  - reload_on_snapshot Hactive Hsite Hnb Hcached.
    rewrite Hactive. by repeat split.
  - reload_on_snapshot Hactive Hsite Hnb Hcached.
    rewrite Hactive. by repeat split.
Qed.

(** C5 (what the code does).  Closing the court on a tab whose record is not
    BLOCKED and has cached content stores BLOCKED (UPHOLD) or NORMAL
    (OVERTURN) in the record, but the tab ends with the status the record had
    before, for instance UNDER_APPEAL, and shows the cached content. *)
Theorem court_close_reloads_under_old_status
    (s : AppState) (finalVerdict : Verdict) (ai : AiResult) (now now' : Z)
    (active : BrowserTab.t) (site : CachedSiteData.t) (html : string) :
  getActiveTab s = Some active ->
  siteCache s !! BrowserTab.url active = Some site ->
  CachedSiteData.status site <> BLOCKED ->
  cached_content (Some site) = Some (site, html) ->
  exists s' site' tab',
    settle (handleCourtClose s finalVerdict ai now now') s = Some s' /\
    siteCache s' !! BrowserTab.url active = Some site' /\
    CachedSiteData.status site'
      = match finalVerdict with UPHOLD => BLOCKED | OVERTURN => NORMAL end /\
    isCourtOpen s' = false /\
    getActiveTab s' = Some tab' /\
    BrowserTab.status tab' = CachedSiteData.status site /\
    BrowserTab.error tab' = None /\
    BrowserTab.content tab' = Some html /\
    BrowserTab.isLoading tab' = false.
Proof.
  intros Hactive Hsite Hnb Hcached.
  unfold handleCourtClose. rewrite Hactive.
  unfold getActiveTab in *.
  reload_on_snapshot Hactive Hsite Hnb Hcached.
  rewrite Hactive. by repeat split.
Qed.

(** ** Negotiation *)

(** Whatever the snapshot [s0] it was started on, a reload leaves the status
    and the transcript of an existing record as they are. *)
Lemma reload_keeps_status_and_transcript
    (s0 s1 : AppState) (url tabId : string) (ai : AiResult) (now : Z)
    (site1 : CachedSiteData.t) :
  siteCache s1 !! url = Some site1 ->
  exists s2 site2,
    perform_all (effects (reloadContentForUrl s0 url tabId ai now)) s1 = Some s2 /\
    siteCache s2 !! url = Some site2 /\
    CachedSiteData.status site2 = CachedSiteData.status site1 /\
    CachedSiteData.chatHistory site2 = CachedSiteData.chatHistory site1.
Proof.
  intros Hsite. unfold reloadContentForUrl.
  destruct (find_tab tabId (tabs s0)) as [tab|]; [|by exists s1, site1].
  destruct (decide (_ = BLOCKED));
    [by unfold effects; simpl; eexists _, site1|].
  destruct (cached_content _) as [[c html]|];
    [by unfold effects; simpl; eexists _, site1|].
  destruct (hostname url) as [h|];
    [|by unfold effects; simpl; eexists _, site1].
  unfold effects. simpl.
  rewrite updateCache_updater_eq, (existing_or_default_present _ _ _ _ Hsite).
  simpl. eexists _, _. split; [reflexivity|]. simpl.
  by rewrite lookup_insert_eq.
Qed.

(** When a reload generates a page, it stores it in the record as the record
    is then, under the status the record or the tab had in the snapshot
    [s0]. *)
Lemma reload_generates_into_record
    (s0 s1 : AppState) (url tabId : string) (ai : AiResult) (now : Z)
    (tab : BrowserTab.t) (site1 : CachedSiteData.t) (h : string) :
  find_tab tabId (tabs s0) = Some tab ->
  siteCache s1 !! url = Some site1 ->
  status_or (BrowserTab.status tab) (siteCache s0 !! url) <> BLOCKED ->
  cached_content (siteCache s0 !! url) = None ->
  hostname url = Some h ->
  exists s2 site2,
    perform_all (effects (reloadContentForUrl s0 url tabId ai now)) s1 = Some s2 /\
    siteCache s2 !! url = Some site2 /\
    CachedSiteData.content site2
      = Some (generatePageContent url h
                (bool_decide (status_or (BrowserTab.status tab) (siteCache s0 !! url)
                              = CONTENT_REMOVED)) ai).
Proof.
  intros Htab Hsite Hnb Hnc Hh. unfold reloadContentForUrl. rewrite Htab.
  destruct (decide (_ = BLOCKED)); [done|]. rewrite Hnc, Hh.
  unfold effects. simpl.
  rewrite updateCache_updater_eq, (existing_or_default_present _ _ _ _ Hsite).
  simpl. eexists _, _. split; [reflexivity|]. simpl.
  by rewrite lookup_insert_eq.
Qed.

(** C4 (what the code does).  On a tab that is not the home page, and when
    the record exists or the URL parses, a chat exchange stores as the
    transcript of the record the transcript of the tab followed by the
    regulator's entry and the owner's entry: what the record held before is
    overwritten, and is kept only when the tab held the same.  If the
    [agreedToRemove] of the answer passes the truth test, the record gets
    status CONTENT_REMOVED and its content is cleared when the answer is
    processed, whatever the reply; but the reload that follows runs on the
    handler's snapshot, and where that snapshot has no content to show it
    generates a page and stores it, so that the record ends with content
    again (generated as censored only if the status was CONTENT_REMOVED
    before).  When the answer is null the destructuring throws: the handler
    stops with the regulator's entry alone in the record and the typing
    indicator on. *)
Theorem chat_overwrites_record_transcript
    (s : AppState) (msg : string) (chat gen : AiResult) (k : ChatClock)
    (tab : BrowserTab.t) (base : CachedSiteData.t) :
  getActiveTab s = Some tab ->
  BrowserTab.url tab <> home_url ->
  existing_or_default (BrowserTab.url tab) (sent_saved_at k) (siteCache s) = Some base ->
  let url := BrowserTab.url tab in
  let res := chatWithSiteOwner url (chat_newHistory tab msg k) msg chat in
  let sent := mkChatMessage user (js_string msg) (sent_at k) in
  let oldStatus := status_or (BrowserTab.status tab) (siteCache s !! url) in
  (forall replied agreed,
     destructure_reply res = Some (replied, agreed) ->
     let entries := [sent; mkChatMessage model replied (replied_at k)] in
     exists s' site' s'' site'',
       settle (chat_exchange s tab msg chat k) s = Some s' /\
       siteCache s' !! url = Some site' /\
       CachedSiteData.chatHistory site' = (BrowserTab.chatHistory tab ++ entries)%list /\
       (is_truthy agreed = true ->
          CachedSiteData.status site' = CONTENT_REMOVED /\
          CachedSiteData.content site' = None) /\
       (is_truthy agreed = false ->
          CachedSiteData.status site' = CachedSiteData.status base /\
          CachedSiteData.content site' = CachedSiteData.content base) /\
       (CachedSiteData.chatHistory base = BrowserTab.chatHistory tab ->
          CachedSiteData.chatHistory site'
            = (CachedSiteData.chatHistory base ++ entries)%list) /\
       settle (handleChatSendMessage s msg chat gen k) s = Some s'' /\
       siteCache s'' !! url = Some site'' /\
       CachedSiteData.chatHistory site'' = (BrowserTab.chatHistory tab ++ entries)%list /\
       CachedSiteData.status site'' = CachedSiteData.status site' /\
       (is_truthy agreed = true -> oldStatus <> BLOCKED ->
        cached_content (siteCache s !! url) = None ->
        forall h, hostname url = Some h ->
          CachedSiteData.content site''
            = Some (generatePageContent url h (bool_decide (oldStatus = CONTENT_REMOVED))
                      gen))) /\
  (destructure_reply res = None ->
     settle (handleChatSendMessage s msg chat gen k) s = None /\
     exists s1 site1,
       perform_all (sync (handleChatSendMessage s msg chat gen k)) s = Some s1 /\
       isChatTyping s1 = true /\
       siteCache s1 !! url = Some site1 /\
       CachedSiteData.chatHistory site1 = (BrowserTab.chatHistory tab ++ [sent])%list).
Proof.
  intros Hactive Hhome Hbase url res sent oldStatus. subst url. split.
  - intros replied agreed Hres entries.
    assert (Hx : exists s' site',
      settle (chat_exchange s tab msg chat k) s = Some s' /\
      siteCache s' !! BrowserTab.url tab = Some site' /\
      CachedSiteData.chatHistory site' = (BrowserTab.chatHistory tab ++ entries)%list /\
      (is_truthy agreed = true ->
         CachedSiteData.status site' = CONTENT_REMOVED /\
         CachedSiteData.content site' = None) /\
      (is_truthy agreed = false ->
         CachedSiteData.status site' = CachedSiteData.status base /\
         CachedSiteData.content site' = CachedSiteData.content base)).
    { unfold chat_exchange. fold res. rewrite Hres.
      destruct (is_truthy agreed) eqn:Hagreed;
        unfold settle, effects; simpl;
        rewrite updateCache_updater_eq, Hbase; simpl;
        rewrite updateCache_updater_eq; unfold existing_or_default at 1;
        rewrite lookup_insert_eq; simpl;
        (eexists _, _; split; [reflexivity|]); simpl; rewrite lookup_insert_eq;
        (split; [reflexivity|]); simpl;
        unfold chat_finalHistory, chat_newHistory, entries, sent;
        rewrite <- app_assoc; simpl;
        repeat split; done. }
    destruct Hx as (s' & site' & Hs' & Hl' & Hh' & Hyes & Hno).
    destruct (reload_keeps_status_and_transcript s s' (BrowserTab.url tab) (BrowserTab.id tab) gen
                (reload_saved_at k) site' Hl')
      as (s2 & site2 & Hs2 & Hl2 & Hst2 & Hh2).
    assert (Hfull : exists s'' site'',
      settle (handleChatSendMessage s msg chat gen k) s = Some s'' /\
      siteCache s'' !! BrowserTab.url tab = Some site'' /\
      CachedSiteData.chatHistory site'' = CachedSiteData.chatHistory site' /\
      CachedSiteData.status site'' = CachedSiteData.status site' /\
      (is_truthy agreed = true -> s'' = s2)).
    { unfold handleChatSendMessage. rewrite Hactive.
      destruct (decide (_ = home_url)); [done|].
      fold res. rewrite Hres, settle_followed, run_eta, Hs'.
      destruct (is_truthy agreed).
      - exists s2, site2. by rewrite Hs2.
      - exists s', site'. by simpl. }
    destruct Hfull as (s'' & site'' & Hs'' & Hl'' & Hh'' & Hst'' & Hreloaded).
    exists s', site', s'', site''. split_and!; try done.
    + by intros ->.
    + by rewrite Hh''.
    + intros Hagreed Hnb Hnc h Hh. rewrite (Hreloaded Hagreed) in Hl''.
      assert (Hfound : find_tab (BrowserTab.id tab) (tabs s) = Some tab).
      { unfold getActiveTab in Hactive. by rewrite (find_tab_id _ _ _ Hactive). }
      destruct (reload_generates_into_record s s' (BrowserTab.url tab) (BrowserTab.id tab) gen
                  (reload_saved_at k) tab site' h Hfound Hl' Hnb Hnc Hh)
        as (s3 & site3 & Hs3 & Hl3 & Hc3).
      rewrite Hs2 in Hs3. injection Hs3 as <-.
      rewrite Hl'' in Hl3. by injection Hl3 as <-.
  - intros Hres.
    unfold handleChatSendMessage. rewrite Hactive.
    destruct (decide (_ = home_url)); [done|].
    fold res. rewrite Hres. unfold chat_exchange. fold res. rewrite Hres.
    unfold settle, effects. simpl.
    rewrite updateCache_updater_eq, Hbase. simpl. split; [reflexivity|].
    eexists _, _. split; [reflexivity|]. simpl. rewrite lookup_insert_eq.
    by split_and!.
Qed.

(** ** Search *)

(** C9 (as amended).  [searchWeb] never fails.  It returns the fixed list of
    five results when the call of the service is rejected and when
    [JSON.parse] throws on the cleaned reply, the empty array when the
    cleaned reply is empty, and otherwise the value the cleaned reply parses
    to, as it is: a list of results of any length when the reply is one.
    The request asks for five sites; nothing in the code checks what comes
    back, so that the last clause holds of every parsed value, a list or
    not. *)
Theorem searchWeb_outcomes (query : string) (r : AiResult) :
  length search_fallback = 5%nat /\
  (forall message, r = AiRejected message ->
     searchWeb query r = SearchResults_value search_fallback) /\
  (forall t, r = AiResponse t -> is_empty (cleanResponse t) = true ->
     searchWeb query r = js_array []) /\
  (forall t, r = AiResponse t -> is_empty (cleanResponse t) = false ->
     JSON_parse (cleanResponse t) = None ->
     searchWeb query r = SearchResults_value search_fallback) /\
  (forall t parsed, r = AiResponse t -> is_empty (cleanResponse t) = false ->
     JSON_parse (cleanResponse t) = Some parsed ->
     searchWeb query r = parsed).
Proof.
  split; [reflexivity|]. repeat split.
  - by intros message ->.
  - intros t -> Hempty. unfold searchWeb. by rewrite Hempty.
  - intros t -> Hempty Hparse. unfold searchWeb. by rewrite Hempty, Hparse.
  - intros t parsed -> Hempty Hparse. unfold searchWeb. by rewrite Hempty, Hparse.
Qed.

(** ** Effects that keep the skeleton *)

Lemma tab_merge_sk tab updates :
  forallb keeps_history updates = true -> sk (BrowserTab.merge tab updates) = sk tab.
Proof.
  unfold BrowserTab.merge. revert tab.
  induction updates as [|p updates IH]; intros tab Hk; simpl in *; [done|].
  apply andb_true_iff in Hk as [Hp Hk]. rewrite IH by done.
  by destruct p.
Qed.

Lemma updateTab_updater_sk i updates ts :
  forallb keeps_history updates = true ->
  map sk (updateTab_updater i updates ts) = map sk ts.
Proof.
  intros Hk. unfold updateTab_updater. rewrite map_map. apply map_ext.
  intros t. destruct (decide _); [by apply tab_merge_sk | done].
Qed.

Lemma neutral_perform e s :
  neutral e = true -> exists s', perform e s = Some s' /\ skeleton s' = skeleton s.
Proof.
  induction e; simpl; intros Hn; try done; try by eexists.
  - rewrite updateCache_updater_eq. unfold existing_or_default, default_site.
    destruct (hostname url); [|done].
    destruct (siteCache s !! url); simpl; by eexists.
  - eexists. split; [done|]. unfold skeleton. simpl. f_equal.
    by apply (updateTab_updater_sk id updates (tabs s)).
  - by apply IHe.
Qed.

Lemma neutral_perform_all es s :
  forallb neutral es = true ->
  exists s', perform_all es s = Some s' /\ skeleton s' = skeleton s.
Proof.
  revert s. induction es as [|e es IH]; intros s Hn; simpl in *; [by eexists|].
  apply andb_true_iff in Hn as [He Hn].
  destruct (neutral_perform e s He) as (s1 & -> & Hs1).
  destruct (IH s1 Hn) as (s2 & -> & Hs2).
  exists s2. split; [done|]. congruence.
Qed.

Lemma skeleton_tab_ids s s' : skeleton s' = skeleton s -> tab_ids s' = tab_ids s.
Proof.
  unfold skeleton, tab_ids. intros [= _ Hm].
  apply (f_equal (map (fun x : string * list string * Z => x.1.1))) in Hm.
  by rewrite !map_map in Hm.
Qed.

Lemma skeleton_history_ok s s' :
  skeleton s' = skeleton s -> Forall history_ok (tabs s) -> Forall history_ok (tabs s').
Proof.
  unfold skeleton. intros [= _ Hm]. revert Hm.
  generalize (tabs s) as ts, (tabs s') as ts'.
  induction ts as [|t ts IH]; intros [|t' ts'] Hm Hok; simpl in *; try done.
  apply Forall_cons in Hok as [Ht Hok]. injection Hm as Hi Hh Hx Hm.
  constructor; [|by apply IH].
  unfold history_ok in *. by rewrite Hh, Hx.
Qed.

Lemma skeleton_well_formed s s' :
  skeleton s' = skeleton s -> well_formed s -> well_formed s'.
Proof.
  intros Hsk [[Hnd Hact] Hok]. repeat split.
  - by rewrite (skeleton_tab_ids _ _ Hsk).
  - rewrite (skeleton_tab_ids _ _ Hsk). by injection Hsk as -> _.
  - by apply (skeleton_history_ok s).
Qed.

Lemma find_tab_sk ts ts' i t :
  map sk ts' = map sk ts -> find_tab i ts = Some t ->
  exists t', find_tab i ts' = Some t' /\ sk t' = sk t.
Proof.
  unfold find_tab. revert ts'.
  induction ts as [|a ts IH]; intros [|a' ts'] Hm Hf; simpl in *; try done.
  injection Hm as Hi Hh Hx Hm. rewrite Hi.
  destruct (bool_decide (BrowserTab.id a = i)).
  - injection Hf as <-. exists a'. split; [done|]. unfold sk. by rewrite Hi, Hh, Hx.
  - by apply IH.
Qed.

Lemma find_tab_skeleton s s' i t :
  skeleton s' = skeleton s -> find_tab i (tabs s) = Some t ->
  exists t', find_tab i (tabs s') = Some t' /\
    BrowserTab.history t' = BrowserTab.history t /\
    BrowserTab.historyIndex t' = BrowserTab.historyIndex t.
Proof.
  intros [= _ Hm] Hf.
  destruct (find_tab_sk _ _ _ _ Hm Hf) as (t' & Hf' & [= _ Hh Hx]).
  by exists t'.
Qed.

(** ** History *)

Lemma reload_neutral s url tabId ai now :
  forallb neutral (sync (reloadContentForUrl s url tabId ai now)) = true /\
  forallb neutral (deferred (reloadContentForUrl s url tabId ai now)) = true.
Proof.
  unfold reloadContentForUrl.
  destruct (find_tab tabId (tabs s)); [|done].
  destruct (decide _); [done|].
  destruct (cached_content _) as [[c html]|]; [done|].
  destruct (hostname url) eqn:Hhost; [|done].
  simpl. by rewrite Hhost.
Qed.

Lemma find_tab_unique ts i tab t :
  NoDup (map BrowserTab.id ts) -> find_tab i ts = Some tab ->
  In t ts -> BrowserTab.id t = i -> t = tab.
Proof.
  unfold find_tab. induction ts as [|a ts IH]; simpl; [done|].
  intros Hnd Hf Hin Hid. apply NoDup_cons in Hnd as [Ha Hnd].
  case_bool_decide as Hai.
  - injection Hf as <-. destruct Hin as [->|Hin]; [done|].
    exfalso. apply Ha. rewrite Hai, <- Hid.
    apply list_elem_of_In, in_map, Hin.
  - destruct Hin as [->|Hin]; [done|]. by apply IH.
Qed.

Lemma updateTab_updater_ids i updates ts :
  map BrowserTab.id (updateTab_updater i updates ts) = map BrowserTab.id ts.
Proof.
  unfold updateTab_updater. rewrite map_map. apply map_ext.
  intros t. destruct (decide _); [apply tab_merge_id | done].
Qed.

Lemma updateTab_well_formed s i updates tab :
  well_formed s -> find_tab i (tabs s) = Some tab ->
  history_ok (BrowserTab.merge tab updates) ->
  well_formed (with_tabs s (updateTab_updater i updates (tabs s))).
Proof.
  intros [[Hnd Hact] Hok] Hf Hm. unfold well_formed, tabs_ok, tab_ids in *. simpl.
  rewrite updateTab_updater_ids. repeat split; try done.
  unfold updateTab_updater. apply Forall_forall. intros x Hx.
  apply list_elem_of_In, in_map_iff in Hx as (t & <- & Hin).
  destruct (decide _) as [Hid|_].
  - by rewrite (find_tab_unique _ _ _ _ Hnd Hf Hin Hid).
  - rewrite Forall_forall in Hok. by apply Hok, list_elem_of_In.
Qed.

(** A first update of one tab, followed by effects that keep the skeleton. *)
Lemma update_then_neutral s i updates rest tab :
  well_formed s -> find_tab i (tabs s) = Some tab ->
  history_ok (BrowserTab.merge tab updates) ->
  forallb neutral rest = true ->
  exists s' tab',
    perform_all (updateTab i updates :: rest) s = Some s' /\
    well_formed s' /\
    activeTabId s' = activeTabId s /\
    find_tab i (tabs s') = Some tab' /\
    BrowserTab.history tab' = BrowserTab.history (BrowserTab.merge tab updates) /\
    BrowserTab.historyIndex tab'
      = BrowserTab.historyIndex (BrowserTab.merge tab updates).
Proof.
  intros Hwf Hf Hok Hrest. simpl.
  set (s1 := with_tabs s (updateTab_updater i updates (tabs s))).
  destruct (neutral_perform_all rest s1 Hrest) as (s' & Hs' & Hsk).
  assert (Hf1 : find_tab i (tabs s1) = Some (BrowserTab.merge tab updates)).
  { unfold s1. simpl. by rewrite find_tab_updateTab_eq, Hf. }
  destruct (find_tab_skeleton _ _ _ _ Hsk Hf1) as (tab' & Hf' & Hh & Hx).
  exists s', tab'. repeat split; try done.
  - apply (skeleton_well_formed s1); [done|]. by apply (updateTab_well_formed s i updates tab).
  - apply (skeleton_well_formed s1); [done|]. by apply (updateTab_well_formed s i updates tab).
  - apply (skeleton_well_formed s1); [done|]. by apply (updateTab_well_formed s i updates tab).
  - by injection Hsk as -> _.
Qed.

Lemma slice0_push (h : list string) (x : Z) (url : string) :
  0 <= x < Z.of_nat (length h) ->
  (slice0 h (x + 1) ++ [url])%list = (take (Z.to_nat (x + 1)) h ++ [url])%list /\
  0 <= x + 1 < Z.of_nat (length (slice0 h (x + 1) ++ [url])%list).
Proof.
  intros Hx. unfold slice0.
  destruct (x + 1 <? 0)%Z eqn:Hneg; [apply Z.ltb_lt in Hneg; lia|].
  split; [done|]. rewrite length_app, length_take. simpl. lia.
Qed.

Lemma handleNavigate_shape s url newTabId ai now tab :
  find_tab (target_of s newTabId) (tabs s) = Some tab ->
  exists updates rest,
    sync (handleNavigate s url newTabId ai now)
      = updateTab (target_of s newTabId) updates :: rest /\
    forallb neutral rest = true /\
    forallb neutral (deferred (handleNavigate s url newTabId ai now)) = true /\
    BrowserTab.history (BrowserTab.merge tab updates)
      = (slice0 (BrowserTab.history tab) (BrowserTab.historyIndex tab + 1) ++ [url])%list /\
    BrowserTab.historyIndex (BrowserTab.merge tab updates)
      = BrowserTab.historyIndex tab + 1.
Proof.
  intros Hf. unfold handleNavigate. rewrite Hf.
  destruct (decide (url = home_url)) as [->|_]; [by eexists _, _|].
  destruct (decide _); [by eexists _, _|].
  destruct (cached_content _) as [[c html]|]; [by eexists _, _|].
  destruct (hostname url) eqn:Hhost; [|by eexists _, _].
  eexists _, _. split; [reflexivity|]. simpl. by rewrite Hhost.
Qed.

Lemma move_to_shape s tab newIndex ai now target :
  js_index (BrowserTab.history tab) newIndex = Some target ->
  exists rest,
    sync (move_to s tab newIndex ai now)
      = updateTab (activeTabId s) [HistoryIndex newIndex; Url target] :: rest /\
    forallb neutral rest = true /\
    forallb neutral (deferred (move_to s tab newIndex ai now)) = true.
Proof.
  intros Hi. unfold move_to. rewrite Hi.
  destruct (decide _); [by eexists|].
  eexists. split; [reflexivity|].
  apply (reload_neutral s target (BrowserTab.id tab) ai now).
Qed.

Lemma js_index_in_range (h : list string) (x : Z) :
  0 <= x < Z.of_nat (length h) -> exists u, js_index h x = Some u.
Proof.
  intros Hx. unfold js_index.
  destruct (x <? 0)%Z eqn:Hneg; [apply Z.ltb_lt in Hneg; lia|].
  destruct (lookup_lt_is_Some_2 h (Z.to_nat x)) as [u Hu]; [lia|by exists u].
Qed.

Lemma find_tab_is_Some i ts :
  i ∈ map BrowserTab.id ts -> exists t, find_tab i ts = Some t.
Proof.
  unfold find_tab. induction ts as [|a ts IH]; simpl; intros Hi.
  - by apply elem_of_nil in Hi.
  - case_bool_decide as Ha; [by eexists|].
    apply elem_of_cons in Hi as [Hi|Hi]; [congruence | by apply IH].
Qed.

Lemma well_formed_active s :
  well_formed s -> exists tab, getActiveTab s = Some tab /\ history_ok tab.
Proof.
  intros [[Hnd Hact] Hok].
  destruct (find_tab_is_Some _ _ Hact) as (tab & Hf).
  exists tab. split; [done|].
  rewrite Forall_forall in Hok. apply Hok, list_elem_of_In, (find_tab_In _ _ _ Hf).
Qed.

Lemma well_formed_found s i tab :
  well_formed s -> find_tab i (tabs s) = Some tab -> history_ok tab.
Proof.
  intros [_ Hok] Hf. rewrite Forall_forall in Hok.
  apply Hok, list_elem_of_In, (find_tab_In _ _ _ Hf).
Qed.

Lemma navigate_step s url newTabId ai now :
  well_formed s ->
  exists s',
    step (Navigate url newTabId ai now) s = Some s' /\
    well_formed s' /\
    activeTabId s' = activeTabId s /\
    match find_tab (target_of s newTabId) (tabs s) with
    | Some tab =>
        exists tab',
          find_tab (target_of s newTabId) (tabs s') = Some tab' /\
          BrowserTab.history tab'
            = (take (Z.to_nat (BrowserTab.historyIndex tab + 1)) (BrowserTab.history tab)
               ++ [url])%list /\
          BrowserTab.historyIndex tab' = BrowserTab.historyIndex tab + 1
    | None => s' = s
    end.
Proof.
  intros Hwf. unfold step, settle. simpl.
  destruct (find_tab (target_of s newTabId) (tabs s)) as [tab|] eqn:Hf.
  - destruct (handleNavigate_shape s url newTabId ai now tab Hf)
      as (updates & rest & Hsync & Hrest & Hdef & Hh & Hx).
    unfold effects. rewrite Hsync. simpl.
    pose proof (well_formed_found _ _ _ Hwf Hf) as Hok.
    destruct (slice0_push (BrowserTab.history tab) (BrowserTab.historyIndex tab) url Hok)
      as [Htake Hlen].
    destruct (update_then_neutral s _ updates
                (rest ++ deferred (handleNavigate s url newTabId ai now)) tab Hwf Hf)
      as (s' & tab' & Hs' & Hwf' & Hact' & Hf' & Hh' & Hx').
    { unfold history_ok. by rewrite Hh, Hx. }
    { rewrite forallb_app. by rewrite Hrest, Hdef. }
    exists s'. repeat split; try done; try apply Hwf'.
    exists tab'. repeat split; [done| |congruence]. by rewrite Hh', Hh.
  - exists s. unfold handleNavigate. rewrite Hf. by repeat split; try apply Hwf.
Qed.

(** Back and forward: [moved] tells whether the guard of the handler holds,
    [newIndex] is the index it then moves to. *)
Lemma move_step s ai now tab (moved : bool) (newIndex : Z) (r : Run) :
  well_formed s -> getActiveTab s = Some tab ->
  r = (if moved then move_to s tab newIndex ai now else nothing) ->
  (moved = true -> 0 <= newIndex < Z.of_nat (length (BrowserTab.history tab))) ->
  exists s' tab',
    settle r s = Some s' /\
    well_formed s' /\
    getActiveTab s' = Some tab' /\
    BrowserTab.history tab' = BrowserTab.history tab /\
    BrowserTab.historyIndex tab'
      = (if moved then newIndex else BrowserTab.historyIndex tab).
Proof.
  intros Hwf Hactive -> Hrange. unfold settle.
  destruct moved; [|by exists s, tab].
  specialize (Hrange eq_refl).
  destruct (js_index_in_range _ _ Hrange) as (target & Htarget).
  destruct (move_to_shape s tab newIndex ai now target Htarget)
    as (rest & Hsync & Hrest & Hdef).
  unfold effects. rewrite Hsync. simpl.
  destruct (update_then_neutral s (activeTabId s) [HistoryIndex newIndex; Url target]
              (rest ++ deferred (move_to s tab newIndex ai now)) tab Hwf Hactive)
    as (s' & tab' & Hs' & Hwf' & Hact' & Hf' & Hh' & Hx').
  { done. }
  { rewrite forallb_app. by rewrite Hrest, Hdef. }
  simpl in Hh', Hx'.
  exists s', tab'. unfold getActiveTab. rewrite Hact'. by split_and!.
Qed.

Lemma back_step s ai now tab :
  well_formed s -> getActiveTab s = Some tab ->
  exists s' tab',
    step (Back ai now) s = Some s' /\
    well_formed s' /\
    getActiveTab s' = Some tab' /\
    BrowserTab.history tab' = BrowserTab.history tab /\
    BrowserTab.historyIndex tab'
      = (if (0 <? BrowserTab.historyIndex tab)%Z
         then BrowserTab.historyIndex tab - 1 else BrowserTab.historyIndex tab).
Proof.
  intros Hwf Hactive. unfold step. simpl.
  pose proof (well_formed_found _ _ _ Hwf Hactive) as Hok. unfold history_ok in Hok.
  apply (move_step s ai now tab _ _ _ Hwf Hactive).
  - unfold handleBack. by rewrite Hactive.
  - intros Hm%Z.ltb_lt. lia.
Qed.

Lemma forward_step s ai now tab :
  well_formed s -> getActiveTab s = Some tab ->
  exists s' tab',
    step (Forward ai now) s = Some s' /\
    well_formed s' /\
    getActiveTab s' = Some tab' /\
    BrowserTab.history tab' = BrowserTab.history tab /\
    BrowserTab.historyIndex tab'
      = (if (BrowserTab.historyIndex tab
             <? Z.of_nat (length (BrowserTab.history tab)) - 1)%Z
         then BrowserTab.historyIndex tab + 1 else BrowserTab.historyIndex tab).
Proof.
  intros Hwf Hactive. unfold step. simpl.
  pose proof (well_formed_found _ _ _ Hwf Hactive) as Hok. unfold history_ok in Hok.
  apply (move_step s ai now tab _ _ _ Hwf Hactive).
  - unfold handleForward. by rewrite Hactive.
  - intros Hm%Z.ltb_lt. lia.
Qed.

Lemma navigation_step ev s :
  is_navigation ev -> well_formed s ->
  exists s', step ev s = Some s' /\ well_formed s'.
Proof.
  intros Hev Hwf. destruct (well_formed_active s Hwf) as (tab & Hactive & _).
  destruct ev; try done.
  - destruct (navigate_step s url newTabId ai now Hwf) as (s' & ? & ? & _). by exists s'.
  - destruct (back_step s ai now tab Hwf Hactive) as (s' & _ & ? & ? & _). by exists s'.
  - destruct (forward_step s ai now tab Hwf Hactive) as (s' & _ & ? & ? & _). by exists s'.
Qed.

Lemma navigation_steps evs s :
  Forall is_navigation evs -> well_formed s ->
  exists s', steps evs s = Some s' /\ well_formed s'.
Proof.
  revert s. induction evs as [|ev evs IH]; intros s Hevs Hwf; simpl; [by exists s|].
  apply Forall_cons in Hevs as [Hev Hevs].
  destruct (navigation_step ev s Hev Hwf) as (s1 & -> & Hwf1). by apply IH.
Qed.

Lemma initial_well_formed id cache : well_formed (initial id cache).
Proof.
  repeat split.
  - apply NoDup_singleton.
  - apply list_elem_of_singleton. reflexivity.
  - repeat constructor; simpl; lia.
Qed.

(** C6.  From the initial state, after every sequence of navigations and
    back and forward moves, the history index of every tab lies within its
    history.  In every state so reached, back and forward leave the history
    of the active tab as it is and move its index by one inside the bounds,
    or not at all; a navigation of a tab to a URL replaces its history by the
    entries up to and including the current position followed by the URL,
    and moves the index to that last entry. *)
Theorem history_index_stays_in_bounds
    (id0 : string) (cache : gmap string CachedSiteData.t) (evs : list Event) :
  Forall is_navigation evs ->
  exists s,
    steps evs (initial id0 cache) = Some s /\
    Forall history_ok (tabs s) /\
    (forall ai now, exists tab s' tab',
       getActiveTab s = Some tab /\
       step (Back ai now) s = Some s' /\
       getActiveTab s' = Some tab' /\
       BrowserTab.history tab' = BrowserTab.history tab /\
       BrowserTab.historyIndex tab'
         = (if (0 <? BrowserTab.historyIndex tab)%Z
            then BrowserTab.historyIndex tab - 1 else BrowserTab.historyIndex tab) /\
       history_ok tab') /\
    (forall ai now, exists tab s' tab',
       getActiveTab s = Some tab /\
       step (Forward ai now) s = Some s' /\
       getActiveTab s' = Some tab' /\
       BrowserTab.history tab' = BrowserTab.history tab /\
       BrowserTab.historyIndex tab'
         = (if (BrowserTab.historyIndex tab
                <? Z.of_nat (length (BrowserTab.history tab)) - 1)%Z
            then BrowserTab.historyIndex tab + 1 else BrowserTab.historyIndex tab) /\
       history_ok tab') /\
    (forall url newTabId ai now tab,
       find_tab (target_of s newTabId) (tabs s) = Some tab ->
       exists s' tab',
         step (Navigate url newTabId ai now) s = Some s' /\
         find_tab (target_of s newTabId) (tabs s') = Some tab' /\
         BrowserTab.history tab'
           = (take (Z.to_nat (BrowserTab.historyIndex tab + 1)) (BrowserTab.history tab)
              ++ [url])%list /\
         BrowserTab.historyIndex tab' = BrowserTab.historyIndex tab + 1 /\
         history_ok tab').
Proof.
  intros Hevs.
  destruct (navigation_steps evs _ Hevs (initial_well_formed id0 cache)) as (s & Hs & Hwf).
  exists s. split; [done|]. split; [apply Hwf|].
  destruct (well_formed_active s Hwf) as (tab & Hactive & _).
  repeat split.
  - intros ai now.
    destruct (back_step s ai now tab Hwf Hactive) as (s' & tab' & ? & Hwf' & Hact' & ? & ?).
    exists tab, s', tab'. repeat split; try done.
    all: by apply (well_formed_found s' _ tab' Hwf' Hact').
  - intros ai now.
    destruct (forward_step s ai now tab Hwf Hactive)
      as (s' & tab' & ? & Hwf' & Hact' & ? & ?).
    exists tab, s', tab'. repeat split; try done.
    all: by apply (well_formed_found s' _ tab' Hwf' Hact').
  - intros url newTabId ai now t Ht.
    destruct (navigate_step s url newTabId ai now Hwf) as (s' & Hs' & Hwf' & _ & Hm).
    rewrite Ht in Hm. destruct Hm as (tab' & Hf' & ? & ?).
    exists s', tab'. repeat split; try done.
    all: by apply (well_formed_found s' _ tab' Hwf' Hf').
Qed.

(** *** Navigation with deferred effects still pending

    The invariant does not depend on the deferred effects having taken place
    before the next event: they never assign [history] or [historyIndex]. *)

Lemma navigation_handled ev s :
  is_navigation ev -> well_formed s ->
  exists s1,
    perform_all (sync (handle ev s)) s = Some s1 /\
    well_formed s1 /\
    forallb neutral (deferred (handle ev s)) = true.
Proof.
  intros Hev Hwf. destruct (well_formed_active s Hwf) as (tab & Hactive & Hok).
  unfold history_ok in Hok.
  assert (Hmove : forall newIndex ai now,
    0 <= newIndex < Z.of_nat (length (BrowserTab.history tab)) ->
    exists s1,
      perform_all (sync (move_to s tab newIndex ai now)) s = Some s1 /\
      well_formed s1 /\
      forallb neutral (deferred (move_to s tab newIndex ai now)) = true).
  { intros newIndex ai now Hrange.
    destruct (js_index_in_range _ _ Hrange) as (target & Htarget).
    destruct (move_to_shape s tab newIndex ai now target Htarget)
      as (rest & -> & Hrest & Hdef).
    destruct (update_then_neutral s (activeTabId s) [HistoryIndex newIndex; Url target]
                rest tab Hwf Hactive) as (s1 & _ & Hs1 & Hwf1 & _); [done|done|].
    by exists s1. }
  destruct ev; try done; simpl.
  - destruct (find_tab (target_of s newTabId) (tabs s)) as [t|] eqn:Hf.
    + destruct (handleNavigate_shape s url newTabId ai now t Hf)
        as (updates & rest & -> & Hrest & Hdef & Hh & Hx).
      pose proof (well_formed_found _ _ _ Hwf Hf) as Hokt.
      destruct (slice0_push (BrowserTab.history t) (BrowserTab.historyIndex t) url Hokt)
        as [_ Hlen].
      destruct (update_then_neutral s _ updates rest t Hwf Hf)
        as (s1 & _ & Hs1 & Hwf1 & _); [|done|by exists s1].
      unfold history_ok. by rewrite Hh, Hx.
    + unfold handleNavigate. rewrite Hf. by exists s.
  - unfold handleBack. rewrite Hactive.
    destruct (0 <? _)%Z eqn:Hg; [|by exists s].
    apply Z.ltb_lt in Hg. apply Hmove. lia.
  - unfold handleForward. rewrite Hactive.
    destruct (_ <? _)%Z eqn:Hg; [|by exists s].
    apply Z.ltb_lt in Hg. apply Hmove. lia.
Qed.

Lemma world_step_calm w w' :
  world_step is_navigation w w' -> calm w -> calm w'.
Proof.
  intros Hstep [Hwf Hp]. destruct Hstep as [ev s p s1 Hev Hs1|s p1 e p2 s1 He]; simpl in *.
  - destruct (navigation_handled ev s Hev Hwf) as (s1' & Hs1' & Hwf1 & Hdef).
    rewrite Hs1 in Hs1'. injection Hs1' as <-.
    split; [done|]. simpl. rewrite forallb_app. by rewrite Hp, Hdef.
  - rewrite forallb_app in Hp. simpl in Hp.
    apply andb_true_iff in Hp as [Hp1 [Hn Hp2]%andb_true_iff].
    destruct (neutral_perform e s Hn) as (s1' & Hs1' & Hsk).
    rewrite He in Hs1'. injection Hs1' as <-.
    split; [by apply (skeleton_well_formed s)|].
    simpl. rewrite forallb_app. by rewrite Hp1, Hp2.
Qed.

(** From the initial state, whatever the order in which navigation events
    arrive and deferred effects land, the history index of every tab stays
    within its history, every navigation event is handled without a fault,
    and every pending effect can land. *)
Theorem navigation_interleaved id0 cache w :
  rtc (world_step is_navigation) (mkWorld (initial id0 cache) []) w ->
  Forall history_ok (tabs (state w)) /\
  (forall ev, is_navigation ev ->
     exists s1, perform_all (sync (handle ev (state w))) (state w) = Some s1) /\
  (forall p1 e p2, pending w = (p1 ++ e :: p2)%list ->
     exists s1, perform e (state w) = Some s1).
Proof.
  intros Hrun.
  assert (Hcalm : calm w).
  { assert (Hinit : calm (mkWorld (initial id0 cache) [])).
    { split; [apply initial_well_formed | done]. }
    revert Hinit. induction Hrun as [|w0 w1 w2 Hstep _ IH]; [done|].
    intros Hc. by apply IH, (world_step_calm w0). }
  destruct Hcalm as [Hwf Hp]. split_and!.
  - apply Hwf.
  - intros ev Hev. destruct (navigation_handled ev _ Hev Hwf) as (s1 & ? & _). by exists s1.
  - intros p1 e p2 Hpend. rewrite Hpend, forallb_app in Hp. simpl in Hp.
    apply andb_true_iff in Hp as [_ [Hn _]%andb_true_iff].
    destruct (neutral_perform e (state w) Hn) as (s1 & ? & _). by exists s1.
Qed.

(** ** Opening and closing tabs *)

Lemma newTab_step s i :
  tabs_ok s -> i ∉ tab_ids s ->
  exists s',
    step (NewTab i) s = Some s' /\ tabs_ok s' /\
    tab_ids s' = (tab_ids s ++ [i])%list /\
    (Forall history_ok (tabs s) -> Forall history_ok (tabs s')).
Proof.
  intros [Hnd Hact] Hi. eexists. split; [reflexivity|].
  unfold tabs_ok, tab_ids in *. simpl. rewrite map_app. simpl.
  split_and!; [|apply elem_of_app; right; by apply list_elem_of_singleton|done|].
  - apply NoDup_app. split_and!; [done| |apply NoDup_singleton].
    intros x Hx Hxi. apply list_elem_of_singleton in Hxi. by subst.
  - intros Hok. apply Forall_app. split; [done|].
    repeat constructor; simpl; lia.
Qed.

Lemma others_history_ok j ts :
  Forall history_ok ts -> Forall history_ok (others j ts).
Proof.
  rewrite !Forall_forall. intros Hok t Ht. apply Hok.
  apply list_elem_of_In. apply list_elem_of_In in Ht.
  unfold others in Ht. by apply filter_In in Ht as [? _].
Qed.

Lemma others_ids j ts x :
  x ∈ map BrowserTab.id (others j ts) <-> x ∈ map BrowserTab.id ts /\ x <> j.
Proof.
  unfold others. induction ts as [|a ts IH]; simpl.
  - split; [by intros ?%elem_of_nil | by intros [?%elem_of_nil _]].
  - case_bool_decide as Ha; simpl; rewrite ?elem_of_cons, IH; intuition congruence.
Qed.

Lemma others_NoDup j ts :
  NoDup (map BrowserTab.id ts) -> NoDup (map BrowserTab.id (others j ts)).
Proof.
  induction ts as [|a ts IH]; simpl; [done|].
  intros [Ha Hnd]%NoDup_cons. unfold others in *. simpl.
  case_bool_decide; simpl; [by apply IH|].
  apply NoDup_cons. split; [|by apply IH].
  intros Hin. apply Ha. by apply (others_ids j ts) in Hin as [? _].
Qed.

Lemma others_nonempty j ts :
  NoDup (map BrowserTab.id ts) -> ts <> [] -> length ts <> 1%nat -> others j ts <> [].
Proof.
  destruct ts as [|a [|b ts]]; [done|done|]. intros Hnd _ _.
  apply NoDup_cons in Hnd as [Hab _].
  assert (Hne : BrowserTab.id a <> BrowserTab.id b).
  { intros Heq. apply Hab. simpl. rewrite Heq. apply elem_of_cons. by left. }
  unfold others. simpl. repeat case_bool_decide; simpl; congruence.
Qed.

Lemma handleCloseTab_effects s j :
  tabs_ok s ->
  effects (handleCloseTab s j)
  = if decide (length (tabs s) = 1%nat) then []
    else if decide (activeTabId s = j)
         then match last (others j (tabs s)) with
              | Some t => [setTabs (others j (tabs s)); setActiveTabId (BrowserTab.id t)]
              | None => []
              end
         else [setTabs (others j (tabs s))].
Proof.
  intros [Hnd Hact]. unfold handleCloseTab.
  destruct (decide (length _ = _)) as [|Hlen]; [done|].
  destruct (decide (activeTabId s = j)); [|done].
  destruct (last _) eqn:Hlast; [done|].
  apply last_None in Hlast. exfalso.
  apply (others_nonempty j (tabs s)); try done.
  intros Hnil. unfold tab_ids in Hact. rewrite Hnil in Hact. by apply elem_of_nil in Hact.
Qed.

Lemma closeTab_step s j :
  tabs_ok s ->
  exists s',
    step (CloseTab j) s = Some s' /\ tabs_ok s' /\
    (forall x, x ∈ tab_ids s' -> x ∈ tab_ids s) /\
    (length (tabs s) = 1%nat -> s' = s) /\
    (length (tabs s) <> 1%nat -> activeTabId s = j ->
       tabs s' = others j (tabs s) /\
       exists t, last (tabs s') = Some t /\ activeTabId s' = BrowserTab.id t) /\
    (Forall history_ok (tabs s) -> Forall history_ok (tabs s')).
Proof.
  intros Hok. pose proof Hok as [Hnd Hact].
  unfold step, settle. simpl. rewrite handleCloseTab_effects by done.
  destruct (decide (length _ = _)) as [Hlen|Hlen]; [by exists s|].
  destruct (decide (activeTabId s = j)) as [Hj|Hj].
  - destruct (last (others j (tabs s))) as [t|] eqn:Hlast.
    + eexists. split; [reflexivity|]. unfold tabs_ok, tab_ids in *. simpl.
      split_and!; try done.
      * by apply others_NoDup.
      * apply list_elem_of_In, in_map, list_elem_of_In, (last_Some_elem_of _ _ Hlast).
      * intros x Hx. by apply others_ids in Hx as [? _].
      * intros _ _. split; [done|]. by exists t.
      * apply others_history_ok.
    + apply last_None in Hlast. exfalso.
      apply (others_nonempty j (tabs s)); try done.
      intros Hnil. unfold tab_ids in Hact. rewrite Hnil in Hact.
      by apply elem_of_nil in Hact.
  - eexists. split; [reflexivity|]. unfold tabs_ok, tab_ids in *. simpl.
    split_and!; try done.
    + by apply others_NoDup.
    + by apply others_ids.
    + intros x Hx. by apply others_ids in Hx as [? _].
    + apply others_history_ok.
Qed.

Lemma tab_steps evs s used :
  Forall is_tab_event evs -> tabs_ok s ->
  (forall x, x ∈ tab_ids s -> x ∈ used) ->
  NoDup (used ++ new_ids evs) ->
  exists s', steps evs s = Some s' /\ tabs_ok s'.
Proof.
  revert s used.
  induction evs as [|ev evs IH]; intros s used Hevs Hok Hused Hnd; simpl; [by exists s|].
  apply Forall_cons in Hevs as [Hev Hevs]. destruct ev; try done; simpl in Hnd.
  - assert (Hfresh : newId ∉ tab_ids s).
    { intros Hin%Hused. apply NoDup_app in Hnd as (_ & Hdisj & _).
      apply (Hdisj newId Hin), elem_of_cons. by left. }
    destruct (newTab_step s newId Hok Hfresh) as (s1 & -> & Hok1 & Hids1 & _).
    apply (IH s1 (used ++ [newId])%list); try done.
    + intros x. rewrite Hids1, !elem_of_app. intros [Hx|Hx]; [left; by apply Hused | by right].
    + by rewrite <- app_assoc.
  - destruct (closeTab_step s id Hok) as (s1 & -> & Hok1 & Hsub & _).
    apply (IH s1 used); try done. intros x Hx. by apply Hused, Hsub.
Qed.

(** C10.  From the initial state, when the identifiers that [generateId]
    draws are distinct from one another and from that of the first tab,
    every sequence of new-tab and close-tab events runs to a state with at
    least one tab in which [getActiveTab] finds the active tab.  In every
    such state, closing a tab when it is the only one changes nothing, and
    closing the active tab otherwise makes the last remaining tab active. *)
Theorem open_tabs_never_empty
    (id0 : string) (cache : gmap string CachedSiteData.t) (evs : list Event) :
  Forall is_tab_event evs ->
  NoDup (id0 :: new_ids evs) ->
  exists s,
    steps evs (initial id0 cache) = Some s /\
    tabs s <> [] /\
    (exists t, getActiveTab s = Some t) /\
    (forall id, length (tabs s) = 1%nat ->
       handleCloseTab s id = nothing /\ step (CloseTab id) s = Some s) /\
    (forall id, length (tabs s) <> 1%nat -> activeTabId s = id ->
       exists s' t,
         step (CloseTab id) s = Some s' /\
         tabs s' = others id (tabs s) /\
         last (tabs s') = Some t /\
         activeTabId s' = BrowserTab.id t /\
         getActiveTab s' = Some t).
Proof.
  intros Hevs Hnd.
  destruct (tab_steps evs (initial id0 cache) [id0] Hevs) as (s & Hs & Hok); try done.
  { apply (initial_well_formed id0 cache). }
  exists s. pose proof Hok as [Hnds Hact].
  destruct (find_tab_is_Some _ _ Hact) as (t & Ht).
  split_and!; try done.
  - intros Hnil. unfold tab_ids in Hact. rewrite Hnil in Hact. by apply elem_of_nil in Hact.
  - by exists t.
  - intros id Hlen. split.
    + unfold handleCloseTab. by destruct (decide _).
    + destruct (closeTab_step s id Hok) as (s' & Hs' & _ & _ & Hsame & _ & _).
      by rewrite Hs', (Hsame Hlen).
  - intros id Hlen Hid.
    destruct (closeTab_step s id Hok) as (s' & Hs' & [Hnd' Hact'] & _ & _ & Hclose & _).
    destruct (Hclose Hlen Hid) as (Htabs & t' & Hlast & Hactive).
    exists s', t'. split_and!; try done.
    destruct (find_tab_is_Some _ _ Hact') as (t'' & Ht'').
    unfold getActiveTab. rewrite Ht''. f_equal. symmetry.
    apply (find_tab_unique (tabs s') (activeTabId s') t'' t' Hnd' Ht'').
    + apply list_elem_of_In, (last_Some_elem_of _ _ Hlast).
    + by rewrite Hactive.
Qed.

(** ** The invariants under every event *)

Lemma harmless_perform e s s' :
  harmless e = true -> perform e s = Some s' -> skeleton s' = skeleton s.
Proof.
  revert s'. induction e; simpl; intros s' Hh Ha; try done;
    try (by injection Ha as <-).
  - destruct (updateCache_updater _ _ _ _); [|done]. by injection Ha as <-.
  - injection Ha as <-. unfold skeleton. simpl. f_equal.
    by apply (updateTab_updater_sk id updates (tabs s)).
  - by apply IHe.
Qed.

Lemma harmless_perform_all es s s' :
  forallb harmless es = true -> perform_all es s = Some s' -> skeleton s' = skeleton s.
Proof.
  revert s. induction es as [|e es IH]; intros s Hh Ha; simpl in *.
  - by injection Ha as <-.
  - apply andb_true_iff in Hh as [He Hes].
    destruct (perform e s) as [s1|] eqn:H1; [|done].
    rewrite (IH s1 Hes Ha). by apply (harmless_perform e).
Qed.

Lemma neutral_harmless es : forallb neutral es = true -> forallb harmless es = true.
Proof.
  induction es as [|e es IH]; simpl; [done|].
  intros [He Hes]%andb_true_iff. rewrite IH by done.
  rewrite andb_true_r. clear IH Hes.
  induction e; simpl in *; try done. by apply IHe.
Qed.

Lemma reload_harmless s url tabId ai now :
  forallb harmless (sync (reloadContentForUrl s url tabId ai now)) = true /\
  forallb harmless (deferred (reloadContentForUrl s url tabId ai now)) = true.
Proof.
  destruct (reload_neutral s url tabId ai now) as [Hs Hd].
  split; by apply neutral_harmless.
Qed.

Lemma set_status_and_reload_harmless s active newStatus between last ai now now' :
  forallb harmless between = true -> forallb harmless last = true ->
  forallb harmless
    (effects (set_status_and_reload s active newStatus between last ai now now')) = true.
Proof.
  intros Hb Hl. unfold set_status_and_reload, effects. simpl.
  destruct (reload_harmless s (BrowserTab.url active) (BrowserTab.id active) ai now')
    as [Hs Hd].
  rewrite !forallb_app. by rewrite Hb, Hs, Hl, Hd.
Qed.

(** The handlers that assign neither [tabs] as a whole, nor [activeTabId],
    nor the history of a tab. *)
Lemma status_handlers_harmless ev s :
  match ev with
  | Reload _ _ | OpenCourt _ | Block _ _ _ _ | Slow _ _ _ | Unrestrict _ _ _
  | CourtClose _ _ _ _ | ChatSendMessage _ _ _ _ => True
  | _ => False
  end ->
  forallb harmless (effects (handle ev s)) = true.
Proof.
  destruct ev; try done; intros _; simpl.
  - unfold reloadTab. repeat case_match; reflexivity.
  - unfold handleOpenCourt. repeat case_match; reflexivity.
  - unfold handleBlock. repeat case_match; try reflexivity;
      by apply set_status_and_reload_harmless.
  - unfold handleSlow. repeat case_match; try reflexivity;
      by apply set_status_and_reload_harmless.
  - unfold handleUnrestrict. repeat case_match; try reflexivity;
      by apply set_status_and_reload_harmless.
  - unfold handleCourtClose. repeat case_match; try reflexivity;
      by apply set_status_and_reload_harmless.
  - unfold handleChatSendMessage. destruct (getActiveTab s) as [tab|]; [|done].
    destruct (decide _); [done|].
    destruct (reload_harmless s (BrowserTab.url tab) (BrowserTab.id tab) gen
                (reload_saved_at k)) as [Hs Hd].
    unfold effects, chat_exchange. simpl.
    destruct (destructure_reply _) as [[replied agreed]|]; simpl; [|done].
    destruct (is_truthy agreed); simpl; [|done].
    rewrite forallb_app. by rewrite Hs, Hd.
Qed.

Lemma search_step s query r s' :
  well_formed s -> step (Search query r) s = Some s' -> well_formed s'.
Proof.
  intros Hwf. destruct (well_formed_active s Hwf) as (active & Hactive & Hok).
  unfold step, settle. simpl. unfold handleSearch. rewrite Hactive.
  destruct (decide _) as [Hhome|Hhome].
  - intros Hs'. apply (skeleton_well_formed s); [|done].
    by apply (harmless_perform_all _ s s') in Hs'.
  - destruct (handleNavigate_shape s home_url None (AiRejected None) 0 active Hactive)
      as (updates & rest & Hsync & Hrest & Hdef & Hh & Hx).
    unfold effects. simpl. rewrite Hsync. simpl.
    set (s0 := mkAppState _ _ _ true _ _ _ _ _ _).
    set (tail := (rest ++ _)%list).
    assert (Hwf0 : well_formed s0) by done.
    destruct (slice0_push (BrowserTab.history active) (BrowserTab.historyIndex active)
                home_url Hok) as [_ Hlen].
    destruct (update_then_neutral s0 (target_of s None) updates tail active Hwf0 Hactive)
      as (s1 & _ & Hs1 & Hwf1 & _).
    { unfold history_ok. by rewrite Hh, Hx. }
    { unfold tail. rewrite !forallb_app. by rewrite Hrest, Hdef. }
    simpl in Hs1. rewrite Hs1. by intros [= <-].
Qed.

(** Every event that is handled to completion keeps the state well formed:
    distinct tab identifiers, an active tab that exists, and every history
    index within its history. *)
Theorem step_well_formed ev s s' :
  well_formed s -> allowed ev s -> step ev s = Some s' -> well_formed s'.
Proof.
  intros Hwf Hallowed Hstep. pose proof Hwf as [Hok Hhist].
  destruct ev;
    try (apply (skeleton_well_formed s); [|done];
         match type of Hstep with
         | step ?ev _ = _ =>
             by apply (harmless_perform_all _ _ _ (status_handlers_harmless ev s I) Hstep)
         end).
  - destruct (newTab_step s newId Hok Hallowed) as (s1 & Hs1 & Hok1 & _ & Hh1).
    rewrite Hs1 in Hstep. injection Hstep as <-. split; [done | by apply Hh1].
  - destruct (closeTab_step s id Hok) as (s1 & Hs1 & Hok1 & _ & _ & _ & Hh1).
    rewrite Hs1 in Hstep. injection Hstep as <-. split; [done | by apply Hh1].
  - injection Hstep as <-. destruct Hok as [Hnd _]. by split_and!.
  - destruct (navigation_step (Navigate url newTabId ai now) s I Hwf) as (s1 & Hs1 & Hwf1).
    rewrite Hs1 in Hstep. by injection Hstep as <-.
  - destruct (navigation_step (Back ai now) s I Hwf) as (s1 & Hs1 & Hwf1).
    rewrite Hs1 in Hstep. by injection Hstep as <-.
  - destruct (navigation_step (Forward ai now) s I Hwf) as (s1 & Hs1 & Hwf1).
    rewrite Hs1 in Hstep. by injection Hstep as <-.
  - by apply (search_step s query r).
Qed.

(** After every sequence of events of any kind, each handled to completion,
    the tabs have distinct identifiers, [getActiveTab] finds the active tab,
    and every history index lies within its history. *)
Theorem steps_well_formed evs s s' :
  well_formed s -> all_allowed evs s -> steps evs s = Some s' ->
  well_formed s' /\ exists tab, getActiveTab s' = Some tab /\ history_ok tab.
Proof.
  revert s. induction evs as [|ev evs IH]; intros s Hwf Hall Hsteps; simpl in *.
  - injection Hsteps as <-. split; [done | by apply well_formed_active].
  - destruct Hall as [Hev Hall].
    destruct (step ev s) as [s1|] eqn:Hs1; [|done].
    apply (IH s1); [by apply (step_well_formed ev s) | by apply Hall | done].
Qed.

(** ** Code fences *)

Lemma fence_match_prefix s :
  fence_match s = if String.prefix "```" s then Some 3%nat else None.
Proof.
  destruct s as [|c1 s]; [done|].
  destruct c1 as [[] [] [] [] [] [] [] []]; try done.
  destruct s as [|c2 s]; [done|].
  destruct c2 as [[] [] [] [] [] [] [] []]; try done.
  destruct s as [|c3 s]; [done|].
  destruct c3 as [[] [] [] [] [] [] [] []]; try done.
  by destruct s.
Qed.

Lemma fence_open_match_prefix s :
  String.prefix "```" s = false -> fence_open_match s = None.
Proof.
  destruct s as [|c1 s]; [done|].
  destruct c1 as [[] [] [] [] [] [] [] []]; try done.
  destruct s as [|c2 s]; [done|].
  destruct c2 as [[] [] [] [] [] [] [] []]; try done.
  destruct s as [|c3 s]; [done|].
  destruct c3 as [[] [] [] [] [] [] [] []]; try done.
  by destruct s.
Qed.

Lemma remove_fence_cons c r :
  remove_matches fence_match O (String c r)
  = if String.prefix "```" (String c r)
    then remove_matches fence_match 2 r
    else String c (remove_matches fence_match O r).
Proof.
  change (remove_matches fence_match O (String c r))
    with (match fence_match (String c r) with
          | Some (S k) => remove_matches fence_match k r
          | _ => String c (remove_matches fence_match O r)
          end).
  rewrite fence_match_prefix. by destruct (String.prefix _ _).
Qed.

Lemma includes_cons x c r :
  includes x (String c r) = String.prefix x (String c r) || includes x r.
Proof. reflexivity. Qed.

Lemma includes_prefix x s : includes x s = false -> String.prefix x s = false.
Proof. destruct s; simpl; by intros [? _]%orb_false_elim. Qed.

Lemma string_prefix_cons a x c r :
  String.prefix (String a x) (String c r)
  = if ascii_dec a c then String.prefix x r else false.
Proof. reflexivity. Qed.

Lemma string_prefix_nil s : String.prefix "" s = true.
Proof. by destruct s. Qed.

Ltac by_first_characters :=
  repeat first [ rewrite remove_fence_cons | rewrite string_prefix_cons | rewrite string_prefix_nil
               | match goal with
                 | |- context [ascii_dec ?a ?b] => destruct (ascii_dec a b); try done
                 end ].

(** Removing fences never leaves two backquotes at the head of a text that
    did not start with two. *)
Lemma remove_fence_head r :
  String.prefix "``" r = false ->
  String.prefix "``" (remove_matches fence_match O r) = false.
Proof.
  destruct r as [|c2 r]; [done|]. rewrite string_prefix_cons.
  destruct (ascii_dec "`" c2) as [<-|Hc2].
  - destruct r as [|c3 r]; [done|]. rewrite string_prefix_cons.
    destruct (ascii_dec "`" c3) as [<-|Hc3]; [by rewrite string_prefix_nil|].
    intros _. by_first_characters.
  - intros _. by_first_characters.
Qed.

Lemma remove_fence_bounded (n : nat) (s : string) :
  (String.length s <= n)%nat ->
  includes "```" (remove_matches fence_match O s) = false.
Proof.
  revert s. induction n as [|n IH]; intros s Hn.
  { destruct s; [done | simpl in Hn; lia]. }
  destruct s as [|c r]; [done|].
  assert (Hr : includes "```" (remove_matches fence_match O r) = false).
  { apply IH. simpl in Hn. lia. }
  rewrite remove_fence_cons.
  destruct (String.prefix "```" (String c r)) eqn:Hp.
  - destruct r as [|c2 [|c3 r]]; try done.
    apply IH. simpl in Hn. lia.
  - rewrite includes_cons, Hr, orb_false_r.
    rewrite string_prefix_cons in *.
    destruct (ascii_dec "`" c); [|done].
    by apply remove_fence_head.
Qed.

(** X1.  The text that [cleanResponse] hands to [trim] contains no code fence:
    after the two replacements no three backquotes stand in a row, whatever
    the reply was (also where removing a fence brings backquotes together). *)
Theorem cleaned_text_has_no_fence (t : string) :
  includes "```" (remove_matches fence_match O (remove_matches fence_open_match O t))
  = false.
Proof. by apply (remove_fence_bounded (String.length (remove_matches fence_open_match O t))). Qed.

Lemma remove_matches_unmatched (m : string -> option nat) (s : string) :
  (forall t, String.prefix "```" t = false -> m t = None) ->
  includes "```" s = false -> remove_matches m O s = s.
Proof.
  intros Hm. induction s as [|c r IH]; [done|].
  rewrite includes_cons. intros [Hp Hr]%orb_false_elim.
  simpl. rewrite (Hm _ Hp). by rewrite IH.
Qed.

(** X2.  A reply without a code fence is only trimmed, and an undefined or
    empty reply is cleaned to the empty string. *)
Theorem cleanResponse_without_fence (t : string) :
  includes "```" t = false ->
  cleanResponse (Some t) = (if is_empty t then "" else trim t) /\
  cleanResponse None = "".
Proof.
  intros Ht. split; [|done]. unfold cleanResponse.
  destruct (is_empty t); [done|].
  rewrite (remove_matches_unmatched fence_open_match t fence_open_match_prefix Ht).
  rewrite (remove_matches_unmatched fence_match t); [done| |done].
  intros u Hu. by rewrite fence_match_prefix, Hu.
Qed.

(** ** What a navigation leaves on the tab *)

Lemma cached_content_Some c r html :
  cached_content c = Some (r, html) ->
  c = Some r /\ CachedSiteData.content r = Some html /\ is_empty html = false.
Proof.
  unfold cached_content. destruct c as [r0|]; [|done].
  destruct (CachedSiteData.content r0) as [h|] eqn:Hcontent; [|done].
  destruct (is_empty h) eqn:Hempty; [done|].
  intros [= <- <-]. by rewrite Hcontent.
Qed.

Lemma generatePageContent_truthy url title isCensored ai :
  is_empty (generatePageContent url title isCensored ai) = false.
Proof. by destruct ai. Qed.

Lemma existing_or_default_parsed url now prev h :
  hostname url = Some h ->
  existing_or_default url now prev
  = Some (default (CachedSiteData.mk url h None NORMAL [] now) (prev !! url)).
Proof.
  intros Hh. unfold existing_or_default, default_site.
  destruct (prev !! url); [done|]. by rewrite Hh.
Qed.

(** X3.  A navigation to a page that has a record copies the record, as it
    is when the navigation starts, to the tab: the tab shows the URL with
    that status and that transcript, it is no longer loading, and the chat
    window is closed.  The record keeps its transcript.  It stays as it was
    when it is BLOCKED, has content to show, or the URL does not parse; when
    a page is generated for it, its status becomes NORMAL, so that tab and
    record then differ in status unless the status was NORMAL before. *)
Theorem navigate_copies_record_to_tab
    (s : AppState) (url : string) (newTabId : option string)
    (ai : AiResult) (now : Z) (tab : BrowserTab.t) (site : CachedSiteData.t) :
  url <> home_url ->
  find_tab (target_of s newTabId) (tabs s) = Some tab ->
  siteCache s !! url = Some site ->
  exists s' tab' site',
    settle (handleNavigate s url newTabId ai now) s = Some s' /\
    find_tab (target_of s newTabId) (tabs s') = Some tab' /\
    BrowserTab.url tab' = url /\
    BrowserTab.status tab' = CachedSiteData.status site /\
    BrowserTab.chatHistory tab' = CachedSiteData.chatHistory site /\
    BrowserTab.isLoading tab' = false /\
    isChatOpen s' = false /\
    siteCache s' !! url = Some site' /\
    CachedSiteData.chatHistory site' = CachedSiteData.chatHistory site /\
    (CachedSiteData.status site = BLOCKED \/ cached_content (Some site) <> None
     \/ hostname url = None ->
       siteCache s' = siteCache s /\ site' = site) /\
    (CachedSiteData.status site <> BLOCKED -> cached_content (Some site) = None ->
     forall title, hostname url = Some title ->
       CachedSiteData.status site' = NORMAL /\
       CachedSiteData.content site'
         = Some (generatePageContent url title
                   (bool_decide (CachedSiteData.status site = CONTENT_REMOVED)) ai) /\
       BrowserTab.content tab' = CachedSiteData.content site').
Proof.
  intros Hhome Htab Hsite. unfold handleNavigate. rewrite Htab.
  destruct (decide (url = home_url)); [done|].
  rewrite Hsite. simpl status_or.
  destruct (decide (CachedSiteData.status site = BLOCKED)) as [Hb|Hb].
  { unfold settle, effects. simpl. eexists _, _, _. split; [reflexivity|]. simpl.
    rewrite !find_tab_updateTab_eq, Htab. simpl.
    split_and!; try reflexivity; try done. }
  destruct (cached_content (Some site)) as [[c html]|] eqn:Hc.
  { unfold settle, effects. simpl. eexists _, _, _. split; [reflexivity|]. simpl.
    rewrite !find_tab_updateTab_eq, Htab. simpl.
    split_and!; try reflexivity; try done. }
  destruct (hostname url) as [h|] eqn:Hh.
  - unfold settle, effects. simpl.
    rewrite updateCache_updater_eq, (existing_or_default_present _ _ _ _ Hsite). simpl.
    eexists _, _, _. split; [reflexivity|]. simpl.
    rewrite lookup_insert_eq, !find_tab_updateTab_eq, Htab. simpl.
    split_and!; try reflexivity.
    + by intros [?|[?|?]].
    + intros _ _ title [= <-]. by split_and!.
  - unfold settle, effects. simpl. eexists _, _, _. split; [reflexivity|]. simpl.
    rewrite !find_tab_updateTab_eq, Htab. simpl.
    split_and!; try reflexivity; try done.
Qed.

(** X4.  What the viewport shows once a navigation to a page has settled,
    case by case and in the order in which [handleNavigate] tests them: the
    error page ERR_CONNECTION_RESET with the legal notice when the record is
    BLOCKED, whether or not it has content; otherwise the cached page when
    the record has content to show; otherwise the generated page when the
    URL parses, and the error page ERR_CONNECTION_TIMED_OUT without the
    legal notice when it does not.  It never shows the loading state and
    never nothing. *)
Theorem navigate_shows_page_or_error
    (s : AppState) (url : string) (newTabId : option string)
    (ai : AiResult) (now : Z) (tab : BrowserTab.t) :
  url <> home_url ->
  find_tab (target_of s newTabId) (tabs s) = Some tab ->
  let record := siteCache s !! url in
  exists s' tab',
    settle (handleNavigate s url newTabId ai now) s = Some s' /\
    find_tab (target_of s newTabId) (tabs s') = Some tab' /\
    viewport tab'
    = if decide (status_or NORMAL record = BLOCKED)
      then ErrorPage "ERR_CONNECTION_RESET" true
      else match cached_content record with
           | Some (_, html) => RenderedContent html
           | None =>
               match hostname url with
               | Some title =>
                   RenderedContent
                     (generatePageContent url title
                        (bool_decide (status_or NORMAL record = CONTENT_REMOVED)) ai)
               | None => ErrorPage "ERR_CONNECTION_TIMED_OUT" false
               end
           end.
Proof.
  intros Hhome Htab record. unfold handleNavigate. rewrite Htab.
  destruct (decide (url = home_url)); [done|]. fold record.
  destruct (decide (status_or NORMAL record = BLOCKED)) as [Hb|Hb].
  { unfold settle, effects. simpl. eexists _, _. split; [reflexivity|]. simpl.
    rewrite !find_tab_updateTab_eq, Htab. simpl. split; [reflexivity|].
    unfold viewport. simpl. destruct (decide (url = home_url)); [done|].
    by rewrite Hb. }
  destruct (cached_content record) as [[c html]|] eqn:Hc.
  { apply cached_content_Some in Hc as (_ & _ & Hne).
    unfold settle, effects. simpl. eexists _, _. split; [reflexivity|]. simpl.
    rewrite !find_tab_updateTab_eq, Htab. simpl. split; [reflexivity|].
    unfold viewport. simpl. destruct (decide (url = home_url)); [done|].
    by rewrite Hne. }
  destruct (hostname url) as [h|] eqn:Hh.
  - unfold settle, effects. simpl.
    rewrite updateCache_updater_eq, (existing_or_default_parsed _ _ _ h Hh). simpl.
    eexists _, _. split; [reflexivity|]. simpl.
    rewrite !find_tab_updateTab_eq, Htab. simpl. split; [reflexivity|].
    unfold viewport. simpl. destruct (decide (url = home_url)); [done|].
    by rewrite generatePageContent_truthy.
  - unfold settle, effects. simpl. eexists _, _. split; [reflexivity|]. simpl.
    rewrite !find_tab_updateTab_eq, Htab. simpl. split; [reflexivity|].
    unfold viewport. simpl. destruct (decide (url = home_url)); [done|].
    by rewrite bool_decide_eq_false_2.
Qed.

(** X5.  A navigation to a page whose record has usable content and is not
    BLOCKED is served from the cache: no call of the service layer, the cache
    stays as it is, and the tab ends with the record's content, title, status
    and transcript.  The page arrives after 5000 ms when the record is SLOWED
    and after 300 ms otherwise. *)
Theorem navigate_cached_serves_cache
    (s : AppState) (url : string) (newTabId : option string)
    (ai : AiResult) (now : Z) (tab : BrowserTab.t) (site : CachedSiteData.t)
    (html : string) :
  url <> home_url ->
  find_tab (target_of s newTabId) (tabs s) = Some tab ->
  siteCache s !! url = Some site ->
  CachedSiteData.status site <> BLOCKED ->
  cached_content (Some site) = Some (site, html) ->
  exists s' tab',
    settle (handleNavigate s url newTabId ai now) s = Some s' /\
    siteCache s' = siteCache s /\
    find_tab (target_of s newTabId) (tabs s') = Some tab' /\
    BrowserTab.content tab' = Some html /\
    BrowserTab.title tab' = CachedSiteData.title site /\
    BrowserTab.status tab' = CachedSiteData.status site /\
    BrowserTab.chatHistory tab' = CachedSiteData.chatHistory site /\
    BrowserTab.error tab' = None /\
    BrowserTab.isLoading tab' = false /\
    calls (effects (handleNavigate s url newTabId ai now)) = [] /\
    deferred (handleNavigate s url newTabId ai now)
      = [after (if bool_decide (CachedSiteData.status site = SLOWED) then 5000 else 300)
           (updateTab (target_of s newTabId)
              [IsLoading false; Content (Some html);
               Title (CachedSiteData.title site)])].
Proof.
  intros Hhome Htab Hsite Hnb Hcached.
  unfold handleNavigate. rewrite Htab.
  destruct (decide (url = home_url)); [done|].
  rewrite Hsite. simpl status_or.
  destruct (decide (_ = BLOCKED)); [done|].
  rewrite Hcached. unfold settle, effects. simpl.
  eexists _, _. split; [reflexivity|]. simpl.
  rewrite !find_tab_updateTab_eq, Htab. simpl.
  split_and!; reflexivity.
Qed.

(** X6.  A navigation to about:home makes no call and leaves the cache alone;
    the tab shows the home page without content or error, and keeps the
    status, the transcript and the loading flag it had.  The chat window is
    not closed. *)
Theorem navigate_home_clears_page
    (s : AppState) (newTabId : option string) (ai : AiResult) (now : Z)
    (tab : BrowserTab.t) :
  find_tab (target_of s newTabId) (tabs s) = Some tab ->
  exists s' tab',
    settle (handleNavigate s home_url newTabId ai now) s = Some s' /\
    siteCache s' = siteCache s /\
    isChatOpen s' = isChatOpen s /\
    find_tab (target_of s newTabId) (tabs s') = Some tab' /\
    BrowserTab.url tab' = home_url /\
    BrowserTab.title tab' = home_title /\
    BrowserTab.content tab' = None /\
    BrowserTab.error tab' = None /\
    BrowserTab.status tab' = BrowserTab.status tab /\
    BrowserTab.chatHistory tab' = BrowserTab.chatHistory tab /\
    BrowserTab.isLoading tab' = BrowserTab.isLoading tab /\
    viewport tab' = HomePage /\
    calls (effects (handleNavigate s home_url newTabId ai now)) = [].
Proof.
  intros Htab. unfold handleNavigate. rewrite Htab.
  destruct (decide (home_url = home_url)); [|done].
  unfold settle, effects. simpl.
  eexists _, _. split; [reflexivity|]. simpl.
  rewrite !find_tab_updateTab_eq, Htab. simpl.
  split_and!; reflexivity.
Qed.

(** ** Pages that are in the cache are not generated again *)

Lemma handleNavigate_cached_calls s url newTabId ai now site html :
  siteCache s !! url = Some site ->
  cached_content (Some site) = Some (site, html) ->
  calls (effects (handleNavigate s url newTabId ai now)) = [].
Proof.
  intros Hsite Hcached. unfold handleNavigate.
  destruct (find_tab _ _); [|done].
  destruct (decide (url = home_url)); [done|].
  rewrite Hsite. destruct (decide (_ = BLOCKED)); [done|].
  by rewrite Hcached.
Qed.

Lemma reloadContentForUrl_cached_calls s url tabId ai now site html :
  siteCache s !! url = Some site ->
  cached_content (Some site) = Some (site, html) ->
  calls (effects (reloadContentForUrl s url tabId ai now)) = [].
Proof.
  intros Hsite Hcached. unfold reloadContentForUrl.
  destruct (find_tab _ _); [|done].
  rewrite Hsite. destruct (decide (_ = BLOCKED)); [done|].
  by rewrite Hcached.
Qed.

(** X7.  A page is generated once.  When a navigation has generated a page,
    the record holds a non-empty content, and in the state it leaves no
    further navigation to the URL and no reload of it calls the service layer,
    whatever tab it is for. *)
Theorem generated_page_is_reused
    (s : AppState) (url : string) (newTabId : option string)
    (ai : AiResult) (now : Z) (tab : BrowserTab.t) (title : string) :
  url <> home_url ->
  find_tab (target_of s newTabId) (tabs s) = Some tab ->
  status_or NORMAL (siteCache s !! url) <> BLOCKED ->
  cached_content (siteCache s !! url) = None ->
  hostname url = Some title ->
  exists s' site' html,
    settle (handleNavigate s url newTabId ai now) s = Some s' /\
    siteCache s' !! url = Some site' /\
    cached_content (Some site') = Some (site', html) /\
    (forall newTabId' ai' now',
       calls (effects (handleNavigate s' url newTabId' ai' now')) = []) /\
    (forall tabId ai' now',
       calls (effects (reloadContentForUrl s' url tabId ai' now')) = []).
Proof.
  intros Hhome Htab Hnb Hnc Hhost.
  destruct (handleNavigate_generation s url newTabId ai now tab title
              Hhome Htab Hnb Hnc Hhost)
    as (s' & site' & _ & Hs' & Hsite' & Hcontent & _).
  assert (Hcached : cached_content (Some site')
                    = Some (site', generatePageContent url title
                              (bool_decide (status_or NORMAL (siteCache s !! url)
                                            = CONTENT_REMOVED)) ai)).
  { unfold cached_content. rewrite Hcontent.
    by rewrite generatePageContent_truthy. }
  eexists s', site', _. split_and!; [done..| |].
  - intros. by eapply handleNavigate_cached_calls.
  - intros. by eapply reloadContentForUrl_cached_calls.
Qed.

(** ** Reload, back and forward *)

(** X8.  Reloading a page brings the tab's status in line with the record (the
    tab keeps its own when there is no record), keeps its URL, title and
    transcript, and ends the loading.  A BLOCKED record gives the
    connection-reset error, and a record with usable content is shown without
    a call of the service layer and without a change of the cache. *)
Theorem reload_syncs_status_with_record
    (s : AppState) (ai : AiResult) (now : Z) (tab : BrowserTab.t) :
  getActiveTab s = Some tab ->
  BrowserTab.url tab <> home_url ->
  let record := siteCache s !! BrowserTab.url tab in
  exists s' tab',
    settle (reloadTab s ai now) s = Some s' /\
    getActiveTab s' = Some tab' /\
    BrowserTab.url tab' = BrowserTab.url tab /\
    BrowserTab.title tab' = BrowserTab.title tab /\
    BrowserTab.chatHistory tab' = BrowserTab.chatHistory tab /\
    BrowserTab.status tab' = status_or (BrowserTab.status tab) record /\
    BrowserTab.isLoading tab' = false /\
    (status_or (BrowserTab.status tab) record = BLOCKED ->
       BrowserTab.error tab' = Some "ERR_CONNECTION_RESET" /\
       siteCache s' = siteCache s /\
       calls (effects (reloadTab s ai now)) = []) /\
    (forall site html,
       status_or (BrowserTab.status tab) record <> BLOCKED ->
       cached_content record = Some (site, html) ->
       BrowserTab.content tab' = Some html /\
       BrowserTab.error tab' = None /\
       siteCache s' = siteCache s /\
       calls (effects (reloadTab s ai now)) = []).
Proof.
  intros Hactive Hhome record. unfold reloadTab. rewrite Hactive.
  destruct (decide (_ = home_url)); [done|]. fold record.
  unfold getActiveTab in *. unfold updateActiveTab.
  destruct (decide (status_or (BrowserTab.status tab) record = BLOCKED)) as [Hb|Hb].
  { unfold settle, effects. simpl. eexists _, _. split; [reflexivity|]. simpl.
    rewrite !find_tab_updateTab_eq, Hactive. simpl.
    split_and!; try reflexivity; [done|]. by intros site html Hnb. }
  destruct (cached_content record) as [[c html]|] eqn:Hc.
  { unfold settle, effects. simpl. eexists _, _. split; [reflexivity|]. simpl.
    rewrite !find_tab_updateTab_eq, Hactive. simpl.
    split_and!; try reflexivity; [done|]. by intros site html' _ [= <- <-]. }
  destruct (hostname (BrowserTab.url tab)) as [h|] eqn:Hh.
  - unfold settle, effects. simpl.
    rewrite updateCache_updater_eq, (existing_or_default_parsed _ _ _ h Hh). simpl.
    eexists _, _. split; [reflexivity|]. simpl.
    rewrite !find_tab_updateTab_eq, Hactive. simpl.
    split_and!; try reflexivity; done.
  - unfold settle, effects. simpl. eexists _, _. split; [reflexivity|]. simpl.
    rewrite !find_tab_updateTab_eq, Hactive. simpl.
    split_and!; try reflexivity; done.
Qed.

(** What a move along the history leaves on the active tab. *)
Lemma move_to_settled s tab newIndex ai now target :
  getActiveTab s = Some tab ->
  js_index (BrowserTab.history tab) newIndex = Some target ->
  exists s' tab',
    settle (move_to s tab newIndex ai now) s = Some s' /\
    getActiveTab s' = Some tab' /\
    BrowserTab.url tab' = target /\
    BrowserTab.historyIndex tab' = newIndex /\
    BrowserTab.history tab' = BrowserTab.history tab /\
    BrowserTab.chatHistory tab' = BrowserTab.chatHistory tab /\
    isChatOpen s' = isChatOpen s /\
    (target = home_url ->
       BrowserTab.content tab' = None /\ BrowserTab.error tab' = None /\
       BrowserTab.title tab' = home_title /\
       BrowserTab.status tab' = BrowserTab.status tab /\
       siteCache s' = siteCache s) /\
    (target <> home_url ->
       BrowserTab.status tab' = status_or (BrowserTab.status tab) (siteCache s !! target) /\
       BrowserTab.isLoading tab' = false /\
       (status_or (BrowserTab.status tab) (siteCache s !! target) = BLOCKED ->
          BrowserTab.error tab' = Some "ERR_CONNECTION_RESET" /\
          siteCache s' = siteCache s /\
          calls (effects (move_to s tab newIndex ai now)) = [])).
Proof.
  intros Hactive Htarget. unfold move_to. rewrite Htarget.
  pose proof (find_tab_id _ _ _ Hactive) as Hid.
  unfold getActiveTab in *. unfold updateActiveTab.
  destruct (decide (target = home_url)) as [Hhome|Hhome].
  { unfold settle, effects. simpl. eexists _, _. split; [reflexivity|]. simpl.
    rewrite !find_tab_updateTab_eq, Hactive. simpl.
    split_and!; try reflexivity; done. }
  unfold reloadContentForUrl. rewrite Hid, Hactive.
  set (record := siteCache s !! target).
  destruct (decide (status_or (BrowserTab.status tab) record = BLOCKED)) as [Hb|Hb].
  { unfold settle, effects. simpl. eexists _, _. split; [reflexivity|]. simpl.
    rewrite !find_tab_updateTab_eq, Hactive. simpl.
    split_and!; try reflexivity; [done|]. intros _. by split_and!. }
  destruct (cached_content record) as [[c html]|] eqn:Hc.
  { unfold settle, effects. simpl. eexists _, _. split; [reflexivity|]. simpl.
    rewrite !find_tab_updateTab_eq, Hactive. simpl.
    split_and!; try reflexivity; [done|]. intros _. by split_and!. }
  destruct (hostname target) as [h|] eqn:Hh.
  - unfold settle, effects. simpl.
    rewrite updateCache_updater_eq, (existing_or_default_parsed _ _ _ h Hh). simpl.
    eexists _, _. split; [reflexivity|]. simpl.
    rewrite !find_tab_updateTab_eq, Hactive. simpl.
    split_and!; try reflexivity; [done|]. intros _. by split_and!.
  - unfold settle, effects. simpl. eexists _, _. split; [reflexivity|]. simpl.
    rewrite !find_tab_updateTab_eq, Hactive. simpl.
    split_and!; try reflexivity; [done|]. intros _. by split_and!.
Qed.

(** X9.  Going back or forward shows the neighbouring entry of the history
    with the status of that entry's record, but with the transcript of the
    page that was left: the reload that follows the move copies the status to
    the tab and not the transcript.  The history itself and the chat window
    stay as they are; a BLOCKED entry gives the connection-reset error without
    a call of the service layer, and the home page is shown without content or
    error. *)
Theorem history_move_keeps_transcript
    (s : AppState) (ai : AiResult) (now : Z) (tab : BrowserTab.t)
    (forward : bool) (target : string) :
  getActiveTab s = Some tab ->
  let newIndex :=
    if forward then BrowserTab.historyIndex tab + 1 else BrowserTab.historyIndex tab - 1 in
  let run := if forward then handleForward s ai now else handleBack s ai now in
  (if forward
   then BrowserTab.historyIndex tab < Z.of_nat (length (BrowserTab.history tab)) - 1
   else 0 < BrowserTab.historyIndex tab) ->
  js_index (BrowserTab.history tab) newIndex = Some target ->
  exists s' tab',
    settle run s = Some s' /\
    getActiveTab s' = Some tab' /\
    BrowserTab.url tab' = target /\
    BrowserTab.historyIndex tab' = newIndex /\
    BrowserTab.history tab' = BrowserTab.history tab /\
    BrowserTab.chatHistory tab' = BrowserTab.chatHistory tab /\
    isChatOpen s' = isChatOpen s /\
    (target = home_url ->
       BrowserTab.content tab' = None /\ BrowserTab.error tab' = None /\
       BrowserTab.title tab' = home_title /\
       BrowserTab.status tab' = BrowserTab.status tab /\
       siteCache s' = siteCache s) /\
    (target <> home_url ->
       BrowserTab.status tab' = status_or (BrowserTab.status tab) (siteCache s !! target) /\
       BrowserTab.isLoading tab' = false /\
       (status_or (BrowserTab.status tab) (siteCache s !! target) = BLOCKED ->
          BrowserTab.error tab' = Some "ERR_CONNECTION_RESET" /\
          siteCache s' = siteCache s /\
          calls (effects run) = [])).
Proof.
  intros Hactive newIndex run Hmove Htarget.
  assert (Hrun : run = move_to s tab newIndex ai now).
  { unfold run, newIndex, handleForward, handleBack. rewrite Hactive.
    destruct forward.
    - by rewrite (proj2 (Z.ltb_lt _ _) Hmove).
    - by rewrite (proj2 (Z.ltb_lt _ _) Hmove). }
  rewrite Hrun. by apply move_to_settled.
Qed.

(** ** Search and the court *)

(** X10.  A search ends with the results of [searchWeb] on display and the
    spinner off; it makes the one call of [searchWeb], leaves the cache alone,
    and the active tab ends on the home page: untouched when it was there, and
    with about:home pushed on its history when it was not. *)
Theorem search_shows_results_on_home
    (s : AppState) (query : string) (r : AiResult) (active : BrowserTab.t) :
  getActiveTab s = Some active ->
  exists s' tab',
    settle (handleSearch s query r) s = Some s' /\
    isSearching s' = false /\
    searchResults s' = searchWeb query r /\
    siteCache s' = siteCache s /\
    getActiveTab s' = Some tab' /\
    BrowserTab.url tab' = home_url /\
    viewport tab' = HomePage /\
    calls (effects (handleSearch s query r)) = [call_searchWeb query] /\
    (BrowserTab.url active = home_url -> tab' = active) /\
    (BrowserTab.url active <> home_url ->
       BrowserTab.content tab' = None /\
       BrowserTab.history tab'
         = (slice0 (BrowserTab.history active) (BrowserTab.historyIndex active + 1)
            ++ [home_url])%list /\
       BrowserTab.historyIndex tab' = BrowserTab.historyIndex active + 1).
Proof.
  intros Hactive. unfold handleSearch. rewrite Hactive.
  unfold getActiveTab in *.
  destruct (decide (BrowserTab.url active = home_url)) as [Hhome|Hhome].
  - unfold settle, effects. simpl. eexists _, _. split; [reflexivity|]. simpl.
    split_and!; try reflexivity; try done.
    unfold viewport. by rewrite decide_True.
  - unfold handleNavigate. simpl target_of. rewrite Hactive.
    destruct (decide (home_url = home_url)); [|done].
    unfold settle, effects. simpl. eexists _, _. split; [reflexivity|]. simpl.
    rewrite !find_tab_updateTab_eq, Hactive. simpl.
    split_and!; try reflexivity; done.
Qed.

(** X11.  Opening the court does something only on a tab whose status is
    UNDER_APPEAL.  There it ends with the court window open, the loading
    over, and [currentVerdict] holding what [judgeCourtCase] returned: the
    fallback verdict, which upholds the block, when the call of the service
    is rejected and when [JSON.parse] throws on the cleaned reply, and
    otherwise the value the cleaned reply parses to, unchecked.  A reply
    that parses to null therefore leaves [currentVerdict] null: the loading
    is over and there is no verdict.  In every case the tabs and the cache
    stay as they are. *)
Theorem open_court_holds_what_the_judge_returned
    (s : AppState) (r : AiResult) (active : BrowserTab.t) :
  getActiveTab s = Some active ->
  exists s',
    settle (handleOpenCourt s r) s = Some s' /\
    tabs s' = tabs s /\ siteCache s' = siteCache s /\ activeTabId s' = activeTabId s /\
    (BrowserTab.status active <> UNDER_APPEAL -> s' = s) /\
    (BrowserTab.status active = UNDER_APPEAL ->
       isCourtOpen s' = true /\ isCourtLoading s' = false /\
       (forall message, r = AiRejected message ->
          currentVerdict s' = CourtVerdict_value court_fallback) /\
       (forall t, r = AiResponse t -> JSON_parse (cleanResponse t) = None ->
          currentVerdict s' = CourtVerdict_value court_fallback) /\
       (forall t parsed, r = AiResponse t ->
          JSON_parse (cleanResponse t) = Some parsed ->
          currentVerdict s' = parsed) /\
       (forall t, r = AiResponse t -> JSON_parse (cleanResponse t) = Some js_null ->
          is_truthy (currentVerdict s') = false) /\
       get "verdict" (CourtVerdict_value court_fallback) = js_string "UPHOLD").
Proof.
  intros Hactive. unfold handleOpenCourt. rewrite Hactive.
  destruct (decide (BrowserTab.status active = UNDER_APPEAL)) as [Hu|Hu].
  - unfold settle, effects. simpl. eexists. split; [reflexivity|]. simpl.
    split_and!; try reflexivity; try done. intros _.
    split_and!; try reflexivity.
    + by intros message ->.
    + intros t -> Hparse. simpl. by rewrite Hparse.
    + intros t parsed -> Hparse. simpl. by rewrite Hparse.
    + intros t -> Hparse. simpl. by rewrite Hparse.
  - exists s. by split_and!.
Qed.

(** ** The tabs an event leaves alone *)

Lemma perform_tabs i e s s' :
  updates_only i e = true -> perform e s = Some s' ->
  tabs s' = map (tab_effect e) (tabs s).
Proof.
  revert s'. induction e; simpl; intros s' Hu Hp; try done;
    try (injection Hp as <-; simpl; by rewrite map_id).
  - destruct (updateCache_updater _ _ _ _); [|done].
    injection Hp as <-. simpl. by rewrite map_id.
  - by injection Hp as <-.
  - by apply IHe.
Qed.

Lemma tab_effects_cons e es t : tab_effects (e :: es) t = tab_effects es (tab_effect e t).
Proof. reflexivity. Qed.

Lemma perform_all_tabs i es s s' :
  forallb (updates_only i) es = true -> perform_all es s = Some s' ->
  tabs s' = map (tab_effects es) (tabs s).
Proof.
  revert s. induction es as [|e es IH]; simpl; intros s Hu Hp.
  - injection Hp as <-. by rewrite map_id.
  - apply andb_true_iff in Hu as [He Hes].
    destruct (perform e s) as [s1|] eqn:H1; [|done].
    rewrite (IH s1 Hes Hp), (perform_tabs i e s s1 He H1), map_map.
    reflexivity.
Qed.

Lemma tab_effect_id e t : BrowserTab.id (tab_effect e t) = BrowserTab.id t.
Proof.
  induction e; simpl; try done.
  destruct (decide _); [apply tab_merge_id | done].
Qed.

Lemma tab_effects_id es t : BrowserTab.id (tab_effects es t) = BrowserTab.id t.
Proof.
  revert t. induction es as [|e es IH]; intros t; [done|].
  by rewrite tab_effects_cons, IH, tab_effect_id.
Qed.

Lemma tab_effect_other i e t :
  updates_only i e = true -> BrowserTab.id t <> i -> tab_effect e t = t.
Proof.
  induction e; simpl; try done.
  intros ->%bool_decide_eq_true Hne. by destruct (decide _).
Qed.

Lemma tab_effects_other i es t :
  forallb (updates_only i) es = true -> BrowserTab.id t <> i -> tab_effects es t = t.
Proof.
  induction es as [|e es IH]; [done|].
  intros [He Hes]%andb_true_iff Hne.
  rewrite tab_effects_cons, (tab_effect_other i e t He Hne). by apply IH.
Qed.

Lemma Forall2_map_self {A : Type} (P : A -> A -> Prop) (f : A -> A) (l : list A) :
  (forall x, P x (f x)) -> Forall2 P l (map f l).
Proof. intros Hf. induction l; simpl; by constructor. Qed.

Lemma reload_updates_only s url tabId ai now :
  forallb (updates_only tabId) (effects (reloadContentForUrl s url tabId ai now)) = true.
Proof.
  unfold reloadContentForUrl, effects.
  repeat case_match; simpl; by rewrite ?bool_decide_eq_true_2.
Qed.

Lemma set_status_and_reload_updates_only s active newStatus between last ai now now' :
  BrowserTab.id active = activeTabId s ->
  forallb (updates_only (activeTabId s)) between = true ->
  forallb (updates_only (activeTabId s)) last = true ->
  forallb (updates_only (activeTabId s))
    (effects (set_status_and_reload s active newStatus between last ai now now')) = true.
Proof.
  intros Hid Hb Hl.
  pose proof (reload_updates_only s (BrowserTab.url active) (BrowserTab.id active) ai now')
    as Hr.
  rewrite Hid in Hr. unfold effects in Hr. rewrite forallb_app in Hr.
  apply andb_true_iff in Hr as [Hs Hd].
  unfold set_status_and_reload, effects. simpl. rewrite Hid.
  rewrite !forallb_app, Hb, Hs, Hl, Hd. by rewrite bool_decide_eq_true_2.
Qed.

(** Apart from opening and closing tabs, every handler changes tabs only
    through [updateTab], and only the tab it works on. *)
Lemma handle_updates_only ev s :
  ~ is_tab_event ev ->
  forallb (updates_only (touched ev s)) (effects (handle ev s)) = true.
Proof.
  destruct ev; simpl; intros Hev; try done.
  - unfold handleNavigate. repeat case_match; simpl;
      by rewrite ?bool_decide_eq_true_2.
  - unfold reloadTab, updateActiveTab. repeat case_match; simpl;
      by rewrite ?bool_decide_eq_true_2.
  - unfold handleBack. destruct (getActiveTab s) as [tab|] eqn:Hactive; [|done].
    destruct (_ <? _)%Z; [|done]. unfold move_to, updateActiveTab.
    destruct (js_index _ _); [|done].
    destruct (decide _); simpl; [by rewrite ?bool_decide_eq_true_2|].
    rewrite bool_decide_eq_true_2 by done. simpl.
    rewrite <- (find_tab_id _ _ _ Hactive). apply reload_updates_only.
  - unfold handleForward. destruct (getActiveTab s) as [tab|] eqn:Hactive; [|done].
    destruct (_ <? _)%Z; [|done]. unfold move_to, updateActiveTab.
    destruct (js_index _ _); [|done].
    destruct (decide _); simpl; [by rewrite ?bool_decide_eq_true_2|].
    rewrite bool_decide_eq_true_2 by done. simpl.
    rewrite <- (find_tab_id _ _ _ Hactive). apply reload_updates_only.
  - unfold handleSearch. destruct (getActiveTab s) as [tab|] eqn:Hactive; [|done].
    destruct (decide _); [done|].
    unfold handleNavigate. simpl target_of. unfold getActiveTab in Hactive.
    rewrite Hactive. destruct (decide (home_url = home_url)); [|done].
    simpl. by rewrite ?bool_decide_eq_true_2.
  - unfold handleOpenCourt. by repeat case_match.
  - unfold handleBlock. destruct (getActiveTab s) as [tab|] eqn:Hactive; [|done].
    destruct (decide _); [done|].
    apply set_status_and_reload_updates_only;
      [by apply (find_tab_id _ _ _ Hactive) | done | by destruct willAppeal].
  - unfold handleSlow. destruct (getActiveTab s) as [tab|] eqn:Hactive; [|done].
    destruct (decide _); [done|].
    apply set_status_and_reload_updates_only;
      [by apply (find_tab_id _ _ _ Hactive) | done | done].
  - unfold handleUnrestrict. destruct (getActiveTab s) as [tab|] eqn:Hactive; [|done].
    destruct (decide _); [done|].
    apply set_status_and_reload_updates_only;
      [by apply (find_tab_id _ _ _ Hactive) | done | done].
  - unfold handleCourtClose. destruct (getActiveTab s) as [tab|] eqn:Hactive; [|done].
    apply set_status_and_reload_updates_only;
      [by apply (find_tab_id _ _ _ Hactive) | done | done].
  - unfold handleChatSendMessage.
    destruct (getActiveTab s) as [tab|] eqn:Hactive; [|done].
    destruct (decide _); [done|].
    pose proof (reload_updates_only s (BrowserTab.url tab) (BrowserTab.id tab) gen
                  (reload_saved_at k)) as Hr.
    rewrite (find_tab_id _ _ _ Hactive) in Hr.
    unfold effects, chat_exchange, updateActiveTab in *.
    destruct (destructure_reply _) as [[replied agreed]|]; simpl;
      rewrite !bool_decide_eq_true_2 by done; simpl; [|done].
    destruct (is_truthy agreed); simpl; [|done].
    by rewrite (find_tab_id _ _ _ Hactive).
Qed.

(** X12.  Tab isolation.  An event other than opening or closing a tab keeps
    the tabs in place, each with its identifier, and changes at most the tab
    it works on: the target of a navigation, the active tab otherwise.  Every
    other tab is left exactly as it was. *)
Theorem other_tabs_are_untouched (ev : Event) (s s' : AppState) :
  ~ is_tab_event ev ->
  step ev s = Some s' ->
  Forall2
    (fun t t' =>
       BrowserTab.id t' = BrowserTab.id t /\
       (BrowserTab.id t <> touched ev s -> t' = t))
    (tabs s) (tabs s').
Proof.
  intros Hev Hstep.
  pose proof (handle_updates_only ev s Hev) as Hu.
  rewrite (perform_all_tabs _ _ s s' Hu Hstep).
  apply Forall2_map_self. intros t. split.
  - apply tab_effects_id.
  - intros Hne. by apply (tab_effects_other (touched ev s)).
Qed.

(** ** No tab is left loading *)

Lemma loading_given_merge t updates :
  BrowserTab.isLoading (BrowserTab.merge t updates)
  = loading_given updates (BrowserTab.isLoading t).
Proof.
  unfold BrowserTab.merge, loading_given. revert t.
  induction updates as [|p updates IH]; intros t; [done|].
  simpl. rewrite IH. by destruct p.
Qed.

Lemma loading_after_tab_effect e t :
  BrowserTab.isLoading (tab_effect e t)
  = loading_after (BrowserTab.id t) (BrowserTab.isLoading t) e.
Proof.
  induction e; simpl; try done.
  destruct (decide (BrowserTab.id t = id)); [|done]. apply loading_given_merge.
Qed.

Lemma loading_after_tab_effects es t :
  BrowserTab.isLoading (tab_effects es t)
  = fold_left (loading_after (BrowserTab.id t)) es (BrowserTab.isLoading t).
Proof.
  revert t. induction es as [|e es IH]; intros t; [done|].
  rewrite tab_effects_cons, IH, tab_effect_id, loading_after_tab_effect.
  reflexivity.
Qed.

(** Every handler that starts the loading of a tab also ends it: on a tab
    that was not loading, the effects of an event leave [isLoading] false. *)
Lemma handle_ends_loading ev s i :
  ~ is_tab_event ev ->
  fold_left (loading_after i) (effects (handle ev s)) false = false.
Proof.
  destruct ev; simpl; intros Hev; try done;
    unfold handleNavigate, reloadTab, handleBack, handleForward, handleSearch,
      handleOpenCourt, handleBlock, handleSlow, handleUnrestrict, handleCourtClose,
      handleChatSendMessage, chat_exchange, move_to, then_run, set_status_and_reload,
      handleNavigate, reloadContentForUrl, effects, updateActiveTab;
    repeat case_match; simpl; repeat case_match; done.
Qed.
Lemma others_not_loading j ts :
  Forall not_loading ts -> Forall not_loading (others j ts).
Proof.
  rewrite !Forall_forall. intros Hok t Ht. apply Hok.
  apply list_elem_of_In. apply list_elem_of_In in Ht.
  unfold others in Ht. by apply filter_In in Ht as [? _].
Qed.

Lemma step_not_loading ev s s' :
  step ev s = Some s' -> Forall not_loading (tabs s) -> Forall not_loading (tabs s').
Proof.
  intros Hstep Hs.
  assert (Hother : ~ is_tab_event ev -> Forall not_loading (tabs s')).
  { intros Hev.
    rewrite (perform_all_tabs _ _ s s' (handle_updates_only ev s Hev) Hstep).
    apply Forall_map. eapply Forall_impl; [exact Hs|].
    intros t Ht. unfold not_loading in *.
    rewrite loading_after_tab_effects, Ht. by apply handle_ends_loading. }
  destruct ev; try (apply Hother; by intros []); clear Hother.
  - injection Hstep as <-. simpl. apply Forall_app. split; [done|].
    by repeat constructor.
  - unfold step, settle in Hstep. simpl handle in Hstep.
    unfold handleCloseTab in Hstep.
    destruct (decide _); [by injection Hstep as <-|].
    unfold effects in Hstep. simpl in Hstep.
    destruct (decide _); [destruct (last _)|]; simpl in Hstep; try done;
      injection Hstep as <-; simpl; by apply others_not_loading.
Qed.

Lemma steps_not_loading evs s s' :
  steps evs s = Some s' -> Forall not_loading (tabs s) -> Forall not_loading (tabs s').
Proof.
  revert s. induction evs as [|ev evs IH]; simpl; intros s Hsteps Hs.
  - by injection Hsteps as <-.
  - destruct (step ev s) as [s1|] eqn:H1; [|done].
    apply (IH s1 Hsteps). by apply (step_not_loading ev s).
Qed.

(** X13.  Between events no tab is loading.  From the first render, after
    every sequence of events each handled to completion, [isLoading] is false
    on every tab: each handler that starts a loading also issues the update
    that ends it, on the same tab.  In particular the viewport never shows the
    loading state then. *)
Theorem no_tab_is_left_loading
    (id0 : string) (cache : gmap string CachedSiteData.t) (evs : list Event)
    (s : AppState) :
  steps evs (initial id0 cache) = Some s ->
  Forall not_loading (tabs s) /\
  forall t throttlingNotice,
    In t (tabs s) -> viewport t <> LoadingPage throttlingNotice.
Proof.
  intros Hsteps.
  assert (Hall : Forall not_loading (tabs s)).
  { apply (steps_not_loading evs (initial id0 cache)); [done|]. by repeat constructor. }
  split; [done|]. intros t b Ht.
  rewrite Forall_forall in Hall. specialize (Hall t (proj2 (list_elem_of_In _ _) Ht)).
  unfold viewport, not_loading in *. rewrite Hall.
  repeat case_match; done.
Qed.

(** ** The records an event leaves alone *)

Lemma site_merge_app r data1 data2 :
  CachedSiteData.merge r (data1 ++ data2)
  = CachedSiteData.merge (CachedSiteData.merge r data1) data2.
Proof. unfold CachedSiteData.merge. by rewrite fold_left_app. Qed.

Lemma cache_writes_perform ok e s s' url r :
  cache_writes ok e = true -> perform e s = Some s' ->
  siteCache s !! url = Some r ->
  exists data,
    forallb (ok url) data = true /\
    siteCache s' !! url = Some (CachedSiteData.merge r data).
Proof.
  revert s'. induction e; simpl; intros s' Hw Hp Hr; try done;
    try (injection Hp as <-; by exists []).
  - rewrite updateCache_updater_eq in Hp.
    destruct (existing_or_default url0 now (siteCache s)) as [existing|] eqn:Hex;
      [|done].
    injection Hp as <-. simpl.
    destruct (decide (url0 = url)) as [->|Hne].
    + rewrite (existing_or_default_present _ _ _ _ Hr) in Hex. injection Hex as <-.
      exists (data ++ [CachedSiteData.LastVisited now])%list.
      split; [done|]. by rewrite lookup_insert_eq, site_merge_snoc.
    + exists []. split; [done|]. by rewrite lookup_insert_ne.
  - by apply IHe.
Qed.

Lemma cache_writes_perform_all ok es s s' url r :
  forallb (cache_writes ok) es = true -> perform_all es s = Some s' ->
  siteCache s !! url = Some r ->
  exists data,
    forallb (ok url) data = true /\
    siteCache s' !! url = Some (CachedSiteData.merge r data).
Proof.
  revert s r. induction es as [|e es IH]; simpl; intros s r Hw Hp Hr.
  - injection Hp as <-. by exists [].
  - apply andb_true_iff in Hw as [He Hes].
    destruct (perform e s) as [s1|] eqn:H1; [|done].
    destruct (cache_writes_perform ok e s s1 url r He H1 Hr) as (d1 & Hd1 & Hr1).
    destruct (IH s1 _ Hes Hp Hr1) as (d2 & Hd2 & Hr2).
    exists (d1 ++ d2)%list. split.
    + by rewrite forallb_app, Hd1, Hd2.
    + by rewrite site_merge_app.
Qed.

Lemma merge_keeps_url u r data :
  forallb (keeps_url u) data = true ->
  CachedSiteData.url (CachedSiteData.merge r data) = CachedSiteData.url r.
Proof.
  unfold CachedSiteData.merge. revert r.
  induction data as [|p data IH]; intros r; [done|]. simpl.
  intros [Hp Hd]%andb_true_iff. rewrite IH by done. by destruct p.
Qed.

Lemma merge_keeps_transcript u r data :
  forallb (keeps_transcript u) data = true ->
  CachedSiteData.chatHistory (CachedSiteData.merge r data) = CachedSiteData.chatHistory r.
Proof.
  unfold CachedSiteData.merge. revert r.
  induction data as [|p data IH]; intros r; [done|]. simpl.
  intros [Hp Hd]%andb_true_iff. rewrite IH by done. by destruct p.
Qed.

Lemma merge_keeps_status u r data :
  forallb (keeps_status u) data = true ->
  CachedSiteData.status (CachedSiteData.merge r data) = CachedSiteData.status r.
Proof.
  unfold CachedSiteData.merge. revert r.
  induction data as [|p data IH]; intros r; [done|]. simpl.
  intros [Hp Hd]%andb_true_iff. rewrite IH by done. by destruct p.
Qed.

Lemma merge_keeps_content c u r data site html :
  cached_content (c !! u) = Some (site, html) ->
  forallb (keeps_cached_content c u) data = true ->
  CachedSiteData.content (CachedSiteData.merge r data) = CachedSiteData.content r.
Proof.
  intros Hc. unfold CachedSiteData.merge. revert r.
  induction data as [|p data IH]; intros r; [done|]. simpl.
  intros [Hp Hd]%andb_true_iff. rewrite IH by done.
  destruct p; try done. simpl in Hp. by rewrite Hc in Hp.
Qed.

Ltac by_handler_cases :=
  unfold handleNewTab, handleCloseTab, handleNavigate, reloadTab, handleBack,
    handleForward, handleSearch, handleOpenCourt, handleBlock, handleSlow,
    handleUnrestrict, handleCourtClose, handleChatSendMessage, chat_exchange,
    move_to, then_run, set_status_and_reload, handleNavigate, reloadContentForUrl,
    effects, updateActiveTab;
  repeat case_match; simpl;
  repeat match goal with
         | Hr : siteCache _ !! _ = _ |- _ => rewrite Hr
         | Hc : cached_content _ = None |- _ => rewrite Hc
         end;
  done.

(** No handler assigns the [url] of a record. *)
Lemma handle_keeps_url ev s :
  forallb (cache_writes keeps_url) (effects (handle ev s)) = true.
Proof. destruct ev; simpl; by_handler_cases. Qed.

(** Apart from the chat, no handler assigns the transcript of a record, and
    content is assigned only to a record that has none to show. *)
Lemma handle_keeps_transcript ev s :
  ~ is_chat ev ->
  forallb (cache_writes keeps_transcript) (effects (handle ev s)) = true /\
  forallb (cache_writes (keeps_cached_content (siteCache s))) (effects (handle ev s))
    = true.
Proof. destruct ev; simpl; intros Hev; try done; split; by_handler_cases. Qed.

Lemma handle_keeps_status ev s :
  is_viewing ev ->
  forallb (cache_writes keeps_status) (effects (handle ev s)) = true.
Proof. destruct ev; simpl; intros Hev; try done; by_handler_cases. Qed.

Lemma keyed_perform e s s' :
  cache_writes keeps_url e = true -> perform e s = Some s' ->
  keyed (siteCache s) -> keyed (siteCache s').
Proof.
  revert s'. induction e; simpl; intros s' Hw Hp Hk; try done;
    try (by injection Hp as <-).
  - rewrite updateCache_updater_eq in Hp.
    destruct (existing_or_default url now (siteCache s)) as [existing|] eqn:Hex;
      [|done].
    injection Hp as <-. simpl. intros u r'.
    destruct (decide (url = u)) as [->|Hne].
    + rewrite lookup_insert_eq. intros [= <-]. simpl.
      rewrite forallb_app in Hw. apply andb_true_iff in Hw as [Hw _].
      rewrite (merge_keeps_url u) by done.
      unfold existing_or_default, default_site in Hex.
      destruct (siteCache s !! u) as [r0|] eqn:Hr0.
      * injection Hex as <-. by apply Hk.
      * destruct (hostname u); [|done]. by injection Hex as <-.
    + rewrite lookup_insert_ne by done. apply Hk.
  - by apply IHe.
Qed.

Lemma keyed_perform_all es s s' :
  forallb (cache_writes keeps_url) es = true -> perform_all es s = Some s' ->
  keyed (siteCache s) -> keyed (siteCache s').
Proof.
  revert s. induction es as [|e es IH]; simpl; intros s Hw Hp Hk.
  - by injection Hp as <-.
  - apply andb_true_iff in Hw as [He Hes].
    destruct (perform e s) as [s1|] eqn:H1; [|done].
    apply (IH s1 Hes Hp). by apply (keyed_perform e s).
Qed.

(** What one event, handled to completion, does to a record of the cache. *)
Lemma step_keeps_record ev s s' u r :
  step ev s = Some s' -> siteCache s !! u = Some r ->
  exists r',
    siteCache s' !! u = Some r' /\
    CachedSiteData.url r' = CachedSiteData.url r /\
    (~ is_chat ev ->
       CachedSiteData.chatHistory r' = CachedSiteData.chatHistory r /\
       forall html,
         cached_content (Some r) = Some (r, html) ->
         cached_content (Some r') = Some (r', html)) /\
    (is_viewing ev -> CachedSiteData.status r' = CachedSiteData.status r).
Proof.
  intros Hstep Hr.
  destruct (cache_writes_perform_all keeps_url _ s s' u r (handle_keeps_url ev s) Hstep Hr)
    as (data & Hdata & Hr').
  eexists. split; [exact Hr'|]. split; [by apply (merge_keeps_url u)|]. split.
  - intros Hev. destruct (handle_keeps_transcript ev s Hev) as [Ht Hc].
    destruct (cache_writes_perform_all _ _ s s' u r Ht Hstep Hr) as (d1 & Hd1 & Hr1).
    destruct (cache_writes_perform_all _ _ s s' u r Hc Hstep Hr) as (d2 & Hd2 & Hr2).
    split.
    + rewrite Hr' in Hr1. injection Hr1 as ->. by apply (merge_keeps_transcript u).
    + intros html Hcached. rewrite Hr' in Hr2. injection Hr2 as ->.
      pose proof Hcached as (_ & Hcontent & Hne)%cached_content_Some.
      unfold cached_content.
      rewrite (merge_keeps_content (siteCache s) u r d2 r html), Hcontent, Hne;
        [done | by rewrite Hr | done].
  - intros Hev.
    destruct (cache_writes_perform_all _ _ s s' u r (handle_keeps_status ev s Hev)
                Hstep Hr) as (d1 & Hd1 & Hr1).
    rewrite Hr' in Hr1. injection Hr1 as ->. by apply (merge_keeps_status u).
Qed.

(** X14.  The cache only grows.  Whatever the events, a record that is in the
    cache stays in it under the same URL, no handler removes a record or
    assigns its [url], and a cache in which every record is stored under its
    own URL stays so. *)
Theorem cache_records_persist (evs : list Event) (s s' : AppState) :
  steps evs s = Some s' ->
  (forall u r, siteCache s !! u = Some r ->
     exists r', siteCache s' !! u = Some r' /\
       CachedSiteData.url r' = CachedSiteData.url r) /\
  (keyed (siteCache s) -> keyed (siteCache s')).
Proof.
  revert s. induction evs as [|ev evs IH]; simpl; intros s Hsteps.
  - injection Hsteps as <-. split; [|done]. intros u r Hr. by exists r.
  - destruct (step ev s) as [s1|] eqn:H1; [|done].
    destruct (IH s1 Hsteps) as [Hrecords Hkeyed]. split.
    + intros u r Hr.
      destruct (step_keeps_record ev s s1 u r H1 Hr) as (r1 & Hr1 & Hu1 & _).
      destruct (Hrecords u r1 Hr1) as (r' & Hr' & Hu').
      exists r'. split; [done|]. by rewrite Hu'.
    + intros Hk. apply Hkeyed.
      by apply (keyed_perform_all _ s s1 (handle_keeps_url ev s) H1).
Qed.

(** X15.  Only the chat changes a transcript, and only the chat removes a page
    from the cache.  Over every sequence of events without a chat message, a
    record keeps its transcript, and a record that has content to show keeps
    that content: no navigation, reload, panel action or court decision
    replaces or clears it. *)
Theorem only_chat_changes_transcript_and_content
    (evs : list Event) (s s' : AppState) (u : string) (r : CachedSiteData.t) :
  Forall (fun ev => ~ is_chat ev) evs ->
  steps evs s = Some s' ->
  siteCache s !! u = Some r ->
  exists r',
    siteCache s' !! u = Some r' /\
    CachedSiteData.chatHistory r' = CachedSiteData.chatHistory r /\
    forall html,
      cached_content (Some r) = Some (r, html) ->
      cached_content (Some r') = Some (r', html).
Proof.
  revert s r. induction evs as [|ev evs IH]; simpl; intros s r Hevs Hsteps Hr.
  - injection Hsteps as <-. by exists r.
  - apply Forall_cons in Hevs as [Hev Hevs].
    destruct (step ev s) as [s1|] eqn:H1; [|done].
    destruct (step_keeps_record ev s s1 u r H1 Hr) as (r1 & Hr1 & _ & Hchat & _).
    destruct (Hchat Hev) as [Ht1 Hc1].
    destruct (IH s1 r1 Hevs Hsteps Hr1) as (r' & Hr' & Ht' & Hc').
    exists r'. split_and!; [done | by rewrite Ht' |].
    intros html Hcached. by apply Hc', Hc1.
Qed.

(** X16.  Looking at pages changes no status.  Over every sequence of tab
    events, reloads, moves along the history, searches and court openings,
    every record keeps its status. *)
Theorem viewing_keeps_status
    (evs : list Event) (s s' : AppState) (u : string) (r : CachedSiteData.t) :
  Forall is_viewing evs ->
  steps evs s = Some s' ->
  siteCache s !! u = Some r ->
  exists r',
    siteCache s' !! u = Some r' /\
    CachedSiteData.status r' = CachedSiteData.status r.
Proof.
  revert s r. induction evs as [|ev evs IH]; simpl; intros s r Hevs Hsteps Hr.
  - injection Hsteps as <-. by exists r.
  - apply Forall_cons in Hevs as [Hev Hevs].
    destruct (step ev s) as [s1|] eqn:H1; [|done].
    destruct (step_keeps_record ev s s1 u r H1 Hr) as (r1 & Hr1 & _ & _ & Hstatus).
    destruct (IH s1 r1 Hevs Hsteps Hr1) as (r' & Hr' & Hs').
    exists r'. split; [done|]. rewrite Hs'. by apply Hstatus.
Qed.

(** ** The address bar and the links of a page *)

Lemma is_empty_true s : is_empty s = true <-> s = "".
Proof. by destruct s. Qed.

(** X17.  What Enter in the address bar does, with [entered] the trimmed
    input: nothing when [entered] is empty; a search for [entered] when it
    has no dot or has a space; otherwise a navigation, to [entered] itself
    when it starts with http and to https:// followed by [entered] when it
    does not.  The URL of such a navigation starts with http, has a dot and
    no space, and is never about:home.  Any other key does nothing. *)
Theorem address_bar_searches_or_navigates (key addressBarInput : string) :
  let entered := trim addressBarInput in
  (handleKeyDown key addressBarInput = no_action <->
     key <> "Enter" \/ entered = "") /\
  (forall query, handleKeyDown key addressBarInput = onSearch query <->
     key = "Enter" /\ query = entered /\ query <> "" /\
     (includes "." query = false \/ includes " " query = true)) /\
  (forall url, handleKeyDown key addressBarInput = onNavigate url <->
     key = "Enter" /\ entered <> "" /\
     includes "." entered = true /\ includes " " entered = false /\
     url = (if String.prefix "http" entered then entered else "https://" ++ entered)) /\
  (forall url, handleKeyDown key addressBarInput = onNavigate url ->
     String.prefix "http" url = true /\
     includes "." url = true /\ includes " " url = false /\
     url <> home_url).
Proof.
  intros entered. unfold handleKeyDown. fold entered.
  destruct (decide (key = "Enter")) as [Hkey|Hkey].
  2: { split; [|split; [|split]].
       - split; [by left | done].
       - intros query. split; [done | by intros [? _]].
       - intros url. split; [done | by intros [? _]].
       - done. }
  destruct (is_empty entered) eqn:Hempty.
  { apply is_empty_true in Hempty. split; [|split; [|split]].
    - split; [by right | done].
    - intros query. split; [done | by intros (_ & -> & ? & _)].
    - intros url. split; [done | by intros (_ & ? & _)].
    - done. }
  assert (Hu : entered <> "") by (intros Hu; by rewrite Hu in Hempty).
  assert (Hsome : key <> "Enter" \/ entered = "" -> False) by (by intros [?|?]).
  destruct (includes "." entered) eqn:Hdot; simpl.
  2: { split; [|split; [|split]].
       - by split.
       - intros query. split.
         + intros [= <-]. split_and!; try done. by left.
         + by intros (_ & -> & _).
       - intros url. split; [done | by intros (_ & _ & ? & _)].
       - done. }
  destruct (includes " " entered) eqn:Hspace; simpl.
  { split; [|split; [|split]].
    - by split.
    - intros query. split.
      + intros [= <-]. split_and!; try done. by right.
      + by intros (_ & -> & _).
    - intros url. split; [done | by intros (_ & _ & _ & ? & _)].
    - done. }
  split; [|split; [|split]].
  - by split.
  - intros query. split; [done|]. intros (_ & -> & _ & [Hq|Hq]).
    + by rewrite Hq in Hdot.
    + by rewrite Hq in Hspace.
  - intros url. split.
    + by intros [= <-].
    + by intros (_ & _ & _ & _ & ->).
  - intros url [= <-].
    destruct (String.prefix "http" entered) eqn:Hhttp.
    + split_and!; try done. intros Hhome. by rewrite Hhome in Hhttp.
    + by split_and!.
Qed.

Lemma prefix_http_not_javascript href :
  String.prefix "http" href = true -> String.prefix "javascript:" href = false.
Proof.
  destruct href as [|c r]; [done|]. rewrite !string_prefix_cons.
  destruct (ascii_dec "h" c) as [<-|]; [|done]. intros _.
  by destruct (ascii_dec "j" "h").
Qed.

(** X18.  The target of a link.  [resolveUrl] gives no target exactly for an
    empty href, for # and for javascript: hrefs; an href that starts with http
    is its own target; every other href has a target: what [new URL] resolves
    it to against the tab's URL (against https://example.com on a tab whose
    URL does not start with http), and a path under https://example.com/ when
    [new URL] throws. *)
Theorem resolveUrl_outcomes
    (URL_href : string -> string -> option string) (currentUrl href : string) :
  (resolveUrl URL_href currentUrl href = None <->
     href = "" \/ href = "#" \/ String.prefix "javascript:" href = true) /\
  (String.prefix "http" href = true ->
     resolveUrl URL_href currentUrl href = Some href) /\
  (forall target,
     resolveUrl URL_href currentUrl href = Some target ->
     String.prefix "http" href = false ->
     let base := if String.prefix "http" currentUrl then currentUrl
                 else "https://example.com" in
     String.prefix "http" base = true /\
     (URL_href href base = Some target \/
      URL_href href base = None /\
      target = "https://example.com/" ++ strip_leading_slash href /\
      String.prefix "http" target = true)).
Proof.
  unfold resolveUrl.
  destruct (is_empty href) eqn:Hempty; simpl.
  { apply is_empty_true in Hempty. subst href. split; [|split]; [|done..].
    split; [by left | done]. }
  assert (Hne : href <> "") by (intros Hh; by rewrite Hh in Hempty).
  destruct (bool_decide (href = "#")) eqn:Hhash; simpl.
  { apply bool_decide_eq_true in Hhash. subst href. split; [|split]; [|done..].
    split; [by right; left | done]. }
  apply bool_decide_eq_false in Hhash.
  destruct (bool_decide (href = "javascript:void(0)")) eqn:Hvoid; simpl.
  { apply bool_decide_eq_true in Hvoid. subst href. split; [|split]; [|done..].
    split; [by right; right | done]. }
  destruct (String.prefix "javascript:" href) eqn:Hjs.
  { split; [|split]; [| |done].
    - split; [by right; right | done].
    - intros Hhttp%prefix_http_not_javascript. by rewrite Hhttp in Hjs. }
  assert (Hsome : href = "" \/ href = "#" \/ false = true -> False)
    by (by intros [?|[?|?]]).
  destruct (String.prefix "http" href) eqn:Hhttp.
  { split; [|split]; [by split|done..]. }
  split; [|split]; [|done|].
  - split; [by destruct (URL_href _ _) | done].
  - intros target Htarget _. split.
    + by destruct (String.prefix "http" currentUrl) eqn:Hcur.
    + destruct (URL_href href _) as [resolved|].
      * left. by injection Htarget as <-.
      * right. injection Htarget as <-. by split_and!.
Qed.

(** ** What a reload leaves on the tab *)

Lemma find_tab_map i (f : BrowserTab.t -> BrowserTab.t) ts :
  (forall t, BrowserTab.id (f t) = BrowserTab.id t) ->
  find_tab i (map f ts) = f <$> find_tab i ts.
Proof.
  intros Hf. unfold find_tab. induction ts as [|t ts IH]; [done|].
  simpl. rewrite Hf. by destruct (bool_decide _).
Qed.

Lemma perform_all_find_tab j es s s' i :
  forallb (updates_only j) es = true -> perform_all es s = Some s' ->
  find_tab i (tabs s') = tab_effects es <$> find_tab i (tabs s).
Proof.
  intros Hu Hp. rewrite (perform_all_tabs j es s s' Hu Hp).
  apply find_tab_map. apply tab_effects_id.
Qed.

Lemma tab_effects_app es1 es2 t :
  tab_effects (es1 ++ es2) t = tab_effects es2 (tab_effects es1 t).
Proof. unfold tab_effects. by rewrite fold_left_app. Qed.

Ltac on_this_tab t tabId :=
  repeat match goal with
         | |- context [decide (BrowserTab.id t = tabId)] =>
             destruct (decide (BrowserTab.id t = tabId)); [|done]; simpl
         end.

(** [reloadContentForUrl] computes the status from the snapshot [s] of the
    handler that called it, and writes it to the tab as it is when the
    update is processed ([t]), whatever was written to that tab in
    between. *)
Lemma reload_tab_effects s url tabId ai now tab t :
  find_tab tabId (tabs s) = Some tab ->
  BrowserTab.id t = tabId ->
  let t' := tab_effects (effects (reloadContentForUrl s url tabId ai now)) t in
  let currentStatus := status_or (BrowserTab.status tab) (siteCache s !! url) in
  BrowserTab.status t' = currentStatus /\
  BrowserTab.isLoading t' = false /\
  BrowserTab.chatHistory t' = BrowserTab.chatHistory t /\
  BrowserTab.url t' = BrowserTab.url t /\
  (currentStatus = BLOCKED ->
     BrowserTab.error t' = Some "ERR_CONNECTION_RESET" /\
     BrowserTab.content t' = BrowserTab.content t) /\
  (currentStatus <> BLOCKED ->
     forall site html, cached_content (siteCache s !! url) = Some (site, html) ->
     BrowserTab.error t' = None /\ BrowserTab.content t' = Some html /\
     BrowserTab.title t' = CachedSiteData.title site).
Proof.
  intros Hfind Hid. unfold reloadContentForUrl. rewrite Hfind.
  set (currentStatus := status_or _ _).
  destruct (decide (currentStatus = BLOCKED)) as [Hb|Hb].
  { unfold effects, tab_effects. simpl.
    on_this_tab t tabId. by split_and!. }
  destruct (cached_content _) as [[c html]|] eqn:Hc.
  { unfold effects, tab_effects. simpl.
    on_this_tab t tabId.
    split_and!; try done. by intros _ site html' [= <- <-]. }
  destruct (hostname url) as [h|];
    unfold effects, tab_effects; simpl;
    on_this_tab t tabId; by split_and!.
Qed.

(** ** The panel and the tab *)

(** X19.  Slowing down or unrestricting a site stores the new status in the
    record, but the tab ends with the status it would have had without the
    action: that of the record before the action (its own when there was no
    record).  The reload that follows runs on the handler's snapshot, so a
    BLOCKED site that is unrestricted still ends on the connection-reset
    error, and a site that is slowed down still shows as it did. *)
Theorem slow_and_unrestrict_keep_tab_status
    (s : AppState) (slow : bool) (ai : AiResult) (now now' : Z)
    (active : BrowserTab.t) (base : CachedSiteData.t) :
  getActiveTab s = Some active ->
  BrowserTab.url active <> home_url ->
  existing_or_default (BrowserTab.url active) now (siteCache s) = Some base ->
  let newStatus := if slow then SLOWED else NORMAL in
  let run := if slow then handleSlow s ai now now' else handleUnrestrict s ai now now' in
  let oldStatus :=
    status_or (BrowserTab.status active) (siteCache s !! BrowserTab.url active) in
  exists s' site' tab',
    settle run s = Some s' /\
    siteCache s' !! BrowserTab.url active = Some site' /\
    CachedSiteData.status site' = newStatus /\
    CachedSiteData.chatHistory site' = CachedSiteData.chatHistory base /\
    getActiveTab s' = Some tab' /\
    BrowserTab.status tab' = oldStatus /\
    BrowserTab.isLoading tab' = false /\
    (oldStatus = BLOCKED -> BrowserTab.error tab' = Some "ERR_CONNECTION_RESET").
Proof.
  intros Hactive Hhome Hbase newStatus run oldStatus.
  pose proof (find_tab_id _ _ _ Hactive) as Hid.
  set (r := reloadContentForUrl s (BrowserTab.url active) (BrowserTab.id active) ai now').
  set (first := [updateCache (BrowserTab.url active) [CachedSiteData.Status newStatus] now;
                 updateActiveTab s [Status newStatus]]).
  assert (Heffects : effects run = (first ++ effects r)%list).
  { unfold run, handleSlow, handleUnrestrict. rewrite Hactive.
    destruct (decide _); [done|].
    unfold set_status_and_reload, effects. fold r. simpl.
    rewrite !app_nil_r. by destruct slow. }
  assert (Hfirst : exists s1 site1,
    perform_all first s = Some s1 /\
    siteCache s1 !! BrowserTab.url active = Some site1 /\
    CachedSiteData.status site1 = newStatus /\
    CachedSiteData.chatHistory site1 = CachedSiteData.chatHistory base).
  { unfold first. simpl. rewrite updateCache_updater_eq, Hbase. simpl.
    eexists _, _. split; [reflexivity|]. simpl. by rewrite lookup_insert_eq. }
  destruct Hfirst as (s1 & site1 & Hs1 & Hsite1 & Hstatus1 & Hhistory1).
  destruct (reload_keeps_status_and_transcript s s1 (BrowserTab.url active)
              (BrowserTab.id active) ai now' site1 Hsite1)
    as (s2 & site2 & Hs2 & Hsite2 & Hstatus2 & Hhistory2).
  fold r in Hs2.
  assert (Hsettle : settle run s = Some s2).
  { unfold settle. by rewrite Heffects, perform_all_app, Hs1. }
  assert (Hupdates : forallb (updates_only (activeTabId s)) (effects run) = true).
  { rewrite Heffects, forallb_app. apply andb_true_iff. split.
    - unfold first, updateActiveTab. simpl. by rewrite bool_decide_eq_true_2.
    - unfold r. rewrite Hid. apply reload_updates_only. }
  assert (Hactive2 : activeTabId s2 = activeTabId s).
  { assert (Hsk : skeleton s2 = skeleton s).
    { apply (harmless_perform_all (effects run)); [|done].
      rewrite Heffects, forallb_app. apply andb_true_iff. split; [done|].
      destruct (reload_harmless s (BrowserTab.url active) (BrowserTab.id active) ai now')
        as [Hsync Hdeferred].
      unfold effects. rewrite forallb_app. fold r in Hsync, Hdeferred.
      by rewrite Hsync, Hdeferred. }
    by injection Hsk. }
  exists s2, site2. eexists. split; [done|]. split; [done|].
  split; [by rewrite Hstatus2|]. split; [by rewrite Hhistory2|].
  unfold getActiveTab in *. rewrite Hactive2.
  rewrite (perform_all_find_tab _ _ s s2 _ Hupdates Hsettle), Hactive. simpl.
  split; [reflexivity|].
  rewrite Heffects, tab_effects_app.
  assert (Hfound : find_tab (BrowserTab.id active) (tabs s) = Some active)
    by (by rewrite Hid).
  destruct (reload_tab_effects s (BrowserTab.url active) (BrowserTab.id active) ai now'
              active (tab_effects first active) Hfound)
    as (Hst & Hl & _ & _ & Hblocked & _).
  { apply tab_effects_id. }
  fold r in Hst, Hl, Hblocked. split_and!; [done..|].
  intros Hb. by apply Hblocked.
Qed.

(** ** The chat and the tab *)

(** X20.  An agreement in the chat removes the page from the record, not from
    the tab.  When the owner agrees and the record had content to show and was
    not BLOCKED, the record ends with status CONTENT_REMOVED and no content,
    while the tab ends with the status the record had before and shows the
    page that was cached: the reload that follows the agreement runs on the
    handler's snapshot and makes no call to generate a page.  The tab has the
    whole exchange in its transcript and the typing indicator is off. *)
Theorem chat_agreement_keeps_page_on_tab
    (s : AppState) (msg : string) (chat gen : AiResult) (k : ChatClock)
    (tab : BrowserTab.t) (site : CachedSiteData.t) (html : string)
    (replied agreed : JsValue) :
  getActiveTab s = Some tab ->
  BrowserTab.url tab <> home_url ->
  siteCache s !! BrowserTab.url tab = Some site ->
  CachedSiteData.status site <> BLOCKED ->
  cached_content (Some site) = Some (site, html) ->
  let res :=
    chatWithSiteOwner (BrowserTab.url tab) (chat_newHistory tab msg k) msg chat in
  destructure_reply res = Some (replied, agreed) ->
  is_truthy agreed = true ->
  exists s' site' tab',
    settle (handleChatSendMessage s msg chat gen k) s = Some s' /\
    siteCache s' !! BrowserTab.url tab = Some site' /\
    CachedSiteData.status site' = CONTENT_REMOVED /\
    CachedSiteData.content site' = None /\
    getActiveTab s' = Some tab' /\
    BrowserTab.status tab' = CachedSiteData.status site /\
    BrowserTab.content tab' = Some html /\
    BrowserTab.error tab' = None /\
    BrowserTab.isLoading tab' = false /\
    BrowserTab.chatHistory tab' = chat_finalHistory tab msg k replied /\
    viewport tab' = RenderedContent html /\
    isChatTyping s' = false /\
    calls (effects (handleChatSendMessage s msg chat gen k))
      = [call_chatWithSiteOwner (BrowserTab.url tab) (chat_newHistory tab msg k) msg].
Proof.
  intros Hactive Hhome Hsite Hnb Hcached res Hres Hagreed. unfold res in *.
  pose proof Hcached as (_ & _ & Hne)%cached_content_Some.
  unfold handleChatSendMessage. rewrite Hactive.
  destruct (decide (_ = home_url)); [done|].
  unfold chat_exchange, reloadContentForUrl. cbv zeta. rewrite Hres, Hagreed.
  unfold getActiveTab in *.
  rewrite (find_tab_id _ _ _ Hactive), Hactive, Hsite. simpl status_or.
  destruct (decide (_ = BLOCKED)); [done|].
  rewrite Hcached. unfold settle, effects, updateActiveTab. simpl.
  rewrite updateCache_updater_eq, (existing_or_default_present _ _ _ _ Hsite). simpl.
  rewrite updateCache_updater_eq. unfold existing_or_default at 1.
  rewrite lookup_insert_eq. simpl.
  eexists _, _, _. split; [reflexivity|]. simpl.
  rewrite lookup_insert_eq, !find_tab_updateTab_eq, Hactive. simpl.
  split_and!; try reflexivity.
  unfold viewport. simpl. destruct (decide _); [done|]. by rewrite Hne.
Qed.

(** X21.  A chat call that fails removes nothing.  When the service call is
    rejected or its reply does not parse, the owner's entry is the fixed
    connection-error text, the exchange is stored in the record and shown on
    the tab, and status and content of both stay as they were; the chat call
    is the only call of the service layer. *)
Theorem chat_failure_keeps_page
    (s : AppState) (msg : string) (chat gen : AiResult) (k : ChatClock)
    (tab : BrowserTab.t) (base : CachedSiteData.t) :
  getActiveTab s = Some tab ->
  BrowserTab.url tab <> home_url ->
  existing_or_default (BrowserTab.url tab) (sent_saved_at k) (siteCache s) = Some base ->
  (forall t, chat = AiResponse t -> JSON_parse (cleanResponse t) = None) ->
  let entries :=
    [mkChatMessage user (js_string msg) (sent_at k);
     mkChatMessage model (js_string (reply chat_fallback)) (replied_at k)] in
  exists s' site' tab',
    settle (handleChatSendMessage s msg chat gen k) s = Some s' /\
    siteCache s' !! BrowserTab.url tab = Some site' /\
    CachedSiteData.status site' = CachedSiteData.status base /\
    CachedSiteData.content site' = CachedSiteData.content base /\
    CachedSiteData.chatHistory site' = (BrowserTab.chatHistory tab ++ entries)%list /\
    getActiveTab s' = Some tab' /\
    BrowserTab.status tab' = BrowserTab.status tab /\
    BrowserTab.content tab' = BrowserTab.content tab /\
    BrowserTab.error tab' = BrowserTab.error tab /\
    BrowserTab.chatHistory tab' = (BrowserTab.chatHistory tab ++ entries)%list /\
    isChatTyping s' = false /\
    calls (effects (handleChatSendMessage s msg chat gen k))
      = [call_chatWithSiteOwner (BrowserTab.url tab) (chat_newHistory tab msg k) msg].
Proof.
  intros Hactive Hhome Hbase Hfail entries.
  assert (Hres : chatWithSiteOwner (BrowserTab.url tab) (chat_newHistory tab msg k) msg chat
                 = ChatReply_value chat_fallback).
  { unfold chatWithSiteOwner. destruct chat as [message|t]; [done|].
    by rewrite (Hfail t eq_refl). }
  unfold handleChatSendMessage. rewrite Hactive.
  destruct (decide (_ = home_url)); [done|].
  unfold chat_exchange, chat_finalHistory. cbv zeta. rewrite Hres.
  change (destructure_reply (ChatReply_value chat_fallback))
    with (Some (js_string (reply chat_fallback), js_boolean false)).
  cbv iota beta. change (is_truthy (js_boolean false)) with false.
  cbv iota. unfold getActiveTab in *.
  unfold settle, effects, updateActiveTab. simpl.
  rewrite updateCache_updater_eq, Hbase. simpl.
  rewrite updateCache_updater_eq. unfold existing_or_default at 1.
  rewrite lookup_insert_eq. simpl.
  eexists _, _, _. split; [reflexivity|]. simpl.
  rewrite lookup_insert_eq, !find_tab_updateTab_eq, Hactive. simpl.
  unfold chat_newHistory, entries. rewrite <- !app_assoc. simpl.
  split_and!; reflexivity.
Qed.

(** ** The tab the browser renders *)

(** X22.  The browser always renders the active tab.  From the first render,
    after every sequence of events in which new tabs get fresh identifiers and
    only open tabs are switched to, the tab the component picks is the one
    whose identifier is [activeTabId]: the fallback to the first tab and the
    "No Tabs Open" text are never reached. *)
Theorem browser_renders_the_active_tab
    (id0 : string) (cache : gmap string CachedSiteData.t) (evs : list Event)
    (s : AppState) :
  all_allowed evs (initial id0 cache) ->
  steps evs (initial id0 cache) = Some s ->
  exists t,
    activeTab s = Some t /\
    getActiveTab s = Some t /\
    BrowserTab.id t = activeTabId s /\
    In t (tabs s).
Proof.
  intros Hallowed Hsteps.
  destruct (steps_well_formed evs (initial id0 cache) s (initial_well_formed id0 cache)
              Hallowed Hsteps) as (_ & t & Ht & _).
  exists t. unfold activeTab. unfold getActiveTab in Ht. rewrite Ht.
  split_and!; [done | done | by apply (find_tab_id _ (tabs s)) | by apply (find_tab_In _ _ _ Ht)].
Qed.

End Properties.

(** * The theorems at concrete inputs *)

#[local] Existing Instance example_platform.

Ltac evaluated :=
  first [ reflexivity
        | lia
        | let Heq := fresh in intros Heq; vm_compute in Heq; discriminate Heq
        | vm_compute; reflexivity
        | vm_compute; repeat constructor ].

(** The two replacements of [cleanResponse] on a fenced reply, before [trim]. *)
Example fences_removed :
  remove_matches fence_match O (remove_matches fence_open_match O fenced_reply)
  = "[1]" ++ lf.
Proof. reflexivity. Qed.

(** Backquotes that no line feed follows are not an opening fence; the second
    replacement removes them. *)
Example fence_without_line_feed :
  remove_matches fence_open_match O "```html<p>" = "```html<p>" /\
  remove_matches fence_match O "```html<p>" = "html<p>".
Proof. split; reflexivity. Qed.

(** C2 at a home tab and a blocked record of [url_a]. *)
Lemma navigate_blocked_resets_connection_witness :
  let s := home_with_site (site_a BLOCKED (Some page_a)) in
  (url_a <> home_url /\
   siteCache s !! url_a = Some (site_a BLOCKED (Some page_a)) /\
   find_tab (target_of s None) (tabs s) = Some (new_tab "t0")) /\
  exists s' tab',
    settle (handleNavigate s url_a None (AiResponse (Some "A")) 1) s = Some s' /\
    find_tab "t0" (tabs s') = Some tab' /\
    BrowserTab.error tab' = Some "ERR_CONNECTION_RESET" /\
    BrowserTab.isLoading tab' = false /\
    calls (effects (handleNavigate s url_a None (AiResponse (Some "A")) 1)) = [].
Proof.
  intros s. split; [split_and!; evaluated|].
  destruct (navigate_blocked_resets_connection s url_a None (AiResponse (Some "A")) 1
              (site_a BLOCKED (Some page_a)) (new_tab "t0"))
    as (s' & tab' & Hs & Hf & _ & He & Hl & _ & _ & Hc & _); try evaluated.
  exists s', tab'. split_and!; assumption.
Defined.

(** C1 at a home tab and a record of [url_a] whose content the owner has
    removed: the navigation ends with status NORMAL in the record. *)
Lemma navigate_generation_overwrites_content_removed_witness :
  let s := home_with_site (site_a CONTENT_REMOVED None) in
  (siteCache s !! url_a = Some (site_a CONTENT_REMOVED None) /\
   hostname url_a = Some "a.com") /\
  exists s' site',
    settle (handleNavigate s url_a None (AiResponse (Some "<p>Hello</p>")) 1) s = Some s' /\
    siteCache s' !! url_a = Some site' /\
    CachedSiteData.status site' = NORMAL.
Proof.
  intros s. split; [split_and!; evaluated|].
  destruct (navigate_generation_overwrites_content_removed s url_a None
              (AiResponse (Some "<p>Hello</p>")) 1 (new_tab "t0")
              (site_a CONTENT_REMOVED None) "a.com")
    as (s' & site' & Hs & Hl & _ & Hst); try evaluated.
  exists s', site'. split_and!; assumption.
Defined.

(** The same record reloaded by [reloadContentForUrl] keeps its status. *)
Example reload_keeps_content_removed :
  let s := home_with_site (site_a CONTENT_REMOVED None) in
  (fun s' => CachedSiteData.status <$> siteCache s' !! url_a)
    <$> settle (reloadContentForUrl s url_a "t0" (AiResponse (Some "<p>Hello</p>")) 1) s
  = Some (Some CONTENT_REMOVED).
Proof. vm_compute. reflexivity. Qed.

(** C7 at the first visit of [url_a] when the service rejects the request. *)
Lemma navigate_rejected_generation_is_cached_witness :
  let s := initial "t0" ∅ in
  let page := error_page_of "quota" in
  (url_a <> home_url /\ hostname url_a = Some "a.com" /\ siteCache s !! url_a = None) /\
  exists s' site' tab',
    settle (handleNavigate s url_a None (AiRejected (Some "quota")) 1) s = Some s' /\
    siteCache s' !! url_a = Some site' /\
    CachedSiteData.content site' = Some page /\
    find_tab "t0" (tabs s') = Some tab' /\
    BrowserTab.error tab' = None.
Proof.
  intros s page. split; [split_and!; evaluated|].
  destruct (navigate_rejected_generation_is_cached s url_a None (Some "quota") 1
              (new_tab "t0") "a.com")
    as (s' & site' & tab' & Hs & Hl & Hc & _ & Hf & _ & He & _); try evaluated.
  exists s', site', tab'. split_and!; assumption.
Defined.

(** C3 at a tab that shows [url_a], status NORMAL, when the draw is BLOCKED. *)
Lemma block_reloads_under_old_status_witness :
  let s := viewing_a NORMAL in
  (getActiveTab s = Some (tab_on_a NORMAL) /\
   siteCache s !! url_a = Some (site_a NORMAL (Some page_a))) /\
  exists s' site' tab',
    settle (handleBlock s false (AiRejected None) 1 2) s = Some s' /\
    siteCache s' !! url_a = Some site' /\
    CachedSiteData.status site' = BLOCKED /\
    getActiveTab s' = Some tab' /\
    BrowserTab.status tab' = NORMAL /\
    BrowserTab.error tab' = None /\
    BrowserTab.content tab' = Some page_a.
Proof.
  intros s. split; [split_and!; evaluated|].
  destruct (block_reloads_under_old_status s false (AiRejected None) 1 2
              (tab_on_a NORMAL) (site_a NORMAL (Some page_a)) page_a)
    as (s' & site' & tab' & Hs & Hl & Hst & Ha & Hts & He & Hc & _); try evaluated.
  exists s', site', tab'. split_and!; assumption.
Defined.

(** C5 at a tab that shows [url_a] under appeal, when the verdict is UPHOLD. *)
Lemma court_close_reloads_under_old_status_witness :
  let s := viewing_a UNDER_APPEAL in
  (getActiveTab s = Some (tab_on_a UNDER_APPEAL) /\
   siteCache s !! url_a = Some (site_a UNDER_APPEAL (Some page_a))) /\
  exists s' site' tab',
    settle (handleCourtClose s UPHOLD (AiRejected None) 1 2) s = Some s' /\
    siteCache s' !! url_a = Some site' /\
    CachedSiteData.status site' = BLOCKED /\
    getActiveTab s' = Some tab' /\
    BrowserTab.status tab' = UNDER_APPEAL /\
    BrowserTab.error tab' = None /\
    BrowserTab.content tab' = Some page_a.
Proof.
  intros s. split; [split_and!; evaluated|].
  destruct (court_close_reloads_under_old_status s UPHOLD (AiRejected None) 1 2
              (tab_on_a UNDER_APPEAL) (site_a UNDER_APPEAL (Some page_a)) page_a)
    as (s' & site' & tab' & Hs & Hl & Hst & _ & Ha & Hts & He & Hc & _); try evaluated.
  exists s', site', tab'. split_and!; assumption.
Defined.

(** C4 at a tab that is back on [url_a] with an empty transcript, while the
    record of [url_a] holds the first exchange, when the service is down: the
    record is left with the two entries of the second exchange alone. *)
Lemma chat_overwrites_record_transcript_witness :
  let s := back_on_a in
  let down := AiRejected None in
  (getActiveTab s = Some tab_back_on_a /\
   BrowserTab.url tab_back_on_a <> home_url /\
   existing_or_default url_a 21 (siteCache s) = Some site_a_after_chat /\
   CachedSiteData.chatHistory site_a_after_chat = first_exchange /\
   destructure_reply
     (chatWithSiteOwner url_a (chat_newHistory tab_back_on_a "second" clock1) "second" down)
     = Some (js_string (reply chat_fallback), js_boolean false)) /\
  exists s' site',
    settle (handleChatSendMessage s "second" down down clock1) s = Some s' /\
    siteCache s' !! url_a = Some site' /\
    CachedSiteData.chatHistory site' = second_exchange /\
    CachedSiteData.status site' = NORMAL.
Proof.
  intros s down. split; [split_and!; evaluated|].
  pose proof (chat_overwrites_record_transcript s "second" down down clock1
                tab_back_on_a site_a_after_chat) as Hchat.
  destruct Hchat as [Hreplied _]; [evaluated..|].
  destruct (Hreplied (js_string (reply chat_fallback)) (js_boolean false))
    as (s1 & site1 & s' & site' & _ & Hsite1 & _ & _ & Hkept & _ & Hs & Hsite & Hhistory
        & Hstatus & _); [evaluated|].
  exists s', site'. split_and!; try assumption.
  rewrite Hstatus. by apply Hkept.
Defined.

(** C6 at a sequence that goes back past the first entry, forward, and
    navigates after going back. *)
Lemma history_index_stays_in_bounds_witness :
  Forall is_navigation browse_back_and_forth /\
  exists s,
    steps browse_back_and_forth (initial "t0" ∅) = Some s /\
    Forall history_ok (tabs s).
Proof.
  assert (Hevs : Forall is_navigation browse_back_and_forth)
    by (repeat constructor).
  split; [exact Hevs|].
  destruct (history_index_stays_in_bounds "t0" ∅ browse_back_and_forth Hevs)
    as (s & Hs & Hok & _).
  exists s. split; assumption.
Defined.

(** What that sequence leaves: the entry of [url_b] is gone. *)
Example browse_back_and_forth_history :
  (fun s => map sk (tabs s)) <$> steps browse_back_and_forth (initial "t0" ∅)
  = Some [("t0", [home_url; url_a; "not a url"], 2)].
Proof. vm_compute. reflexivity. Qed.

(** C8, the claim as stated fails: the upsert stores the merged record, and
    the call returns nothing. *)
Lemma updateCache_returns_nothing :
  exists next merged,
    updateCache_updater url_a [CachedSiteData.Status BLOCKED] 7 ∅ = Some next /\
    next !! url_a = Some merged /\
    updateCache_result url_a [CachedSiteData.Status BLOCKED] 7 ∅ <> Some merged.
Proof.
  eexists _, _. split; [vm_compute; reflexivity|].
  split; [vm_compute; reflexivity|]. discriminate.
Qed.

(** C8 (as amended) at a record of [url_a] whose status is overwritten. *)
Lemma updateCache_field_merge_witness :
  let prev : gmap string CachedSiteData.t := {[ url_a := site_a SLOWED (Some page_a) ]} in
  existing_or_default url_a 7 prev = Some (site_a SLOWED (Some page_a)) /\
  exists next merged,
    updateCache_updater url_a [CachedSiteData.Status BLOCKED] 7 prev = Some next /\
    next !! url_a = Some merged /\
    CachedSiteData.status merged = BLOCKED /\
    CachedSiteData.content merged = Some page_a /\
    CachedSiteData.lastVisited merged = 7.
Proof.
  intros prev.
  assert (Hbase : existing_or_default url_a 7 prev = Some (site_a SLOWED (Some page_a)))
    by (vm_compute; reflexivity).
  split; [exact Hbase|].
  destruct (updateCache_field_merge url_a [CachedSiteData.Status BLOCKED] 7 prev
              (site_a SLOWED (Some page_a)) Hbase)
    as (_ & _ & next & merged & Hn & Hl & _ & _ & Hc & Hst & _ & Hv & _).
  exists next, merged. split_and!; assumption.
Defined.

(** C9, the claim as stated fails: a reply that lists six sites gives six
    results. *)
Lemma searchWeb_returns_six :
  exists items,
    searchWeb "news" (AiResponse (Some six_results_json)) = js_array items /\
    ~ (length items <= 5)%nat.
Proof. eexists. split; [vm_compute; reflexivity|]. simpl. lia. Qed.

(** A reply whose text is [null] is returned as it is: not a list. *)
Example searchWeb_returns_null :
  searchWeb "news" (AiResponse (Some "null")) = js_null.
Proof. vm_compute. reflexivity. Qed.

(** C9 (as amended) at a reply that does not parse. *)
Lemma searchWeb_outcomes_witness :
  (is_empty (cleanResponse (Some "oops")) = false /\
   JSON_parse (cleanResponse (Some "oops")) = None) /\
  searchWeb "news" (AiResponse (Some "oops")) = SearchResults_value search_fallback.
Proof.
  split; [split; reflexivity|].
  destruct (searchWeb_outcomes "news" (AiResponse (Some "oops")))
    as (_ & _ & _ & Hfail & _).
  apply (Hfail (Some "oops")); reflexivity.
Defined.

(** C10 at a sequence that closes the active tab, tries to close the only
    tab, and closes a tab that does not exist. *)
Lemma open_tabs_never_empty_witness :
  (Forall is_tab_event open_and_close /\ NoDup ("t0" :: new_ids open_and_close)) /\
  exists s,
    steps open_and_close (initial "t0" ∅) = Some s /\
    tabs s <> [] /\
    exists t, getActiveTab s = Some t.
Proof.
  assert (Hevs : Forall is_tab_event open_and_close) by (repeat constructor).
  assert (Hnd : NoDup ("t0" :: new_ids open_and_close)).
  { apply (bool_decide_unpack _). vm_compute. exact I. }
  split; [split; assumption|].
  destruct (open_tabs_never_empty "t0" ∅ open_and_close Hevs Hnd)
    as (s & Hs & Hne & Ht & _).
  exists s. split_and!; assumption.
Defined.

(** What that sequence leaves: the second tab, active. *)
Example open_and_close_leaves_one :
  skeleton <$> steps open_and_close (initial "t0" ∅)
  = Some ("t1", [("t1", [home_url], 0)]).
Proof. vm_compute. reflexivity. Qed.

(** ** The failing inputs, reached from the first render *)

(** C1.  After the owner has agreed to remove the content, the record of
    [url_a] has status CONTENT_REMOVED and no content; the next navigation to
    [url_a] generates the page and leaves status NORMAL. *)
Example revisit_after_removal :
  record_view url_a <$> steps visit_and_agree (initial "t0" ∅)
    = Some (Some (CONTENT_REMOVED, None)) /\
  record_view url_a
    <$> steps (visit_and_agree ++ [Navigate url_a None (AiResponse (Some "B")) 2])
          (initial "t0" ∅)
    = Some (Some (NORMAL, Some (page_of "B"))).
Proof. cbv zeta. split; vm_compute; reflexivity. Qed.

(** C3.  Blocking the site on view, when the draw is BLOCKED: the record is
    BLOCKED, the tab still shows the page with status NORMAL and no error. *)
Example block_site_on_view :
  let after :=
    steps [Navigate url_a None (AiResponse (Some "A")) 1; Block false (AiRejected None) 2 3]
      (initial "t0" ∅) in
  record_view url_a <$> after = Some (Some (BLOCKED, Some (page_of "A"))) /\
  tab_view <$> after = Some (Some (NORMAL, None, Some (page_of "A"))).
Proof. cbv zeta. split; vm_compute; reflexivity. Qed.

(** C4.  Visiting [url_a], exchanging one message there, visiting [url_b]
    and going back leaves [back_on_a].  The next exchange leaves the record of
    [url_a] with its own two entries: the first exchange is gone from it. *)
Example second_exchange_after_return :
  let transcript_of_a :=
    fun s => CachedSiteData.chatHistory <$> siteCache s !! url_a in
  let down := AiRejected None in
  steps visit_chat_leave_return (initial "t0" ∅) = Some back_on_a /\
  transcript_of_a back_on_a = Some first_exchange /\
  transcript_of_a <$> step (ChatSendMessage "second" down down clock1) back_on_a
    = Some (Some second_exchange) /\
  second_exchange <> (first_exchange ++ second_exchange)%list.
Proof. cbv zeta. split_and!; [vm_compute; reflexivity..|discriminate]. Qed.

(** C4.  A reply whose text is [null]: the handler throws when it takes the
    reply apart, after the message of the regulator is stored and the typing
    indicator is on, which then stays on. *)
Example chat_answered_with_null :
  let answered := AiResponse (Some "null") in
  let run := handleChatSendMessage (viewing_a NORMAL) "hello" answered (AiRejected None) clock0 in
  chatWithSiteOwner url_a (chat_newHistory (tab_on_a NORMAL) "hello" clock0) "hello" answered
    = js_null /\
  settle run (viewing_a NORMAL) = None /\
  isChatTyping <$> perform_all (sync run) (viewing_a NORMAL) = Some true.
Proof. cbv zeta. split_and!; vm_compute; reflexivity. Qed.

(** C4.  A second agreement, on a record whose content the first one has
    cleared: the reload that follows finds no content in the snapshot,
    generates a page and stores it, and the record ends with content. *)
Example agree_again_after_removal :
  record_view url_a <$> steps visit_and_agree (initial "t0" ∅)
    = Some (Some (CONTENT_REMOVED, None)) /\
  record_view url_a
    <$> steps (visit_and_agree
                 ++ [ChatSendMessage "again" (AiResponse (Some agree_json))
                       (AiResponse (Some "C")) clock1])
          (initial "t0" ∅)
    = Some (Some (CONTENT_REMOVED, Some (page_of "C"))).
Proof. cbv zeta. split; vm_compute; reflexivity. Qed.

(** C5.  Closing the court with UPHOLD on a site under appeal: the record is
    BLOCKED, the tab still shows the page with status UNDER_APPEAL. *)
Example uphold_site_under_appeal :
  tab_view <$> steps visit_and_appeal (initial "t0" ∅)
    = Some (Some (UNDER_APPEAL, None, Some (page_of "A"))) /\
  let after :=
    steps (visit_and_appeal ++ [CourtClose UPHOLD (AiRejected None) 5 6])
      (initial "t0" ∅) in
  record_view url_a <$> after = Some (Some (BLOCKED, Some (page_of "A"))) /\
  tab_view <$> after = Some (Some (UNDER_APPEAL, None, Some (page_of "A"))).
Proof. cbv zeta. split_and!; vm_compute; reflexivity. Qed.

(** C7.  The first visit of [url_a] when the service rejects the request:
    the error text is cached as the content of the record, the tab has no
    error, and a later reload shows the cached error text again without
    asking the service. *)
Example first_visit_rejected :
  let after :=
    steps [Navigate url_a None (AiRejected (Some "quota")) 1] (initial "t0" ∅) in
  record_view url_a <$> after = Some (Some (NORMAL, Some (error_page_of "quota"))) /\
  tab_view <$> after = Some (Some (NORMAL, None, Some (error_page_of "quota"))) /\
  (fun s => calls (effects (reloadTab s (AiResponse (Some "A")) 2))) <$> after
    = Some [].
Proof. cbv zeta. split_and!; vm_compute; reflexivity. Qed.

(** ** Further properties at concrete inputs *)

(** A reply without a fence, on the example platform, whose [trim] is the
    identity. *)
Lemma cleanResponse_without_fence_witness :
  includes "```" "[1]" = false /\ cleanResponse (Some "[1]") = "[1]".
Proof.
  split; [reflexivity|].
  destruct (cleanResponse_without_fence "[1]") as [Hclean _]; [reflexivity|].
  exact Hclean.
Defined.

(** A first visit to a site whose record is SLOWED. *)
Lemma navigate_copies_record_to_tab_witness :
  let site := site_a SLOWED (Some page_a) in
  let s := home_with_site site in
  (url_a <> home_url /\
   find_tab (target_of s None) (tabs s) = Some (new_tab "t0") /\
   siteCache s !! url_a = Some site /\
   cached_content (Some site) <> None) /\
  exists s' tab',
    settle (handleNavigate s url_a None (AiRejected None) 1) s = Some s' /\
    find_tab "t0" (tabs s') = Some tab' /\
    BrowserTab.url tab' = url_a /\
    BrowserTab.status tab' = SLOWED /\
    BrowserTab.chatHistory tab' = [] /\
    BrowserTab.isLoading tab' = false /\
    isChatOpen s' = false /\
    siteCache s' !! url_a = Some site.
Proof.
  intros site s.
  assert (Hcached : cached_content (Some site) <> None) by evaluated.
  split; [split_and!; evaluated|].
  destruct (navigate_copies_record_to_tab s url_a None (AiRejected None) 1 (new_tab "t0") site)
    as (s' & tab' & site' & Hs & Htab & Hurl & Hstatus & Hhistory & Hloading & Hchat
        & Hsite & _ & Hsame & _); [evaluated..|].
  destruct Hsame as [_ ->]; [right; left; exact Hcached|].
  exists s', tab'. split_and!; assumption.
Defined.

(** A visit to a BLOCKED site: the error page with the legal notice. *)
Lemma navigate_shows_page_or_error_witness :
  let s := home_with_site (site_a BLOCKED (Some page_a)) in
  (url_a <> home_url /\
   find_tab (target_of s None) (tabs s) = Some (new_tab "t0")) /\
  exists s' tab',
    settle (handleNavigate s url_a None (AiRejected None) 1) s = Some s' /\
    find_tab "t0" (tabs s') = Some tab' /\
    viewport tab' = ErrorPage "ERR_CONNECTION_RESET" true.
Proof.
  intros s. split; [split_and!; evaluated|].
  destruct (navigate_shows_page_or_error s url_a None (AiRejected None) 1 (new_tab "t0"))
    as (s' & tab' & Hs & Htab & Hview); [evaluated..|].
  exists s', tab'. split_and!; assumption.
Defined.

(** The three other cases of a visit: a page that is in the cache, a page
    that is generated, and an address without a host name. *)
Example navigate_viewport_cases :
  let shown := fun s url ai =>
    (fun s' => viewport <$> find_tab "t0" (tabs s'))
      <$> settle (handleNavigate s url None ai 1) s in
  shown (home_with_site (site_a SLOWED (Some page_a))) url_a (AiRejected None)
    = Some (Some (RenderedContent page_a)) /\
  shown (initial "t0" ∅) url_a (AiResponse (Some "A"))
    = Some (Some (RenderedContent (page_of "A"))) /\
  shown (initial "t0" ∅) "not a url" (AiResponse (Some "A"))
    = Some (Some (ErrorPage "ERR_CONNECTION_TIMED_OUT" false)).
Proof. cbv zeta. split_and!; vm_compute; reflexivity. Qed.

(** A visit to a SLOWED site that is in the cache. *)
Lemma navigate_cached_serves_cache_witness :
  let site := site_a SLOWED (Some page_a) in
  let s := home_with_site site in
  (url_a <> home_url /\
   find_tab (target_of s None) (tabs s) = Some (new_tab "t0") /\
   siteCache s !! url_a = Some site /\
   CachedSiteData.status site <> BLOCKED /\
   cached_content (Some site) = Some (site, page_a)) /\
  exists s' tab',
    settle (handleNavigate s url_a None (AiRejected None) 1) s = Some s' /\
    siteCache s' = siteCache s /\
    find_tab "t0" (tabs s') = Some tab' /\
    BrowserTab.content tab' = Some page_a /\
    BrowserTab.status tab' = SLOWED /\
    calls (effects (handleNavigate s url_a None (AiRejected None) 1)) = [].
Proof.
  intros site s. split; [split_and!; evaluated|].
  destruct (navigate_cached_serves_cache s url_a None (AiRejected None) 1 (new_tab "t0")
              site page_a)
    as (s' & tab' & Hs & Hcache & Htab & Hcontent & _ & Hstatus & _ & _ & _ & Hcalls & _);
    [evaluated..|].
  exists s', tab'. split_and!; assumption.
Defined.

(** Going home from a BLOCKED site: the tab keeps the status. *)
Lemma navigate_home_clears_page_witness :
  let s := viewing_a BLOCKED in
  find_tab (target_of s None) (tabs s) = Some (tab_on_a BLOCKED) /\
  exists s' tab',
    settle (handleNavigate s home_url None (AiRejected None) 1) s = Some s' /\
    find_tab "t0" (tabs s') = Some tab' /\
    BrowserTab.url tab' = home_url /\
    BrowserTab.content tab' = None /\
    BrowserTab.status tab' = BLOCKED /\
    viewport tab' = HomePage.
Proof.
  intros s. split; [evaluated|].
  destruct (navigate_home_clears_page s None (AiRejected None) 1 (tab_on_a BLOCKED))
    as (s' & tab' & Hs & _ & _ & Htab & Hurl & _ & Hcontent & _ & Hstatus & _ & _
        & Hview & _); [evaluated..|].
  exists s', tab'. split_and!; assumption.
Defined.

(** A first visit from the first render. *)
Lemma generated_page_is_reused_witness :
  let s := initial "t0" ∅ in
  (url_a <> home_url /\
   find_tab (target_of s None) (tabs s) = Some (new_tab "t0") /\
   status_or NORMAL (siteCache s !! url_a) <> BLOCKED /\
   cached_content (siteCache s !! url_a) = None /\
   hostname url_a = Some "a.com") /\
  exists s' site' html,
    settle (handleNavigate s url_a None (AiResponse (Some "A")) 1) s = Some s' /\
    siteCache s' !! url_a = Some site' /\
    cached_content (Some site') = Some (site', html) /\
    calls (effects (handleNavigate s' url_a None (AiResponse (Some "A2")) 2)) = [] /\
    calls (effects (reloadContentForUrl s' url_a "t0" (AiResponse (Some "A3")) 3)) = [].
Proof.
  intros s. split; [split_and!; evaluated|].
  destruct (generated_page_is_reused s url_a None (AiResponse (Some "A")) 1
              (new_tab "t0") "a.com")
    as (s' & site' & html & Hs & Hsite & Hcached & Hnavigate & Hreload); [evaluated..|].
  exists s', site', html. split_and!; try assumption.
  - apply Hnavigate.
  - apply Hreload.
Defined.

(** Reloading a tab that shows as NORMAL a site whose record is BLOCKED. *)
Lemma reload_syncs_status_with_record_witness :
  let s := mkAppState {[ url_a := site_a BLOCKED (Some page_a) ]} [tab_on_a NORMAL] "t0"
             false (js_array []) false false false js_null false in
  (getActiveTab s = Some (tab_on_a NORMAL) /\
   BrowserTab.url (tab_on_a NORMAL) <> home_url) /\
  exists s' tab',
    settle (reloadTab s (AiRejected None) 1) s = Some s' /\
    getActiveTab s' = Some tab' /\
    BrowserTab.status tab' = BLOCKED /\
    BrowserTab.isLoading tab' = false /\
    BrowserTab.error tab' = Some "ERR_CONNECTION_RESET".
Proof.
  intros s. split; [split_and!; evaluated|].
  destruct (reload_syncs_status_with_record s (AiRejected None) 1 (tab_on_a NORMAL))
    as (s' & tab' & Hs & Htab & _ & _ & _ & Hstatus & Hloading & Hblocked & _);
    [evaluated..|].
  exists s', tab'. split_and!; try assumption.
  by apply Hblocked.
Defined.

(** Going back from [url_b] to a site that was blocked meanwhile: the tab
    keeps the transcript it had on [url_b]. *)
Lemma history_move_keeps_transcript_witness :
  let said := mkChatMessage user (js_string "hello") 3 in
  let tab := BrowserTab.mk "t0" url_b "b.org" false [home_url; url_a; url_b] 2
               (Some "<p>B</p>") NORMAL [said] None in
  let s := mkAppState {[ url_a := site_a BLOCKED (Some page_a) ]} [tab] "t0"
             false (js_array []) false false false js_null false in
  (getActiveTab s = Some tab /\
   0 < BrowserTab.historyIndex tab /\
   js_index (BrowserTab.history tab) (BrowserTab.historyIndex tab - 1) = Some url_a) /\
  exists s' tab',
    settle (handleBack s (AiRejected None) 4) s = Some s' /\
    getActiveTab s' = Some tab' /\
    BrowserTab.url tab' = url_a /\
    BrowserTab.historyIndex tab' = 1 /\
    BrowserTab.chatHistory tab' = [said] /\
    BrowserTab.status tab' = BLOCKED /\
    BrowserTab.error tab' = Some "ERR_CONNECTION_RESET".
Proof.
  intros said tab s. split; [split_and!; evaluated|].
  destruct (history_move_keeps_transcript s (AiRejected None) 4 tab false url_a)
    as (s' & tab' & Hs & Htab & Hurl & Hindex & _ & Hchat & _ & _ & Hpage);
    [evaluated..|].
  destruct Hpage as (Hstatus & _ & Hblocked); [evaluated|].
  destruct Hblocked as (Herror & _); [evaluated|].
  exists s', tab'. split_and!; assumption.
Defined.

(** A search from a page, while the service is down. *)
Lemma search_shows_results_on_home_witness :
  let s := viewing_a NORMAL in
  getActiveTab s = Some (tab_on_a NORMAL) /\
  exists s' tab',
    settle (handleSearch s "news" (AiRejected None)) s = Some s' /\
    isSearching s' = false /\
    searchResults s' = SearchResults_value search_fallback /\
    getActiveTab s' = Some tab' /\
    BrowserTab.url tab' = home_url /\
    BrowserTab.historyIndex tab' = 2.
Proof.
  intros s. split; [evaluated|].
  destruct (search_shows_results_on_home s "news" (AiRejected None) (tab_on_a NORMAL))
    as (s' & tab' & Hs & Hsearching & Hresults & _ & Htab & Hurl & _ & _ & _ & Hpushed);
    [evaluated|].
  destruct Hpushed as (_ & _ & Hindex); [evaluated|].
  exists s', tab'. split_and!; assumption.
Defined.

(** Opening the court while the service is down. *)
Lemma open_court_holds_what_the_judge_returned_witness :
  let s := viewing_a UNDER_APPEAL in
  (getActiveTab s = Some (tab_on_a UNDER_APPEAL) /\
   BrowserTab.status (tab_on_a UNDER_APPEAL) = UNDER_APPEAL) /\
  exists s',
    settle (handleOpenCourt s (AiRejected (Some "quota"))) s = Some s' /\
    isCourtOpen s' = true /\
    isCourtLoading s' = false /\
    currentVerdict s' = CourtVerdict_value court_fallback /\
    tabs s' = tabs s.
Proof.
  intros s. split; [split_and!; evaluated|].
  destruct (open_court_holds_what_the_judge_returned s (AiRejected (Some "quota"))
              (tab_on_a UNDER_APPEAL))
    as (s' & Hs & Htabs & _ & _ & _ & Hcourt); [evaluated|].
  destruct Hcourt as (Hopen & Hloading & Hrejected & _); [evaluated|].
  exists s'. split_and!; try assumption.
  by apply (Hrejected (Some "quota")).
Defined.

(** Opening the court when the reply of the judge is [null]: the verdict
    that is held is [null], as it was before the court opened. *)
Example open_court_answered_with_null :
  currentVerdict
    <$> settle (handleOpenCourt (viewing_a UNDER_APPEAL) (AiResponse (Some "null")))
          (viewing_a UNDER_APPEAL)
  = Some js_null.
Proof. vm_compute. reflexivity. Qed.

(** A navigation in the first of two tabs. *)
Lemma other_tabs_are_untouched_witness :
  let s := mkAppState ∅ [new_tab "t0"; new_tab "t1"] "t0"
             false (js_array []) false false false js_null false in
  let ev := Navigate url_a None (AiResponse (Some "A")) 1 in
  ~ is_tab_event ev /\
  exists s',
    step ev s = Some s' /\
    Forall2
      (fun t t' =>
         BrowserTab.id t' = BrowserTab.id t /\ (BrowserTab.id t <> "t0" -> t' = t))
      (tabs s) (tabs s').
Proof.
  intros s ev. split; [by intros []|].
  destruct (step ev s) as [s'|] eqn:Hstep; [|by vm_compute in Hstep].
  exists s'. split; [reflexivity|].
  apply (other_tabs_are_untouched ev s s'); [by intros [] | exact Hstep].
Defined.

(** A visit, a block with an appeal, and another visit. *)
Lemma no_tab_is_left_loading_witness :
  exists s,
    steps visit_and_appeal (initial "t0" ∅) = Some s /\
    Forall not_loading (tabs s).
Proof.
  destruct (steps visit_and_appeal (initial "t0" ∅)) as [s|] eqn:Hsteps;
    [|by vm_compute in Hsteps].
  exists s. split; [reflexivity|].
  by destruct (no_tab_is_left_loading "t0" ∅ visit_and_appeal s Hsteps).
Defined.

(** The record of [url_a] over a sequence that visits other pages. *)
Lemma cache_records_persist_witness :
  let s := home_with_site (site_a SLOWED (Some page_a)) in
  siteCache s !! url_a = Some (site_a SLOWED (Some page_a)) /\
  exists s' r',
    steps browse_back_and_forth s = Some s' /\
    siteCache s' !! url_a = Some r' /\
    CachedSiteData.url r' = url_a.
Proof.
  intros s. split; [evaluated|].
  destruct (steps browse_back_and_forth s) as [s'|] eqn:Hsteps;
    [|by vm_compute in Hsteps].
  destruct (cache_records_persist browse_back_and_forth s s' Hsteps) as [Hrecords _].
  destruct (Hrecords url_a (site_a SLOWED (Some page_a))) as (r' & Hr' & Hurl);
    [evaluated|].
  exists s', r'. split_and!; [reflexivity | assumption | exact Hurl].
Defined.

(** A visit, a block with an appeal and another visit: no chat. *)
Lemma only_chat_changes_transcript_and_content_witness :
  let site := site_a NORMAL (Some page_a) in
  let s := home_with_site site in
  (Forall (fun ev => ~ is_chat ev) visit_and_appeal /\
   siteCache s !! url_a = Some site /\
   cached_content (Some site) = Some (site, page_a)) /\
  exists s' r',
    steps visit_and_appeal s = Some s' /\
    siteCache s' !! url_a = Some r' /\
    CachedSiteData.chatHistory r' = [] /\
    cached_content (Some r') = Some (r', page_a).
Proof.
  intros site s.
  assert (Hevs : Forall (fun ev => ~ is_chat ev) visit_and_appeal)
    by (repeat constructor; by intros []).
  split; [split_and!; [exact Hevs | evaluated..]|].
  destruct (steps visit_and_appeal s) as [s'|] eqn:Hsteps; [|by vm_compute in Hsteps].
  destruct (only_chat_changes_transcript_and_content visit_and_appeal s s' url_a site
              Hevs Hsteps)
    as (r' & Hr' & Hchat & Hcontent); [evaluated|].
  exists s', r'. split_and!; [reflexivity | assumption | exact Hchat |].
  apply Hcontent. evaluated.
Defined.

(** Reload, back, forward and a search on a SLOWED site. *)
Lemma viewing_keeps_status_witness :
  let s := viewing_a SLOWED in
  let evs := [ Reload (AiRejected None) 1; Back (AiRejected None) 2;
               Forward (AiRejected None) 3; Search "news" (AiRejected None);
               NewTab "t1"; CloseTab "t0" ] in
  (Forall is_viewing evs /\
   siteCache s !! url_a = Some (site_a SLOWED (Some page_a))) /\
  exists s' r',
    steps evs s = Some s' /\
    siteCache s' !! url_a = Some r' /\
    CachedSiteData.status r' = SLOWED.
Proof.
  intros s evs.
  assert (Hevs : Forall is_viewing evs) by (repeat constructor).
  split; [split_and!; [exact Hevs | evaluated]|].
  destruct (steps evs s) as [s'|] eqn:Hsteps; [|by vm_compute in Hsteps].
  destruct (viewing_keeps_status evs s s' url_a (site_a SLOWED (Some page_a))
              Hevs Hsteps)
    as (r' & Hr' & Hstatus); [evaluated|].
  exists s', r'. split_and!; [reflexivity | assumption | exact Hstatus].
Defined.

(** Typing a host name. *)
Lemma address_bar_searches_or_navigates_witness :
  handleKeyDown "Enter" "a.com" = onNavigate "https://a.com" /\
  String.prefix "http" "https://a.com" = true /\
  "https://a.com" <> home_url.
Proof.
  split; [reflexivity|].
  destruct (address_bar_searches_or_navigates "Enter" "a.com") as (_ & _ & _ & Hnavigate).
  destruct (Hnavigate "https://a.com") as (Hhttp & _ & _ & Hhome); [reflexivity|].
  split; assumption.
Defined.

(** An address that starts with [http] is taken as it is; a phrase is
    searched; nothing is done without text or on another key. *)
Example address_bar_cases :
  handleKeyDown "Enter" "http://a.com" = onNavigate "http://a.com" /\
  handleKeyDown "Enter" "a.com news" = onSearch "a.com news" /\
  handleKeyDown "Enter" "news" = onSearch "news" /\
  handleKeyDown "Enter" "" = no_action /\
  handleKeyDown "a" "a.com" = no_action.
Proof. split_and!; reflexivity. Qed.

(** A relative link on a tab that shows [url_a], when [new URL] throws. *)
Lemma resolveUrl_outcomes_witness :
  let URL_href := fun _ _ : string => @None string in
  resolveUrl URL_href url_a "/docs" = Some "https://example.com/docs" /\
  String.prefix "http" "/docs" = false /\
  URL_href "/docs" url_a = None.
Proof.
  intros URL_href. split; [reflexivity|]. split; [reflexivity|].
  destruct (resolveUrl_outcomes URL_href url_a "/docs") as (_ & _ & Htarget).
  destruct (Htarget "https://example.com/docs") as (_ & [Hresolved|(Hthrown & _)]);
    [reflexivity | reflexivity | discriminate Hresolved | exact Hthrown].
Defined.

(** Unrestricting a BLOCKED site: the record becomes NORMAL, the tab stays
    BLOCKED on the connection-reset error. *)
Lemma slow_and_unrestrict_keep_tab_status_witness :
  let s := viewing_a BLOCKED in
  (getActiveTab s = Some (tab_on_a BLOCKED) /\
   BrowserTab.url (tab_on_a BLOCKED) <> home_url /\
   existing_or_default url_a 1 (siteCache s) = Some (site_a BLOCKED (Some page_a))) /\
  exists s' site' tab',
    settle (handleUnrestrict s (AiRejected None) 1 2) s = Some s' /\
    siteCache s' !! url_a = Some site' /\
    CachedSiteData.status site' = NORMAL /\
    getActiveTab s' = Some tab' /\
    BrowserTab.status tab' = BLOCKED /\
    BrowserTab.error tab' = Some "ERR_CONNECTION_RESET".
Proof.
  intros s. split; [split_and!; evaluated|].
  destruct (slow_and_unrestrict_keep_tab_status s false (AiRejected None) 1 2
              (tab_on_a BLOCKED) (site_a BLOCKED (Some page_a)))
    as (s' & site' & tab' & Hs & Hsite & Hstatus & _ & Htab & Htabstatus & _ & Hblocked);
    [evaluated..|].
  exists s', site', tab'. split_and!; try assumption.
  by apply Hblocked.
Defined.

(** The owner agrees to remove the content of a page that is on display. *)
Lemma chat_agreement_keeps_page_on_tab_witness :
  let s := viewing_a NORMAL in
  let tab := tab_on_a NORMAL in
  let site := site_a NORMAL (Some page_a) in
  let chat := AiResponse (Some agree_json) in
  (getActiveTab s = Some tab /\
   BrowserTab.url tab <> home_url /\
   siteCache s !! BrowserTab.url tab = Some site /\
   CachedSiteData.status site <> BLOCKED /\
   cached_content (Some site) = Some (site, page_a) /\
   destructure_reply
     (chatWithSiteOwner (BrowserTab.url tab) (chat_newHistory tab "remove it" clock0)
        "remove it" chat) = Some (js_string "OK", js_boolean true) /\
   is_truthy (js_boolean true) = true) /\
  exists s' site' tab',
    settle (handleChatSendMessage s "remove it" chat (AiRejected None) clock0) s
      = Some s' /\
    siteCache s' !! url_a = Some site' /\
    CachedSiteData.status site' = CONTENT_REMOVED /\
    CachedSiteData.content site' = None /\
    getActiveTab s' = Some tab' /\
    BrowserTab.status tab' = NORMAL /\
    BrowserTab.content tab' = Some page_a /\
    viewport tab' = RenderedContent page_a.
Proof.
  intros s tab site chat. split; [split_and!; evaluated|].
  destruct (chat_agreement_keeps_page_on_tab s "remove it" chat (AiRejected None) clock0
              tab site page_a (js_string "OK") (js_boolean true))
    as (s' & site' & tab' & Hs & Hsite & Hstatus & Hcontent & Htab & Htabstatus
        & Htabcontent & _ & _ & _ & Hview & _); [evaluated..|].
  exists s', site', tab'. split_and!; assumption.
Defined.

(** A chat message answered by a reply that does not parse. *)
Lemma chat_failure_keeps_page_witness :
  let s := viewing_a SLOWED in
  let tab := tab_on_a SLOWED in
  let chat := AiResponse (Some "oops") in
  (getActiveTab s = Some tab /\
   BrowserTab.url tab <> home_url /\
   existing_or_default url_a 11 (siteCache s) = Some (site_a SLOWED (Some page_a)) /\
   JSON_parse (cleanResponse (Some "oops")) = None) /\
  exists s' site' tab',
    settle (handleChatSendMessage s "hello" chat (AiRejected None) clock0) s = Some s' /\
    siteCache s' !! url_a = Some site' /\
    CachedSiteData.status site' = SLOWED /\
    CachedSiteData.content site' = Some page_a /\
    getActiveTab s' = Some tab' /\
    BrowserTab.chatHistory tab'
      = [mkChatMessage user (js_string "hello") 10;
         mkChatMessage model (js_string (reply chat_fallback)) 12].
Proof.
  intros s tab chat. split; [split_and!; evaluated|].
  destruct (chat_failure_keeps_page s "hello" chat (AiRejected None) clock0 tab
              (site_a SLOWED (Some page_a)))
    as (s' & site' & tab' & Hs & Hsite & Hstatus & Hcontent & _ & Htab & _ & _ & _
        & Hchat & _); [evaluated..| |].
  { intros t [= <-]. reflexivity. }
  exists s', site', tab'. split_and!; assumption.
Defined.

(** Opening a second tab and switching back to the first. *)
Lemma browser_renders_the_active_tab_witness :
  let evs := [NewTab "t1"; SwitchTab "t0"] in
  all_allowed evs (initial "t0" ∅) /\
  exists s t,
    steps evs (initial "t0" ∅) = Some s /\
    activeTab s = Some t /\
    BrowserTab.id t = activeTabId s.
Proof.
  intros evs.
  assert (Hallowed : all_allowed evs (initial "t0" ∅)).
  { split.
    - intros Hin. apply list_elem_of_In in Hin. simpl in Hin.
      destruct Hin as [Heq|[]]. discriminate Heq.
    - intros s1 [= <-]. split; [|done]. apply list_elem_of_In. simpl. by left. }
  split; [exact Hallowed|].
  destruct (steps evs (initial "t0" ∅)) as [s|] eqn:Hsteps; [|by vm_compute in Hsteps].
  destruct (browser_renders_the_active_tab "t0" ∅ evs s Hallowed Hsteps)
    as (t & Hrendered & _ & Hid & _).
  exists s, t. split_and!; [reflexivity | assumption | assumption].
Defined.
